(** * Pylot operators: lidar release gate, detection decay, prediction evaluation

    A shallow embedding of three ERDOS operators of the Pylot pipeline and
    the properties their specification states about them:

    - [LidarDriver]      src/pylot/drivers/carla_lidar_driver_operator.py
    - [DetectionDecay]   src/pylot/perception/detection/detection_decay_operator.py
    - [PredictionEval]   src/pylot/prediction/prediction_eval_operator.py

    Conventions of the embedding.

    - A Python callback that may raise is a function into [result]; the
      constructor [Raise] carries the Python exception class.
    - Messages sent on ERDOS write streams are returned as lists, in sending
      order; so are the rows the prediction evaluator writes to its CSV
      logger (without the wall-clock column and the number formatting).
    - Python [float] values are modelled by exact rationals [Q]; statements
      about metric values are therefore statements of exact arithmetic and
      use the rational equality [==].
    - Each callback is modelled as one atomic step: the locks of the
      operators serialise the callbacks and are not modelled.
    - Collaborators that live outside the three files (the simulator's point
      cloud, pickle, the obstacle classes, the IoU primitive) are Section
      variables. *)

From Stdlib Require Import ZArith QArith Qabs Lia Lqa.
From stdpp Require Import gmap list strings sorting.

Set Default Proof Using "Type".

(** ** Python exceptions and fallible computations *)

Inductive exn : Type :=
| KeyError
| IndexError
| ZeroDivisionError
| ValueError
| AssertionError.

Inductive result (A : Type) : Type :=
| Ok (a : A)
| Raise (e : exn).

Arguments Ok {A} a.
Arguments Raise {A} e.

(** Sequencing: the first exception raised aborts the rest.  With this
    instance [x ← r; k] reads as in the Python source. *)
Global Instance result_bind : MBind result :=
  fun A B (k : A -> result B) (r : result A) =>
    match r with
    | Ok a => k a
    | Raise e => Raise e
    end.

Definition is_ok {A : Type} (r : result A) : bool :=
  match r with Ok _ => true | Raise _ => false end.

(** A Python [for] loop whose body may raise: the body threads the loop's
    variables through the elements, left to right. *)
Fixpoint for_each {A B : Type} (body : A -> B -> result A) (l : list B) (a : A)
  : result A :=
  match l with
  | [] => Ok a
  | b :: l' => a' ← body a b; for_each body l' a'
  end.

(** The elements of a list from the first one that satisfies [p]. *)
Fixpoint drop_until {A : Type} (p : A -> bool) (l : list A) : list A :=
  match l with
  | [] => []
  | a :: l' => if p a then l else drop_until p l'
  end.

(** ** ERDOS timestamps

    [erdos.Timestamp]: a list of integer coordinates and the flag of the
    distinguished top timestamp.  Timestamps compare and hash by value, so
    they can key a dictionary. *)

Record Timestamp : Type := mkTimestamp {
  coordinates : list Z;
  is_top : bool
}.

Global Instance Timestamp_eq_dec : EqDecision Timestamp.
Proof. solve_decision. Defined.

Global Instance Timestamp_countable : Countable Timestamp.
Proof.
  refine (inj_countable' (fun t => (coordinates t, is_top t))
                         (fun p => mkTimestamp p.1 p.2) _).
  by intros [].
Defined.

(** [erdos.Timestamp(coordinates=[game_time])] *)
Definition timestamp_of (game_time : Z) : Timestamp :=
  mkTimestamp [game_time] false.

(** ** The lidar driver: a release gate over pickled point clouds *)

Module LidarDriver.

Inductive Stream : Type := LeftStream | RightStream.

Section Operator.

(** The simulator's point cloud, the converted [PointCloud] and the bytes
    produced by [pickle.dumps] are opaque to the operator. *)
Context {SimulatorPC PointCloud Pickled : Type}.
(** [int(simulator_pc.timestamp * 1000)] *)
Variable game_time_of : SimulatorPC -> Z.
(** [len(simulator_pc.raw_data)] *)
Variable raw_data_len : SimulatorPC -> nat.
(** [PointCloud.from_simulator_point_cloud(simulator_pc, self._lidar_setup)] *)
Variable from_simulator_point_cloud : SimulatorPC -> PointCloud.
(** [pickle.dumps(data, protocol=pickle.HIGHEST_PROTOCOL)] *)
Variable pickle_dumps : PointCloud -> Pickled.

Inductive Msg : Type :=
| Message (t : Timestamp) (data : PointCloud)
| PickledMessage (t : Timestamp) (bytes : Pickled)
| WatermarkMessage (t : Timestamp).

(** The fields of the operator that the callbacks read and write. *)
Record State : Type := mkState {
  pickled_messages : gmap Timestamp Pickled;
  release_data : bool
}.

(** [__init__] *)
Definition init : State := mkState ∅ false.

Definition Sent : Type := list (Stream * Msg).

(** [process_point_clouds]: the simulator's callback (the offer). *)
Definition process_point_clouds (st : State) (simulator_pc : SimulatorPC)
  : result (State * Sent) :=
  let game_time := game_time_of simulator_pc in
  let timestamp := timestamp_of game_time in
  let watermark_msg := WatermarkMessage timestamp in
  if (0 <? raw_data_len simulator_pc)%nat then
    let data := from_simulator_point_cloud simulator_pc in
    if release_data st then
      Ok (st, [(LeftStream, Message timestamp data);
               (LeftStream, watermark_msg)])
    else
      let pickled_msg := pickle_dumps data in
      Ok (mkState (<[timestamp := pickled_msg]> (pickled_messages st))
                  (release_data st),
          [(RightStream, watermark_msg)])
  else Raise AssertionError.

(** [on_watermark]: the release signal. *)
Definition on_watermark (st : State) (timestamp : Timestamp)
  : result (State * Sent) :=
  if is_top timestamp then
    Ok (mkState (pickled_messages st) true, [])
  else
    let watermark_msg := WatermarkMessage timestamp in
    match pickled_messages st !! timestamp with
    | None => Raise KeyError
    | Some bytes =>
        Ok (mkState (delete timestamp (pickled_messages st))
                    (release_data st),
            [(LeftStream, PickledMessage timestamp bytes);
             (LeftStream, watermark_msg)])
    end.

(** The two callbacks the runtime may invoke, in any order. *)
Inductive Event : Type :=
| PointCloudCallback (simulator_pc : SimulatorPC)
| Watermark (timestamp : Timestamp).

Definition step (st : State) (ev : Event) : result (State * Sent) :=
  match ev with
  | PointCloudCallback pc => process_point_clouds st pc
  | Watermark t => on_watermark st t
  end.

(** A callback that raises does so before it writes any field, so the
    operator's fields after a failed callback are those before it. *)
Fixpoint run (st : State) (evs : list Event) : State * list (result Sent) :=
  match evs with
  | [] => (st, [])
  | ev :: evs' =>
      match step st ev with
      | Ok (st', sent) =>
          let '(st'', outs) := run st' evs' in (st'', Ok sent :: outs)
      | Raise e =>
          let '(st'', outs) := run st evs' in (st'', Raise e :: outs)
      end
  end.

(** What a point-cloud callback does once the gate is in immediate mode. *)
Definition immediate_reply (pc : SimulatorPC) : result Sent :=
  if (0 <? raw_data_len pc)%nat then
    Ok [(LeftStream,
         Message (timestamp_of (game_time_of pc))
                 (from_simulator_point_cloud pc));
        (LeftStream, WatermarkMessage (timestamp_of (game_time_of pc)))]
  else Raise AssertionError.

Definition forwarded_immediately (ev : Event) (r : result Sent) : Prop :=
  match ev with
  | PointCloudCallback pc => r = immediate_reply pc
  | Watermark _ => True
  end.

(** The payloads a list of sent messages carries on the left stream. *)
Definition is_payload (m : Stream * Msg) : bool :=
  match m with
  | (LeftStream, Message _ _) => true
  | (LeftStream, PickledMessage _ _) => true
  | _ => false
  end.

Definition payload_count (sent : Sent) : nat :=
  length (List.filter is_payload sent).

(** The watermarks that carry the top timestamp. *)
Definition is_top_watermark (ev : Event) : bool :=
  match ev with
  | Watermark t => is_top t
  | PointCloudCallback _ => false
  end.

(** The snapshot under [timestamp] was made from the point cloud of one of
    the callbacks [evs]. *)
Definition offered_in (evs : list Event) (timestamp : Timestamp)
    (bytes : Pickled) : Prop :=
  exists pc,
    In (PointCloudCallback pc) evs
    /\ timestamp = timestamp_of (game_time_of pc)
    /\ bytes = pickle_dumps (from_simulator_point_cloud pc).

(** The point clouds that arrive under the game time of [pc]. *)
Definition same_game_time (pc pc' : SimulatorPC) : bool :=
  bool_decide (game_time_of pc' = game_time_of pc).

(** The timestamp a message carries. *)
Definition msg_timestamp (m : Msg) : Timestamp :=
  match m with
  | Message t _ => t
  | PickledMessage t _ => t
  | WatermarkMessage t => t
  end.

(** A callback that neither offers a point cloud under [timestamp] nor
    releases [timestamp]. *)
Definition leaves_alone (timestamp : Timestamp) (ev : Event) : Prop :=
  match ev with
  | PointCloudCallback pc => timestamp_of (game_time_of pc) <> timestamp
  | Watermark t => t <> timestamp
  end.

(** No message of the outputs of a run carries [timestamp]. *)
Definition silent_about (timestamp : Timestamp) (outs : list (result Sent))
  : Prop :=
  Forall (fun r : result Sent =>
            match r with
            | Ok sent =>
                Forall (fun sm : Stream * Msg =>
                          msg_timestamp sm.2 <> timestamp) sent
            | Raise _ => True
            end) outs.

End Operator.

(** A concrete simulator for examples: a point cloud is its game time in
    milliseconds and its raw points; conversion keeps the points and
    pickling tags them. *)
Module Example.

Definition SimulatorPC : Type := (Z * list Z)%type.
Definition game_time_of (pc : SimulatorPC) : Z := pc.1.
Definition raw_data_len (pc : SimulatorPC) : nat := length pc.2.
Definition from_simulator_point_cloud (pc : SimulatorPC) : list Z := pc.2.
Definition pickle_dumps (data : list Z) : list Z := 128%Z :: data.

Definition process_point_clouds :=
  LidarDriver.process_point_clouds
    game_time_of raw_data_len from_simulator_point_cloud pickle_dumps.
Definition on_watermark :=
  LidarDriver.on_watermark (PointCloud := list Z) (Pickled := list Z).
Definition Watermark : Timestamp -> Event :=
  LidarDriver.Watermark (SimulatorPC := SimulatorPC).
Definition run :=
  LidarDriver.run
    game_time_of raw_data_len from_simulator_point_cloud pickle_dumps.
Definition init : State := LidarDriver.init (Pickled := list Z).

End Example.

End LidarDriver.

(** ** The detection-decay evaluator: a bounded-latency window *)

Module DetectionDecay.

Section Operator.

(** Obstacles and their bounding boxes come with the input message; the
    precision/recall primitive is
    [pylot.perception.detection.utils.get_precision_recall_at_iou]. *)
Context {Obstacle BoundingBox : Type}.
Variable is_person : Obstacle -> bool.
Variable bounding_box : Obstacle -> BoundingBox.
Variable get_precision_recall_at_iou :
  list BoundingBox -> list BoundingBox -> Q -> Q * Q.
(** [self._flags.decay_max_latency] *)
Variable decay_max_latency : Z.

(** [[0.1 * i for i in range(1, 10)]] *)
Definition iou_thresholds : list Q :=
  map (fun i : Z => (1 # 10) * inject_Z i)%Q (seqZ 1 9).

(** An entry of the deque [self._ground_bboxes]. *)
Definition Entry : Type := (Z * list BoundingBox)%type.

Record State : Type := mkState {
  ground_bboxes : list Entry
}.

(** [__init__] *)
Definition init : State := mkState [].

(** The message sent on the write stream: the pair
    [(latency, avg_precision)] stamped with the input's timestamp. *)
Definition Msg : Type := (Timestamp * (Z * Q))%type.

(** The loop that selects the person bounding boxes. *)
Definition select_person_bboxes (obstacles : list Obstacle)
  : list BoundingBox :=
  fold_left (fun bboxes obstacle =>
               if is_person obstacle
               then bboxes ++ [bounding_box obstacle]
               else bboxes)
            obstacles [].

(** The [while] loop that pops the entries that are too old. *)
Fixpoint remove_old (game_time : Z) (window : list Entry) : list Entry :=
  match window with
  | [] => []
  | (old_game_time, old_bboxes) :: rest =>
      if (game_time - old_game_time >? decay_max_latency)%Z
      then remove_old game_time rest
      else window
  end.

(** [sum(precisions)] *)
Definition py_sum (l : list Q) : Q := fold_left Qplus l 0%Q.

(** The precisions at every threshold and their mean.  The list of
    thresholds has nine elements, so the division is defined. *)
Definition precisions_at (bboxes old_bboxes : list BoundingBox) : list Q :=
  fold_left (fun precisions iou =>
               let '(precision, _) :=
                 get_precision_recall_at_iou bboxes old_bboxes iou in
               precisions ++ [precision])
            iou_thresholds [].

Definition avg_precision (bboxes old_bboxes : list BoundingBox) : Q :=
  let precisions := precisions_at bboxes old_bboxes in
  (py_sum precisions / inject_Z (Z.of_nat (length precisions)))%Q.

(** The body of the loop over the buffered entries. *)
Definition compare_entry (timestamp : Timestamp) (game_time : Z)
    (bboxes : list BoundingBox) (sent : list Msg) (entry : Entry)
  : list Msg :=
  let '(old_game_time, old_bboxes) := entry in
  if (0 <? length bboxes)%nat || (0 <? length old_bboxes)%nat then
    let latency := (game_time - old_game_time)%Z in
    sent ++ [(timestamp, (latency, avg_precision bboxes old_bboxes))]
  else sent.

(** [on_data] *)
Definition on_data (st : State) (timestamp : Timestamp)
    (obstacles : list Obstacle) : result (State * list Msg) :=
  match coordinates timestamp with
  | [game_time] =>
      let bboxes := select_person_bboxes obstacles in
      let window := remove_old game_time (ground_bboxes st) in
      let sent := fold_left (compare_entry timestamp game_time bboxes)
                            window [] in
      Ok (mkState (window ++ [(game_time, bboxes)]), sent)
  | _ => Raise AssertionError
  end.

(** Successive messages, each stamped with a one-coordinate timestamp:
    the state after the last one and what every call sent. *)
Fixpoint run (st : State) (msgs : list (Z * list Obstacle))
  : result (State * list (list Msg)) :=
  match msgs with
  | [] => Ok (st, [])
  | (game_time, obstacles) :: msgs' =>
      '(st', sent) ← on_data st (timestamp_of game_time) obstacles;
      '(st'', sents) ← run st' msgs';
      Ok (st'', sent :: sents)
  end.

(** *** The contract of [observe], in the words of the specification *)

(** Step (1): the entries that remain are those within the latency bound,
    counted from the front. *)
Definition within_latency (key : Z) (entry : Entry) : bool :=
  (key - entry.1 <=? decay_max_latency)%Z.

Definition evicted_window (key : Z) (window : list Entry) : list Entry :=
  drop_until (within_latency key) window.

(** Step (2): one observation per remaining entry with a non-empty side;
    the metric is averaged over the thresholds. *)
Definition either_nonempty (entity_set : list BoundingBox) (entry : Entry)
  : bool :=
  negb (Nat.eqb (length entity_set) 0 && Nat.eqb (length entry.2) 0).

Definition averaged_metric (entity_set old_entity_set : list BoundingBox)
  : Q :=
  (fold_right Qplus 0
     (map (fun threshold =>
             (get_precision_recall_at_iou entity_set old_entity_set
                                          threshold).1)
          iou_thresholds) / 9)%Q.

Definition observations (key : Z) (entity_set : list BoundingBox)
    (window : list Entry) : list (Z * Q) :=
  map (fun entry => ((key - entry.1)%Z, averaged_metric entity_set entry.2))
      (List.filter (either_nonempty entity_set) window).

(** The invariant of the window: keys in non-decreasing order, oldest first,
    and every key at most [decay_max_latency] behind the current one. *)
Definition keys (window : list Entry) : list Z := map fst window.

Definition within_bound (key : Z) (window : list Entry) : Prop :=
  Forall (fun entry : Entry => (key - entry.1 <= decay_max_latency)%Z) window.

Definition latency_in_bound (m : Msg) : Prop :=
  (0 <= m.2.1 <= decay_max_latency)%Z.

(** A sent message carries the observation [o], up to the equality of
    rationals. *)
Definition carries (timestamp : Timestamp) (m : Msg) (o : Z * Q) : Prop :=
  m.1 = timestamp /\ m.2.1 = o.1 /\ (m.2.2 == o.2)%Q.

(** The input with the obstacles that are not persons left out. *)
Definition persons_only (msg : Z * list Obstacle) : Z * list Obstacle :=
  (msg.1, List.filter is_person msg.2).

(** The entry a message leaves in the window, and the latencies a call
    reports, in sending order. *)
Definition entry_of (msg : Z * list Obstacle) : Entry :=
  (msg.1, select_person_bboxes msg.2).

Definition latencies (sent : list Msg) : list Z :=
  map (fun m : Msg => m.2.1) sent.

Definition no_person (msg : Z * list Obstacle) : Prop :=
  Forall (fun obstacle => is_person obstacle = false) msg.2.

(** The primitive returns a precision between zero and one. *)
Definition precision_is_a_ratio : Prop :=
  forall bboxes old_bboxes iou,
    (0 <= (get_precision_recall_at_iou bboxes old_bboxes iou).1 <= 1)%Q.

End Operator.

(** A concrete detector for examples: an obstacle is a person flag and a
    box number; two boxes overlap fully when they are the same box and not
    at all otherwise, so precision and recall count the common boxes. *)
Module Example.

Definition Obstacle : Type := (bool * Z)%type.
Definition is_person (o : Obstacle) : bool := o.1.
Definition bounding_box (o : Obstacle) : Z := o.2.

Definition ratio (n d : nat) : Q :=
  match d with
  | O => 0%Q
  | S _ => (inject_Z (Z.of_nat n) / inject_Z (Z.of_nat d))%Q
  end.

Definition get_precision_recall_at_iou (bboxes old_bboxes : list Z)
    (iou : Q) : Q * Q :=
  let tp := length (List.filter (fun b => bool_decide (b ∈ old_bboxes))
                                bboxes) in
  (ratio tp (length bboxes), ratio tp (length old_bboxes)).

Definition decay_max_latency : Z := 100.

Definition on_data :=
  DetectionDecay.on_data is_person bounding_box get_precision_recall_at_iou
                         decay_max_latency.
Definition run :=
  DetectionDecay.run is_person bounding_box get_precision_recall_at_iou
                     decay_max_latency.
Definition init : State := DetectionDecay.init (BoundingBox := Z).

End Example.

End DetectionDecay.

(** ** The prediction evaluator: warm-up buffer and trajectory errors *)

Module PredictionEval.

(** [pylot.utils.Location], [Transform] and [Pose], as far as the operator
    reads them. *)
Record Location : Type := mkLocation { x : Q; y : Q; z : Q }.
Record Transform : Type := mkTransform { location : Location }.
Record Pose : Type := mkPose { transform : Transform }.

Record Vector2D : Type := mkVector2D { vx : Q; vy : Q }.

(** Modelled from the spec: [Vector2D.l1_distance] of pylot/utils.py, which
    is not among the sources.  The average and final displacement errors are
    Manhattan (L1) distances of aligned pairs. *)
Definition l1_distance (p other : Vector2D) : Q :=
  (Qabs (vx p - vx other) + Qabs (vy p - vy other))%Q.

(** Modelled from the spec: [Vector2D.l2_distance] of pylot/utils.py, which
    is not among the sources.  The mean-squared-distance is the average of
    the squared Euclidean distance of aligned pairs, so that square is the
    term the operator adds up for each pair. *)
Definition l2_distance (p other : Vector2D) : Q :=
  ((vx p - vx other) * (vx p - vx other)
   + (vy p - vy other) * (vy p - vy other))%Q.

(** An obstacle's predicted trajectory and its ground (past) trajectory;
    [prediction_id] and [trajectory_id] are the field [id] of either class. *)
Record ObstaclePrediction : Type := mkObstaclePrediction {
  prediction_id : Z;
  label : string;
  predicted_trajectory : list Transform
}.

Record ObstacleTrajectory : Type := mkObstacleTrajectory {
  trajectory_id : Z;
  trajectory : list Transform
}.

Record ObstacleTrajectoriesMessageTuple : Type := mkTrackingMsg {
  obstacle_trajectories : list ObstacleTrajectory
}.

(** [Vector2D(transform.location.x, transform.location.y)]: the altitude is
    dropped. *)
Definition to_vector2D (t : Transform) : Vector2D :=
  mkVector2D (x (location t)) (y (location t)).

(** [l[i]] for [i >= 0]. *)
Definition index_from_start {A : Type} (l : list A) (i : nat) : result A :=
  match l !! i with
  | Some a => Ok a
  | None => Raise IndexError
  end.

(** [l[-idx]] for [idx >= 1]. *)
Definition index_from_end {A : Type} (l : list A) (idx : nat) : result A :=
  if (idx <=? length l)%nat then
    match l !! (length l - idx)%nat with
    | Some a => Ok a
    | None => Raise IndexError
    end
  else Raise IndexError.

(** [a / n] for a float [a] and an integer [n]. *)
Definition py_div (a : Q) (n : nat) : result Q :=
  match n with
  | O => Raise ZeroDivisionError
  | S _ => Ok (a / inject_Z (Z.of_nat n))%Q
  end.

(** The errors of one obstacle (the inner loop of [_calculate_metrics] and
    the three assignments after it): mean squared distance, average
    displacement error and final displacement error. *)
Definition sum_distances (predicted_trajectory ground_trajectory : list Vector2D)
  : result (Q * Q) :=
  for_each
    (fun '(l2, l1) idx =>
       p ← index_from_end predicted_trajectory idx;
       g ← index_from_end ground_trajectory idx;
       Ok ((l2 + l2_distance p g)%Q, (l1 + l1_distance p g)%Q))
    (seq 1 (length predicted_trajectory)) (0%Q, 0%Q).

Definition displacement_errors
    (predicted_trajectory ground_trajectory : list Vector2D)
  : result (Q * Q * Q) :=
  '(l2_sum, l1_sum) ← sum_distances predicted_trajectory ground_trajectory;
  l2 ← py_div l2_sum (length predicted_trajectory);
  l1 ← py_div l1_sum (length predicted_trajectory);
  p ← index_from_end predicted_trajectory 1;
  g ← index_from_end ground_trajectory 1;
  Ok (l2, l1, l1_distance p g).

(** The running per-class counts and sums. *)
Record Metrics : Type := mkMetrics {
  vehicle_cnt : nat;
  vehicle_msd : Q;
  vehicle_ade : Q;
  vehicle_fde : Q;
  person_cnt : nat;
  person_msd : Q;
  person_ade : Q;
  person_fde : Q
}.

Definition no_metrics : Metrics := mkMetrics 0 0 0 0 0 0 0 0.

(** A row of the CSV log: simulation time, metric name, value. *)
Definition CsvRow : Type := (Z * string * Q)%type.

Section Operator.

(** The label predicates of [ObstaclePrediction] and the in-place
    conversions to world coordinates are defined outside the operator. *)
Variables is_vehicle is_person : ObstaclePrediction -> bool.
Variable trajectory_to_world :
  Transform -> ObstacleTrajectory -> ObstacleTrajectory.
Variable prediction_to_world :
  Transform -> ObstaclePrediction -> ObstaclePrediction.
(** [self._flags.prediction_num_future_steps] *)
Variable prediction_num_future_steps : nat.

(** The first classification: one of the two counters goes up. *)
Definition count_obstacle (m : Metrics) (obstacle_prediction : ObstaclePrediction)
  : result Metrics :=
  if is_vehicle obstacle_prediction then
    Ok (mkMetrics (vehicle_cnt m + 1) (vehicle_msd m) (vehicle_ade m)
                  (vehicle_fde m) (person_cnt m) (person_msd m)
                  (person_ade m) (person_fde m))
  else if is_person obstacle_prediction then
    Ok (mkMetrics (vehicle_cnt m) (vehicle_msd m) (vehicle_ade m)
                  (vehicle_fde m) (person_cnt m + 1) (person_msd m)
                  (person_ade m) (person_fde m))
  else Raise ValueError.

(** The second classification: the errors go to the sums of the class. *)
Definition add_errors (m : Metrics) (obstacle_prediction : ObstaclePrediction)
    (l2 l1 fde : Q) : result Metrics :=
  if is_vehicle obstacle_prediction then
    Ok (mkMetrics (vehicle_cnt m) (vehicle_msd m + l2) (vehicle_ade m + l1)
                  (vehicle_fde m + fde) (person_cnt m) (person_msd m)
                  (person_ade m) (person_fde m))%Q
  else if is_person obstacle_prediction then
    Ok (mkMetrics (vehicle_cnt m) (vehicle_msd m) (vehicle_ade m)
                  (vehicle_fde m) (person_cnt m) (person_msd m + l2)
                  (person_ade m + l1) (person_fde m + fde))%Q
  else Raise ValueError.

(** The body of the loop over the predictions of a batch. *)
Definition score_obstacle (ground_trajectories : gmap Z ObstacleTrajectory)
    (m : Metrics) (obstacle_prediction : ObstaclePrediction)
  : result Metrics :=
  let predicted := map to_vector2D (predicted_trajectory obstacle_prediction) in
  match ground_trajectories !! prediction_id obstacle_prediction with
  | None => Raise KeyError
  | Some ground_obstacle =>
      let ground := map to_vector2D (trajectory ground_obstacle) in
      m1 ← count_obstacle m obstacle_prediction;
      '(l2, l1, fde) ← displacement_errors predicted ground;
      add_errors m1 obstacle_prediction l2 l1 fde
  end.

Definition score_predictions (ground_trajectories : gmap Z ObstacleTrajectory)
    (predictions : list ObstaclePrediction) : result Metrics :=
  for_each (score_obstacle ground_trajectories) predictions no_metrics.

(** The rows logged after the loop. *)
Definition class_rows (sim_time : Z) (prefix : string) (cnt : nat)
    (msd ade fde : Q) : list CsvRow :=
  if (0 <? cnt)%nat then
    let n := inject_Z (Z.of_nat cnt) in
    [(sim_time, prefix +:+ "MSD", msd / n);
     (sim_time, prefix +:+ "ADE", ade / n);
     (sim_time, prefix +:+ "FDE", fde / n)]%Q
  else [].

Definition log_metrics (sim_time : Z) (m : Metrics) : list CsvRow :=
  class_rows sim_time "" (person_cnt m + vehicle_cnt m)
             (person_msd m + vehicle_msd m)%Q
             (person_ade m + vehicle_ade m)%Q
             (person_fde m + vehicle_fde m)%Q
  ++ class_rows sim_time "person-" (person_cnt m)
                (person_msd m) (person_ade m) (person_fde m)
  ++ class_rows sim_time "vehicle-" (vehicle_cnt m)
                (vehicle_msd m) (vehicle_ade m) (vehicle_fde m).

(** [_calculate_metrics] *)
Definition _calculate_metrics (timestamp : Timestamp)
    (ground_trajectories : gmap Z ObstacleTrajectory)
    (predictions : list ObstaclePrediction) : result (list CsvRow) :=
  m ← score_predictions ground_trajectories predictions;
  match coordinates timestamp with
  | [] => Raise IndexError
  | sim_time :: _ => Ok (log_metrics sim_time m)
  end.

(** The deques of the operator.  [predictions] is the deque bounded by
    [maxlen = prediction_num_future_steps], oldest batch first. *)
Record State : Type := mkState {
  prediction_msgs : list (list ObstaclePrediction);
  tracking_msgs : list ObstacleTrajectoriesMessageTuple;
  pose_msgs : list Pose;
  predictions : list (list ObstaclePrediction)
}.

(** [__init__] *)
Definition init : State := mkState [] [] [] [].

(** [deque.popleft()] *)
Definition popleft {A : Type} (d : list A) : result (A * list A) :=
  match d with
  | [] => Raise IndexError
  | a :: d' => Ok (a, d')
  end.

(** [deque.append(a)] on a deque bounded by [maxlen]: the element goes to
    the right end and what exceeds [maxlen] is dropped from the left. *)
Definition append_bounded {A : Type} (maxlen : nat) (d : list A) (a : A)
  : list A :=
  drop (length (d ++ [a]) - maxlen) (d ++ [a]).

(** What [on_data] may receive. *)
Inductive Data : Type :=
| PoseData (data : Pose)
| TrackingData (data : ObstacleTrajectoriesMessageTuple)
| PredictionData (data : list ObstaclePrediction)
| OtherData.

(** [on_data] with [_on_pose_update], [_on_tracking_update] and
    [_on_prediction_update]. *)
Definition on_data (st : State) (data : Data) : result State :=
  match data with
  | PoseData d =>
      Ok (mkState (prediction_msgs st) (tracking_msgs st)
                  (pose_msgs st ++ [d]) (predictions st))
  | TrackingData d =>
      Ok (mkState (prediction_msgs st) (tracking_msgs st ++ [d])
                  (pose_msgs st) (predictions st))
  | PredictionData d =>
      Ok (mkState (prediction_msgs st ++ [d]) (tracking_msgs st)
                  (pose_msgs st) (predictions st))
  | OtherData => Raise ValueError
  end.

(** One invocation of [_calculate_metrics]: its arguments. *)
Record ScoreCall : Type := mkScoreCall {
  call_timestamp : Timestamp;
  call_ground : gmap Z ObstacleTrajectory;
  call_predictions : list ObstaclePrediction
}.

(** What a processed (non-top) watermark did: the scoring pass it made, if
    any, with the rows that pass logged, and the batch it appended to
    [predictions]. *)
Record Processed : Type := mkProcessed {
  scored : option ScoreCall;
  csv_rows : list CsvRow;
  appended : list ObstaclePrediction
}.

Definition ground_dict (vehicle_transform : Transform)
    (tracking_msg : ObstacleTrajectoriesMessageTuple)
  : gmap Z ObstacleTrajectory :=
  fold_left (fun dict obstacle_trajectory =>
               let world :=
                 trajectory_to_world vehicle_transform obstacle_trajectory in
               <[trajectory_id world := world]> dict)
            (obstacle_trajectories tracking_msg) ∅.

(** [on_watermark] *)
Definition on_watermark (st : State) (timestamp : Timestamp)
  : result (State * option Processed) :=
  if is_top timestamp then Ok (st, None)
  else
    '(tracking_msg, tracking_msgs') ← popleft (tracking_msgs st);
    '(prediction_msg, prediction_msgs') ← popleft (prediction_msgs st);
    '(pose, pose_msgs') ← popleft (pose_msgs st);
    let vehicle_transform := transform pose in
    '(call, rows) ←
      (if (length (predictions st) =? prediction_num_future_steps)%nat then
         let ground_trajectories_dict :=
           ground_dict vehicle_transform tracking_msg in
         oldest ← index_from_start (predictions st) 0;
         rows ← _calculate_metrics timestamp ground_trajectories_dict oldest;
         Ok (Some (mkScoreCall timestamp ground_trajectories_dict oldest),
             rows)
       else Ok (None, []));
    let world_prediction :=
      map (prediction_to_world vehicle_transform) prediction_msg in
    Ok (mkState prediction_msgs' tracking_msgs' pose_msgs'
                (append_bounded prediction_num_future_steps
                                (predictions st) world_prediction),
        Some (mkProcessed call rows world_prediction)).

Inductive Event : Type :=
| OnData (data : Data)
| OnWatermark (timestamp : Timestamp).

Definition step (st : State) (ev : Event)
  : result (State * option Processed) :=
  match ev with
  | OnData d => st' ← on_data st d; Ok (st', None)
  | OnWatermark t => on_watermark st t
  end.

(** The operator's run over a sequence of callbacks; an exception ends
    it.  The result lists the processed watermarks in order. *)
Fixpoint run (st : State) (evs : list Event)
  : result (State * list Processed) :=
  match evs with
  | [] => Ok (st, [])
  | ev :: evs' =>
      '(st', log) ← step st ev;
      '(st'', logs) ← run st' evs';
      Ok (st'', option_list log ++ logs)
  end.

(** The state [SCORING] of the alignment driver: the buffer holds
    [prediction_num_future_steps] batches. *)
Definition is_scoring (st : State) : bool :=
  (length (predictions st) =? prediction_num_future_steps)%nat.

Definition made_pass (p : Processed) : bool :=
  match scored p with Some _ => true | None => false end.

Definition scoring_passes (log : list Processed) : nat :=
  length (List.filter made_pass log).

(** The watermarks of a sequence of callbacks that are not top. *)
Definition is_nontop_watermark (ev : Event) : bool :=
  match ev with
  | OnWatermark t => negb (is_top t)
  | OnData _ => false
  end.

Definition watermarks_processed (evs : list Event) : nat :=
  length (List.filter is_nontop_watermark evs).

(** The invariant of a run: the buffer holds the last batches appended, a
    watermark scored exactly when the buffer was full, and it scored the
    batch appended [prediction_num_future_steps] watermarks before. *)
Definition scored_oldest (log : list Processed) : Prop :=
  forall k p,
    log !! k = Some p ->
    match scored p with
    | Some call =>
        (prediction_num_future_steps <= k)%nat
        /\ exists q,
             log !! (k - prediction_num_future_steps)%nat = Some q
             /\ call_predictions call = appended q
    | None => (k < prediction_num_future_steps)%nat
    end.

(** An obstacle of a batch that is neither a vehicle nor a person. *)
Definition unknown_class (obstacle_prediction : ObstaclePrediction) : bool :=
  negb (is_vehicle obstacle_prediction)
  && negb (is_person obstacle_prediction).

(** The obstacles the two counters count: [if is_vehicle ... elif
    is_person ...]. *)
Definition counted_as_person (obstacle_prediction : ObstaclePrediction)
  : bool :=
  negb (is_vehicle obstacle_prediction) && is_person obstacle_prediction.

(** What a sequence of callbacks delivered, stream by stream and in
    arrival order, and the timestamps of its watermarks that are not top. *)
Definition pose_data (evs : list Event) : list Pose :=
  flat_map (fun ev => match ev with
                      | OnData (PoseData d) => [d]
                      | _ => []
                      end) evs.

Definition tracking_data (evs : list Event)
  : list ObstacleTrajectoriesMessageTuple :=
  flat_map (fun ev => match ev with
                      | OnData (TrackingData d) => [d]
                      | _ => []
                      end) evs.

Definition prediction_data (evs : list Event)
  : list (list ObstaclePrediction) :=
  flat_map (fun ev => match ev with
                      | OnData (PredictionData d) => [d]
                      | _ => []
                      end) evs.

Definition watermark_timestamps (evs : list Event) : list Timestamp :=
  flat_map (fun ev => match ev with
                      | OnWatermark t => if is_top t then [] else [t]
                      | OnData _ => []
                      end) evs.

(** The [k]-th processed watermark worked on the [k]-th message of every
    stream. *)
Definition aligned (evs : list Event) (k : nat) (p : Processed) : Prop :=
  exists pose prediction_msg tracking_msg timestamp,
    pose_data evs !! k = Some pose
    /\ prediction_data evs !! k = Some prediction_msg
    /\ tracking_data evs !! k = Some tracking_msg
    /\ watermark_timestamps evs !! k = Some timestamp
    /\ appended p
       = map (prediction_to_world (transform pose)) prediction_msg
    /\ forall call,
         scored p = Some call ->
         call_timestamp call = timestamp
         /\ call_ground call = ground_dict (transform pose) tracking_msg.

(** The queues hold the messages not yet taken and every processed
    watermark was aligned. *)
Definition queues_follow (evs : list Event) (st : State)
    (log : list Processed) : Prop :=
  let n := length log in
  (n <= length (pose_data evs))%nat
  /\ pose_msgs st = drop n (pose_data evs)
  /\ (n <= length (prediction_data evs))%nat
  /\ prediction_msgs st = drop n (prediction_data evs)
  /\ (n <= length (tracking_data evs))%nat
  /\ tracking_msgs st = drop n (tracking_data evs)
  /\ length (watermark_timestamps evs) = n
  /\ forall k p, log !! k = Some p -> aligned evs k p.

(** The ground trajectories with identifier [i], in world coordinates and
    in message order. *)
Definition world_trajectories (vehicle_transform : Transform)
    (tracking_msg : ObstacleTrajectoriesMessageTuple) (i : Z)
  : list ObstacleTrajectory :=
  List.filter (fun world => bool_decide (trajectory_id world = i))
              (map (trajectory_to_world vehicle_transform)
                   (obstacle_trajectories tracking_msg)).

(** The value logged under a metric name, if any. *)
Definition row_value (rows : list CsvRow) (name : string) : option Q :=
  match List.find (fun row : CsvRow => String.eqb row.1.2 name) rows with
  | Some row => Some row.2
  | None => None
  end.

(** The overall mean is the mean of the class means weighted by the class
    counts. *)
Definition weighted_mean (rows : list CsvRow) (name : string)
    (persons vehicles : nat) : Prop :=
  exists overall person vehicle,
    row_value rows name = Some overall
    /\ row_value rows ("person-" +:+ name) = Some person
    /\ row_value rows ("vehicle-" +:+ name) = Some vehicle
    /\ (overall * inject_Z (Z.of_nat (persons + vehicles))
        == person * inject_Z (Z.of_nat persons)
           + vehicle * inject_Z (Z.of_nat vehicles))%Q.

(** An obstacle the loop can score: of a known class, with a ground
    trajectory under its identifier that is at least as long as its
    predicted trajectory, which is not empty. *)
Definition scorable (ground_trajectories : gmap Z ObstacleTrajectory)
    (obstacle_prediction : ObstaclePrediction) : Prop :=
  unknown_class obstacle_prediction = false
  /\ exists ground_obstacle,
       ground_trajectories !! prediction_id obstacle_prediction
       = Some ground_obstacle
       /\ (0 < length (predicted_trajectory obstacle_prediction)
           <= length (trajectory ground_obstacle))%nat.

End Operator.

(** A concrete setting for examples: the label decides the class and the
    conversions to world coordinates leave the points where they are. *)
Module Example.

Definition is_vehicle (o : ObstaclePrediction) : bool :=
  bool_decide (label o = "vehicle").
Definition is_person (o : ObstaclePrediction) : bool :=
  bool_decide (label o = "person").
Definition trajectory_to_world (t : Transform) (o : ObstacleTrajectory)
  : ObstacleTrajectory := o.
Definition prediction_to_world (t : Transform) (o : ObstaclePrediction)
  : ObstaclePrediction := o.

Definition point (a b : Z) : Transform :=
  mkTransform (mkLocation (inject_Z a) (inject_Z b) 0).
Definition vector (a b : Z) : Vector2D :=
  mkVector2D (inject_Z a) (inject_Z b).

Definition origin : Pose := mkPose (point 0 0).
Definition car : ObstaclePrediction :=
  mkObstaclePrediction 1 "vehicle" [point 1 1; point 2 2].
Definition tree : ObstaclePrediction :=
  mkObstaclePrediction 2 "tree" [point 1 1].
Definition car_track : ObstacleTrajectory :=
  mkObstacleTrajectory 1 [point 0 0; point 1 1; point 2 2].
Definition tree_track : ObstacleTrajectory :=
  mkObstacleTrajectory 2 [point 1 1].
Definition tracks : gmap Z ObstacleTrajectory :=
  <[2%Z := tree_track]> (<[1%Z := car_track]> ∅).

Definition run (horizon : nat) :=
  PredictionEval.run is_vehicle is_person trajectory_to_world
                     prediction_to_world horizon.

(** One round of input: a tracking message, a prediction batch, a pose and
    the watermark that closes timestamp [t]. *)
Definition round (t : Z) : list Event :=
  [OnData (TrackingData (mkTrackingMsg [car_track]));
   OnData (PredictionData [car]);
   OnData (PoseData origin);
   OnWatermark (timestamp_of t)].

End Example.

(** *** The metrics in the words of the specification *)

Definition Qsum (l : list Q) : Q := fold_right Qplus 0%Q l.

Definition squared_euclidean (p g : Vector2D) : Q :=
  ((vx p - vx g) ^ 2 + (vy p - vy g) ^ 2)%Q.

Definition manhattan (p g : Vector2D) : Q :=
  (Qabs (vx p - vx g) + Qabs (vy p - vy g))%Q.

(** The average of [d] over the aligned pairs of two trajectories. *)
Definition average_over_pairs (d : Vector2D -> Vector2D -> Q)
    (predicted ground : list Vector2D) : Q :=
  (Qsum (zip_with d predicted ground)
   / inject_Z (Z.of_nat (length predicted)))%Q.

(** [d] at the most recent pair. *)
Definition at_final_pair (d : Vector2D -> Vector2D -> Q)
    (predicted ground : list Vector2D) : Q :=
  match last predicted, last ground with
  | Some p, Some g => d p g
  | _, _ => 0%Q
  end.

(** The predicted trajectory is the ground trajectory shifted by
    [(dx, dy)] at every point. *)
Definition offset_by (dx dy : Q) (p g : Vector2D) : Prop :=
  (vx p == vx g + dx)%Q /\ (vy p == vy g + dy)%Q.

(** The body of the loop of [sum_distances] once both points are read. *)
Definition add_pair (acc : Q * Q) (pg : Vector2D * Vector2D) : Q * Q :=
  ((acc.1 + l2_distance pg.1 pg.2)%Q, (acc.2 + l1_distance pg.1 pg.2)%Q).

(** The most recent [n] points of a trajectory. *)
Definition most_recent {A : Type} (n : nat) (l : list A) : list A :=
  drop (length l - n) l.

End PredictionEval.

(** ** The detection runner: the camera callbacks

    The five callbacks that [main] of src/detection_operator_runner.py
    registers on the simulator's cameras.  Each one stamps the image with
    its game time and, under a test of a camera type, sends it on an ingest
    stream. *)

Module CameraRunner.

Inductive IngestStream : Type :=
| rgb_camera
| depth_camera
| seg_camera
| left_camera
| right_camera
| ttd.

Section Callbacks.

(** The simulator's image, the sensor setups and the three frame classes
    are defined outside the runner. *)
Context {SimulatorImage Setup CameraFrame DepthFrame SegmentedFrame : Type}.
(** [int(simulator_image.timestamp * 1000)] *)
Variable game_time_of : SimulatorImage -> Z.
(** The attribute [camera_type] of a setup. *)
Variable camera_type : Setup -> string.
Variables rgb_camera_setup depth_camera_setup seg_camera_setup
          left_camera_setup right_camera_setup : Setup.
(** [CameraFrame.from_simulator_frame], [DepthFrame.from_simulator_frame]
    and [SegmentedFrame.from_simulator_image] *)
Variable camera_frame : SimulatorImage -> Setup -> CameraFrame.
Variable depth_frame : SimulatorImage -> Setup -> bool -> DepthFrame.
Variable segmented_frame : SimulatorImage -> Setup -> SegmentedFrame.
(** [FLAGS.visualize_depth_camera] *)
Variable visualize_depth_camera : bool.

Inductive Frame : Type :=
| Camera (frame : CameraFrame)
| Depth (frame : DepthFrame)
| Segmented (frame : SegmentedFrame).

Inductive Msg : Type :=
| Message (timestamp : Timestamp) (data : Frame)
| WatermarkMessage (timestamp : Timestamp).

Definition Sent : Type := list (IngestStream * Msg).

(** [process_rgb_images] *)
Definition process_rgb_images (simulator_image : SimulatorImage) : Sent :=
  let game_time := game_time_of simulator_image in
  let timestamp := timestamp_of game_time in
  if String.eqb (camera_type rgb_camera_setup) "sensor.camera.rgb" then
    let msg := Message timestamp
                 (Camera (camera_frame simulator_image rgb_camera_setup)) in
    [(rgb_camera, msg)]
  else [].

(** [process_depth_images] *)
Definition process_depth_images (simulator_image : SimulatorImage) : Sent :=
  let game_time := game_time_of simulator_image in
  let timestamp := timestamp_of game_time in
  if String.eqb (camera_type depth_camera_setup) "sensor.camera.depth" then
    let msg := Message timestamp
                 (Depth (depth_frame simulator_image depth_camera_setup
                                     visualize_depth_camera)) in
    [(depth_camera, msg)]
  else [].

(** [process_seg_images]: the test reads the type of the depth setup. *)
Definition process_seg_images (simulator_image : SimulatorImage) : Sent :=
  let game_time := game_time_of simulator_image in
  let timestamp := timestamp_of game_time in
  if String.eqb (camera_type depth_camera_setup)
                "sensor.camera.semantic_segmentation" then
    let msg := Message timestamp
                 (Segmented (segmented_frame simulator_image
                                             seg_camera_setup)) in
    [(seg_camera, msg)]
  else [].

(** [process_left_images]: the test reads the type of the rgb setup. *)
Definition process_left_images (simulator_image : SimulatorImage) : Sent :=
  let game_time := game_time_of simulator_image in
  let timestamp := timestamp_of game_time in
  let watermark_msg := WatermarkMessage timestamp in
  if String.eqb (camera_type rgb_camera_setup) "sensor.camera.rgb" then
    let msg := Message timestamp
                 (Camera (camera_frame simulator_image left_camera_setup)) in
    [(left_camera, msg); (left_camera, watermark_msg)]
  else [].

(** [process_right_images] *)
Definition process_right_images (simulator_image : SimulatorImage) : Sent :=
  let game_time := game_time_of simulator_image in
  let timestamp := timestamp_of game_time in
  let watermark_msg := WatermarkMessage timestamp in
  if String.eqb (camera_type rgb_camera_setup) "sensor.camera.rgb" then
    let msg := Message timestamp
                 (Camera (camera_frame simulator_image right_camera_setup)) in
    [(right_camera, msg); (right_camera, watermark_msg)]
  else [].

(** The images the five cameras deliver, in any order. *)
Inductive CameraEvent : Type :=
| RgbImage (simulator_image : SimulatorImage)
| DepthImage (simulator_image : SimulatorImage)
| SegImage (simulator_image : SimulatorImage)
| LeftImage (simulator_image : SimulatorImage)
| RightImage (simulator_image : SimulatorImage).

Definition callback (ev : CameraEvent) : Sent :=
  match ev with
  | RgbImage img => process_rgb_images img
  | DepthImage img => process_depth_images img
  | SegImage img => process_seg_images img
  | LeftImage img => process_left_images img
  | RightImage img => process_right_images img
  end.

Definition run (evs : list CameraEvent) : Sent := flat_map callback evs.

(** What was sent on one stream, in order. *)
Definition stream_eqb (s s' : IngestStream) : bool :=
  match s, s' with
  | rgb_camera, rgb_camera | depth_camera, depth_camera
  | seg_camera, seg_camera | left_camera, left_camera
  | right_camera, right_camera | ttd, ttd => true
  | _, _ => false
  end.

Definition sent_on (s : IngestStream) (sent : Sent) : list Msg :=
  map snd (List.filter (fun sm : IngestStream * Msg => stream_eqb sm.1 s)
                       sent).

Definition is_watermark (m : Msg) : bool :=
  match m with WatermarkMessage _ => true | Message _ _ => false end.

(** Every frame is followed at once by the watermark of its timestamp and
    there is no other watermark. *)
Definition frames_closed (msgs : list Msg) : Prop :=
  exists frames : list (Timestamp * Frame),
    msgs = flat_map (fun tf : Timestamp * Frame =>
                       [Message tf.1 tf.2; WatermarkMessage tf.1])
                    frames.

End Callbacks.

(** A concrete rig for examples: a setup is its camera type, an image its
    game time, and a frame records the image and the setup it was made
    with. *)
Module Example.

Definition game_time_of (img : Z) : Z := img.
Definition camera_type (setup : string) : string := setup.
Definition camera_frame (img : Z) (setup : string) : Z * string :=
  (img, setup).
Definition depth_frame (img : Z) (setup : string) (save : bool)
  : Z * string := (img, setup).
Definition segmented_frame (img : Z) (setup : string) : Z * string :=
  (img, setup).

Definition run :=
  CameraRunner.run game_time_of camera_type
    "sensor.camera.rgb" "sensor.camera.depth"
    "sensor.camera.semantic_segmentation"
    "sensor.camera.rgb" "sensor.camera.rgb"
    camera_frame depth_frame segmented_frame false.

End Example.

End CameraRunner.

(** * Properties *)

Lemma bind_ok_inv {A B : Type} (r : result A) (k : A -> result B) (b : B) :
  r ≫= k = Ok b -> exists a, r = Ok a /\ k a = Ok b.
Proof. destruct r as [a|e]; simpl; [eauto | discriminate]. Qed.

(** ** The lidar driver *)

Section LidarDriverFacts.

Import LidarDriver.

Context {SimulatorPC PointCloud Pickled : Type}.
Variable game_time_of : SimulatorPC -> Z.
Variable raw_data_len : SimulatorPC -> nat.
Variable from_simulator_point_cloud : SimulatorPC -> PointCloud.
Variable pickle_dumps : PointCloud -> Pickled.

Local Abbreviation process_point_clouds :=
  (process_point_clouds game_time_of raw_data_len
                        from_simulator_point_cloud pickle_dumps).
Local Abbreviation run :=
  (run game_time_of raw_data_len from_simulator_point_cloud pickle_dumps).
Local Abbreviation forwarded_immediately :=
  (forwarded_immediately game_time_of raw_data_len
                         from_simulator_point_cloud (Pickled := Pickled)).
Local Abbreviation leaves_alone :=
  (leaves_alone (SimulatorPC := SimulatorPC) game_time_of).
Local Abbreviation key_of pc := (timestamp_of (game_time_of pc)).
Local Abbreviation snapshot_of pc :=
  (pickle_dumps (from_simulator_point_cloud pc)).

(** A gated offer of a non-empty point cloud: what it returns. *)
Lemma gated_offer (st : State) (pc : SimulatorPC) :
  release_data st = false ->
  (0 < raw_data_len pc)%nat ->
  process_point_clouds st pc =
    Ok (mkState (<[key_of pc := snapshot_of pc]> (pickled_messages st)) false,
        [(RightStream, WatermarkMessage (key_of pc))]).
Proof.
  intros Hgated Hlen. unfold LidarDriver.process_point_clouds.
  destruct (Nat.ltb_spec 0 (raw_data_len pc)) as [_|]; [|lia].
  by rewrite Hgated.
Qed.

(** A release of a key that holds a snapshot, and of one that holds none. *)
Lemma release_present (st : State (Pickled := Pickled)) (t : Timestamp)
    (bytes : Pickled) :
  is_top t = false ->
  pickled_messages st !! t = Some bytes ->
  on_watermark (PointCloud := PointCloud) st t =
    Ok (mkState (delete t (pickled_messages st)) (release_data st),
        [(LeftStream, PickledMessage t bytes);
         (LeftStream, WatermarkMessage t)]).
Proof.
  intros Htop Hin. unfold on_watermark. by rewrite Htop, Hin.
Qed.

Lemma release_absent (st : State (Pickled := Pickled)) (t : Timestamp) :
  is_top t = false ->
  pickled_messages st !! t = None ->
  on_watermark (PointCloud := PointCloud) st t = Raise KeyError.
Proof.
  intros Htop Hout. unfold on_watermark. by rewrite Htop, Hout.
Qed.

(** In immediate mode no callback leaves immediate mode, stores a
    snapshot, or holds a point cloud back. *)
Lemma step_immediate (st : State) (ev : Event) :
  release_data st = true ->
  match step game_time_of raw_data_len from_simulator_point_cloud
             pickle_dumps st ev with
  | Ok (st', sent) =>
      release_data st' = true
      /\ pickled_messages st' ⊆ pickled_messages st
      /\ forwarded_immediately ev (Ok sent)
  | Raise e => forwarded_immediately ev (Raise e)
  end.
Proof.
  intros Himm. destruct ev as [pc|t]; simpl.
  - unfold LidarDriver.process_point_clouds, immediate_reply.
    destruct (0 <? raw_data_len pc)%nat; [|done].
    rewrite Himm. by split_and!.
  - unfold on_watermark. destruct (is_top t); [by split_and!|].
    destruct (pickled_messages st !! t) as [bytes|]; [|done].
    simpl. split_and!; [done| |done]. apply delete_subseteq.
Qed.

Lemma run_immediate (evs : list Event) (st : State) :
  release_data st = true ->
  release_data (run st evs).1 = true
  /\ pickled_messages (run st evs).1 ⊆ pickled_messages st
  /\ Forall2 forwarded_immediately evs (run st evs).2.
Proof.
  revert st. induction evs as [|ev evs IH]; intros st Himm; simpl.
  - by split_and!; [..|constructor].
  - pose proof (step_immediate st ev Himm) as Hstep.
    destruct (step _ _ _ _ st ev) as [[st' sent]|e].
    + destruct Hstep as (Himm' & Hsub & Hfwd).
      destruct (IH st' Himm') as (IH1 & IH2 & IH3).
      destruct (LidarDriver.run _ _ _ _ st' evs) as [st'' outs]; simpl in *.
      split_and!; [done|by etrans|by constructor].
    + destruct (IH st Himm) as (IH1 & IH2 & IH3).
      destruct (LidarDriver.run _ _ _ _ st evs) as [st'' outs]; simpl in *.
      split_and!; [done|done|by constructor].
Qed.

(** C3, as amended.  A gated push of a non-empty point cloud succeeds
    whether or not its key already holds an unreleased snapshot: the new
    snapshot is stored under the key in place of whatever was there, the
    other keys keep their snapshots, and only a watermark goes out, on the
    right stream.  The operator has no duplicate-key check. *)
Theorem gated_push_replaces_snapshot (st : State) (pc : SimulatorPC) :
  release_data st = false ->
  (0 < raw_data_len pc)%nat ->
  exists st',
    process_point_clouds st pc =
      Ok (st', [(RightStream, WatermarkMessage (key_of pc))])
    /\ pickled_messages st' !! key_of pc = Some (snapshot_of pc)
    /\ (forall t, t <> key_of pc ->
          pickled_messages st' !! t = pickled_messages st !! t)
    /\ release_data st' = false.
Proof.
  intros Hgated Hlen. eexists. split; [by apply gated_offer|]. simpl.
  split_and!; [by rewrite lookup_insert_eq| |done].
  intros t Hne. by rewrite lookup_insert_ne.
Qed.

(** Callbacks that leave a timestamp alone leave its snapshot where it is
    and send nothing under it. *)
Lemma step_leaves_alone (st : State) (ev : Event) (k : Timestamp) :
  leaves_alone k ev ->
  match step game_time_of raw_data_len from_simulator_point_cloud
             pickle_dumps st ev with
  | Ok (st', sent) =>
      pickled_messages st' !! k = pickled_messages st !! k
      /\ Forall (fun sm : Stream * Msg => msg_timestamp sm.2 <> k) sent
  | Raise _ => True
  end.
Proof.
  intros Halone. destruct ev as [pc|t]; simpl in *.
  - unfold LidarDriver.process_point_clouds.
    destruct (0 <? raw_data_len pc)%nat; [|done].
    destruct (release_data st); simpl.
    + split; [done|]. by repeat constructor.
    + split; [by rewrite lookup_insert_ne|]. by repeat constructor.
  - unfold on_watermark. destruct (is_top t); simpl.
    + split; [done|constructor].
    + destruct (pickled_messages st !! t) as [bytes|]; [|done]. simpl.
      split; [by rewrite lookup_delete_ne|]. by repeat constructor.
Qed.

Lemma run_leaves_alone (evs : list Event) (k : Timestamp) :
  forall st : State,
    Forall (leaves_alone k) evs ->
    pickled_messages (run st evs).1 !! k = pickled_messages st !! k
    /\ silent_about k (run st evs).2.
Proof.
  induction evs as [|ev evs IH]; intros st Halone.
  - split; [done|constructor].
  - apply Forall_cons in Halone as [Hev Halone]. cbn [LidarDriver.run].
    pose proof (step_leaves_alone st ev k Hev) as Hstep.
    destruct (step _ _ _ _ st ev) as [[st' sent]|e].
    + destruct Hstep as [Hsame Hsilent].
      destruct (IH st' Halone) as [IH1 IH2].
      destruct (LidarDriver.run _ _ _ _ st' evs) as [st'' outs]; simpl in *.
      split; [congruence|]. by constructor.
    + destruct (IH st Halone) as [IH1 IH2].
      destruct (LidarDriver.run _ _ _ _ st evs) as [st'' outs]; simpl in *.
      split; [done|]. by constructor.
Qed.

(** C5.  A gated offer stores the snapshot under its key and touches no
    other key.  Whatever callbacks follow that leave the key alone (offers
    and releases of other keys, top watermarks), nothing is sent under the
    key, and the first release of the key then sends the stored snapshot
    and a watermark on the left stream, one payload in all, removes that
    snapshot and no other, and keeps the mode.  After that, as long as the
    key is not offered again, nothing more is sent under it and a second
    release of it raises [KeyError]. *)
Theorem offer_then_release_once (st : State) (pc : SimulatorPC)
    (between after : list Event) :
  release_data st = false ->
  (0 < raw_data_len pc)%nat ->
  Forall (leaves_alone (key_of pc)) between ->
  Forall (leaves_alone (key_of pc)) after ->
  exists st1 st2 (sent : Sent (PointCloud := PointCloud)),
    process_point_clouds st pc =
      Ok (st1, [(RightStream, WatermarkMessage (key_of pc))])
    /\ (forall t, t <> key_of pc ->
          pickled_messages st1 !! t = pickled_messages st !! t)
    /\ silent_about (key_of pc) (run st1 between).2
    /\ on_watermark (run st1 between).1 (key_of pc) = Ok (st2, sent)
    /\ sent = [(LeftStream, PickledMessage (key_of pc) (snapshot_of pc));
               (LeftStream, WatermarkMessage (key_of pc))]
    /\ payload_count sent = 1%nat
    /\ pickled_messages st2 !! key_of pc = None
    /\ (forall t, t <> key_of pc ->
          pickled_messages st2 !! t
          = pickled_messages (run st1 between).1 !! t)
    /\ release_data st2 = release_data (run st1 between).1
    /\ silent_about (key_of pc) (run st2 after).2
    /\ on_watermark (PointCloud := PointCloud) (run st2 after).1 (key_of pc)
       = Raise KeyError.
Proof.
  intros Hgated Hlen Hbetween Hafter.
  set (st1 := mkState (<[key_of pc := snapshot_of pc]> (pickled_messages st))
                      false).
  destruct (run_leaves_alone between (key_of pc) st1 Hbetween)
    as [Hkept Hsilent1].
  assert (Hstored : pickled_messages (run st1 between).1 !! key_of pc
                    = Some (snapshot_of pc)).
  { rewrite Hkept. subst st1. simpl. by rewrite lookup_insert_eq. }
  set (st2 := mkState (delete (key_of pc)
                              (pickled_messages (run st1 between).1))
                      (release_data (run st1 between).1)).
  destruct (run_leaves_alone after (key_of pc) st2 Hafter)
    as [Hgone Hsilent2].
  exists st1, st2. eexists.
  split; [by apply gated_offer|].
  split; [intros t Hne; subst st1; simpl; by rewrite lookup_insert_ne|].
  split; [exact Hsilent1|].
  split; [by apply release_present|].
  split; [done|]. split; [done|].
  split; [subst st2; simpl; by rewrite lookup_delete_eq|].
  split; [intros t Hne; subst st2; simpl; by rewrite lookup_delete_ne|].
  split; [done|]. split; [exact Hsilent2|].
  apply release_absent; [done|]. rewrite Hgone. subst st2. simpl.
  by rewrite lookup_delete_eq.
Qed.

(** C8.  A release with a top timestamp puts the gate in immediate mode;
    from then on, whatever callbacks follow, the gate is in immediate
    mode, every point cloud offered is answered by its payload and a
    watermark on the left stream (or by the assertion on empty clouds),
    and no snapshot is added to the cache. *)
Theorem immediate_mode_is_permanent (st : State) (top : Timestamp)
    (evs : list Event) :
  is_top top = true ->
  exists st1,
    on_watermark (PointCloud := PointCloud) st top = Ok (st1, [])
    /\ release_data st1 = true
    /\ release_data (run st1 evs).1 = true
    /\ pickled_messages (run st1 evs).1 ⊆ pickled_messages st1
    /\ Forall2 forwarded_immediately evs (run st1 evs).2.
Proof.
  intros Htop. eexists. unfold on_watermark at 1. rewrite Htop.
  split; [done|]. split; [done|]. by apply run_immediate.
Qed.

End LidarDriverFacts.

(** C3, the claim as stated fails: pushing twice under key 7 while gated
    raises nothing, and the cache then holds the second snapshot where it
    held the first. *)
Lemma gated_push_duplicate_key_overwrites :
  let pc1 : LidarDriver.Example.SimulatorPC := (7%Z, [1%Z]) in
  let pc2 : LidarDriver.Example.SimulatorPC := (7%Z, [2%Z]) in
  exists st1 st2 sent,
    LidarDriver.Example.process_point_clouds LidarDriver.Example.init pc1
      = Ok (st1, [(LidarDriver.RightStream,
                   LidarDriver.WatermarkMessage (timestamp_of 7))])
    /\ LidarDriver.release_data st1 = false
    /\ LidarDriver.pickled_messages st1 !! timestamp_of 7
       = Some [128%Z; 1%Z]
    /\ LidarDriver.Example.process_point_clouds st1 pc2 = Ok (st2, sent)
    /\ LidarDriver.pickled_messages st2 !! timestamp_of 7
       = Some [128%Z; 2%Z].
Proof.
  do 3 eexists. split_and!; [reflexivity|reflexivity| |reflexivity|].
  - simpl. by rewrite lookup_insert_eq.
  - simpl. by rewrite lookup_insert_eq.
Qed.

Lemma gated_push_replaces_snapshot_witness :
  exists st',
    LidarDriver.Example.process_point_clouds LidarDriver.Example.init
        (7%Z, [1%Z])
      = Ok (st', [(LidarDriver.RightStream,
                   LidarDriver.WatermarkMessage (timestamp_of 7))])
    /\ LidarDriver.pickled_messages st' !! timestamp_of 7 = Some [128%Z; 1%Z]
    /\ (forall t, t <> timestamp_of 7 ->
          LidarDriver.pickled_messages st' !! t
          = LidarDriver.pickled_messages LidarDriver.Example.init !! t)
    /\ LidarDriver.release_data st' = false.
Proof.
  apply (gated_push_replaces_snapshot
           LidarDriver.Example.game_time_of LidarDriver.Example.raw_data_len
           LidarDriver.Example.from_simulator_point_cloud
           LidarDriver.Example.pickle_dumps
           LidarDriver.Example.init (7%Z, [1%Z])).
  - reflexivity.
  - unfold LidarDriver.Example.raw_data_len. simpl. lia.
Defined.

Lemma offer_then_release_once_witness :
  let key := timestamp_of 7 in
  let st := LidarDriver.mkState
              ({[timestamp_of 3 := [128%Z; 9%Z]]} : gmap Timestamp (list Z))
              false in
  let pc : LidarDriver.Example.SimulatorPC := (7%Z, [1%Z]) in
  let between := [LidarDriver.PointCloudCallback (8%Z, [5%Z]);
                  LidarDriver.Example.Watermark (timestamp_of 8)] in
  let after := [LidarDriver.Example.Watermark (timestamp_of 3);
                LidarDriver.PointCloudCallback (9%Z, [6%Z])] in
  LidarDriver.release_data st = false
  /\ (0 < LidarDriver.Example.raw_data_len pc)%nat
  /\ Forall (LidarDriver.leaves_alone LidarDriver.Example.game_time_of key)
            between
  /\ Forall (LidarDriver.leaves_alone LidarDriver.Example.game_time_of key)
            after
  /\ exists st1 st2 sent,
       LidarDriver.Example.process_point_clouds st pc
         = Ok (st1, [(LidarDriver.RightStream,
                      LidarDriver.WatermarkMessage key)])
       /\ (forall t, t <> key ->
             LidarDriver.pickled_messages st1 !! t
             = LidarDriver.pickled_messages st !! t)
       /\ LidarDriver.silent_about key
            (LidarDriver.Example.run st1 between).2
       /\ LidarDriver.Example.on_watermark
            (LidarDriver.Example.run st1 between).1 key = Ok (st2, sent)
       /\ sent = [(LidarDriver.LeftStream,
                   LidarDriver.PickledMessage key [128%Z; 1%Z]);
                  (LidarDriver.LeftStream, LidarDriver.WatermarkMessage key)]
       /\ LidarDriver.payload_count sent = 1%nat
       /\ LidarDriver.pickled_messages st2 !! key = None
       /\ (forall t, t <> key ->
             LidarDriver.pickled_messages st2 !! t
             = LidarDriver.pickled_messages
                 (LidarDriver.Example.run st1 between).1 !! t)
       /\ LidarDriver.release_data st2
          = LidarDriver.release_data (LidarDriver.Example.run st1 between).1
       /\ LidarDriver.silent_about key (LidarDriver.Example.run st2 after).2
       /\ LidarDriver.Example.on_watermark
            (LidarDriver.Example.run st2 after).1 key = Raise KeyError.
Proof.
  set (st := LidarDriver.mkState
               ({[timestamp_of 3 := [128%Z; 9%Z]]}
                : gmap Timestamp (list Z)) false).
  assert (H1 : LidarDriver.release_data st = false) by reflexivity.
  assert (H2 : (0 < LidarDriver.Example.raw_data_len (7%Z, [1%Z]))%nat)
    by (unfold LidarDriver.Example.raw_data_len; simpl; lia).
  assert (H3 : Forall (LidarDriver.leaves_alone
                         LidarDriver.Example.game_time_of (timestamp_of 7))
                      [LidarDriver.PointCloudCallback (8%Z, [5%Z]);
                       LidarDriver.Example.Watermark (timestamp_of 8)])
    by (repeat constructor; discriminate).
  assert (H4 : Forall (LidarDriver.leaves_alone
                         LidarDriver.Example.game_time_of (timestamp_of 7))
                      [LidarDriver.Example.Watermark (timestamp_of 3);
                       LidarDriver.PointCloudCallback (9%Z, [6%Z])])
    by (repeat constructor; discriminate).
  split; [exact H1|]. split; [exact H2|]. split; [exact H3|].
  split; [exact H4|].
  exact (offer_then_release_once
           LidarDriver.Example.game_time_of LidarDriver.Example.raw_data_len
           LidarDriver.Example.from_simulator_point_cloud
           LidarDriver.Example.pickle_dumps
           st (7%Z, [1%Z]) _ _ H1 H2 H3 H4).
Defined.

(** The run of the example above: key 8 is offered and released while key 7
    waits, then key 7 is released, then key 3, stored before, and a second
    release of key 7 fails. *)
Example releases_of_three_keys :
  let st := LidarDriver.mkState
              ({[timestamp_of 3 := [128%Z; 9%Z]]} : gmap Timestamp (list Z))
              false in
  (LidarDriver.Example.run st
     [LidarDriver.PointCloudCallback (7%Z, [1%Z]);
      LidarDriver.PointCloudCallback (8%Z, [5%Z]);
      LidarDriver.Example.Watermark (timestamp_of 8);
      LidarDriver.Example.Watermark (timestamp_of 7);
      LidarDriver.Example.Watermark (timestamp_of 3);
      LidarDriver.Example.Watermark (timestamp_of 7)]).2
  = [Ok [(LidarDriver.RightStream,
          LidarDriver.WatermarkMessage (timestamp_of 7))];
     Ok [(LidarDriver.RightStream,
          LidarDriver.WatermarkMessage (timestamp_of 8))];
     Ok [(LidarDriver.LeftStream,
          LidarDriver.PickledMessage (timestamp_of 8) [128%Z; 5%Z]);
         (LidarDriver.LeftStream,
          LidarDriver.WatermarkMessage (timestamp_of 8))];
     Ok [(LidarDriver.LeftStream,
          LidarDriver.PickledMessage (timestamp_of 7) [128%Z; 1%Z]);
         (LidarDriver.LeftStream,
          LidarDriver.WatermarkMessage (timestamp_of 7))];
     Ok [(LidarDriver.LeftStream,
          LidarDriver.PickledMessage (timestamp_of 3) [128%Z; 9%Z]);
         (LidarDriver.LeftStream,
          LidarDriver.WatermarkMessage (timestamp_of 3))];
     Raise KeyError].
Proof. vm_compute. reflexivity. Qed.

Lemma immediate_mode_is_permanent_witness :
  let top := mkTimestamp [] true in
  let evs := [LidarDriver.PointCloudCallback (7%Z, [1%Z]);
              LidarDriver.Example.Watermark (timestamp_of 7);
              LidarDriver.PointCloudCallback (8%Z, [])] in
  is_top top = true
  /\ exists st1,
       LidarDriver.Example.on_watermark LidarDriver.Example.init top
         = Ok (st1, [])
       /\ LidarDriver.release_data st1 = true
       /\ LidarDriver.release_data (LidarDriver.Example.run st1 evs).1 = true
       /\ LidarDriver.pickled_messages (LidarDriver.Example.run st1 evs).1
          ⊆ LidarDriver.pickled_messages st1
       /\ Forall2 (LidarDriver.forwarded_immediately
                     LidarDriver.Example.game_time_of
                     LidarDriver.Example.raw_data_len
                     LidarDriver.Example.from_simulator_point_cloud)
                  evs (LidarDriver.Example.run st1 evs).2.
Proof.
  split; [reflexivity|].
  apply (immediate_mode_is_permanent
           LidarDriver.Example.game_time_of LidarDriver.Example.raw_data_len
           LidarDriver.Example.from_simulator_point_cloud
           LidarDriver.Example.pickle_dumps).
  reflexivity.
Defined.

(** ** The detection-decay evaluator *)

Section DetectionDecayFacts.

Import DetectionDecay.

Context {Obstacle BoundingBox : Type}.
Variable is_person : Obstacle -> bool.
Variable bounding_box : Obstacle -> BoundingBox.
Variable get_precision_recall_at_iou :
  list BoundingBox -> list BoundingBox -> Q -> Q * Q.
Variable decay_max_latency : Z.

Local Abbreviation select_person_bboxes :=
  (select_person_bboxes is_person bounding_box).
Local Abbreviation remove_old := (remove_old (BoundingBox := BoundingBox)
                                             decay_max_latency).
Local Abbreviation on_data :=
  (on_data is_person bounding_box get_precision_recall_at_iou
           decay_max_latency).
Local Abbreviation run :=
  (run is_person bounding_box get_precision_recall_at_iou decay_max_latency).
Local Abbreviation compare_entry :=
  (compare_entry get_precision_recall_at_iou).
Local Abbreviation evicted_window :=
  (evicted_window (BoundingBox := BoundingBox) decay_max_latency).
Local Abbreviation observations := (observations get_precision_recall_at_iou).
Local Abbreviation within_bound :=
  (within_bound (BoundingBox := BoundingBox) decay_max_latency).
Local Abbreviation latency_in_bound := (latency_in_bound decay_max_latency).
Local Abbreviation persons_only :=
  (persons_only (Obstacle := Obstacle) is_person).

(** *** The selection of the person boxes *)

Lemma select_person_bboxes_from (obstacles : list Obstacle)
    (acc : list BoundingBox) :
  fold_left (fun bboxes obstacle =>
               if is_person obstacle
               then bboxes ++ [bounding_box obstacle]
               else bboxes) obstacles acc
  = acc ++ map bounding_box (List.filter is_person obstacles).
Proof.
  revert acc. induction obstacles as [|o obstacles IH]; intros acc; simpl.
  - by rewrite app_nil_r.
  - rewrite IH. destruct (is_person o); simpl; [|done].
    by rewrite <- app_assoc.
Qed.

Lemma select_person_bboxes_filter (obstacles : list Obstacle) :
  select_person_bboxes obstacles
  = map bounding_box (List.filter is_person obstacles).
Proof. apply (select_person_bboxes_from obstacles []). Qed.

Lemma filter_is_person_idemp (obstacles : list Obstacle) :
  List.filter is_person (List.filter is_person obstacles)
  = List.filter is_person obstacles.
Proof.
  induction obstacles as [|o obstacles IH]; simpl; [done|].
  destruct (is_person o) eqn:Ho; simpl; [|done]. by rewrite Ho, IH.
Qed.

(** *** The eviction loop *)

Lemma remove_old_evicted (key : Z) (window : list Entry) :
  remove_old key window = evicted_window key window.
Proof.
  unfold DetectionDecay.evicted_window.
  induction window as [|[t b] window IH]; simpl; [done|].
  unfold within_latency at 1; simpl.
  destruct (Z.gtb_spec (key - t) decay_max_latency),
           (Z.leb_spec (key - t) decay_max_latency); try lia; done.
Qed.

Lemma remove_old_suffix (key : Z) (window : list Entry) :
  remove_old key window `suffix_of` window.
Proof.
  induction window as [|[t b] window IH]; simpl; [done|].
  destruct (key - t >? decay_max_latency)%Z; [|done].
  by apply suffix_cons_r.
Qed.

Lemma remove_old_within_bound (key : Z) (window : list Entry) :
  StronglySorted Z.le (keys window) ->
  within_bound key (remove_old key window).
Proof.
  unfold DetectionDecay.within_bound.
  induction window as [|[t b] window IH]; simpl; intros Hsorted; [done|].
  apply StronglySorted_cons in Hsorted as [Hle Hsorted].
  destruct (Z.gtb_spec (key - t) decay_max_latency) as [|Hok]; [by apply IH|].
  constructor; [done|].
  unfold keys in Hle. rewrite Forall_map in Hle.
  eapply Forall_impl; [exact Hle|]. simpl. intros [t' b'] Ht'. simpl in *. lia.
Qed.

(** *** The comparison loop *)

Lemma precisions_at_map (bboxes old_bboxes : list BoundingBox) :
  precisions_at get_precision_recall_at_iou bboxes old_bboxes
  = map (fun iou => (get_precision_recall_at_iou bboxes old_bboxes iou).1)
        iou_thresholds.
Proof.
  unfold precisions_at. generalize iou_thresholds as l.
  assert (Hgen : forall l acc,
    fold_left (fun precisions iou =>
                 let '(precision, _) :=
                   get_precision_recall_at_iou bboxes old_bboxes iou in
                 precisions ++ [precision]) l acc
    = acc ++ map (fun iou =>
                    (get_precision_recall_at_iou bboxes old_bboxes iou).1) l).
  { induction l as [|iou l IH]; intros acc; simpl.
    - by rewrite app_nil_r.
    - rewrite IH.
      destruct (get_precision_recall_at_iou bboxes old_bboxes iou); simpl.
      by rewrite <- app_assoc. }
  intros l. apply (Hgen l []).
Qed.

Lemma py_sum_from (l : list Q) (a : Q) :
  (fold_left Qplus l a == a + fold_right Qplus 0 l)%Q.
Proof.
  revert a. induction l as [|q l IH]; intros a; simpl.
  - ring.
  - rewrite IH. ring.
Qed.

Lemma avg_precision_averaged (bboxes old_bboxes : list BoundingBox) :
  (avg_precision get_precision_recall_at_iou bboxes old_bboxes
   == averaged_metric get_precision_recall_at_iou bboxes old_bboxes)%Q.
Proof.
  unfold avg_precision, averaged_metric, py_sum.
  rewrite precisions_at_map, py_sum_from, length_map.
  change (inject_Z (Z.of_nat (length iou_thresholds))) with 9%Q.
  field.
Qed.

Lemma compare_guard (bboxes old_bboxes : list BoundingBox) (t : Z) :
  (0 <? length bboxes)%nat || (0 <? length old_bboxes)%nat
  = either_nonempty bboxes (t, old_bboxes).
Proof.
  unfold either_nonempty. destruct bboxes, old_bboxes; reflexivity.
Qed.

Lemma compare_loop (timestamp : Timestamp) (key : Z)
    (bboxes : list BoundingBox) (window : list Entry) (sent : list Msg) :
  fold_left (compare_entry timestamp key bboxes) window sent
  = sent ++ map (fun entry : Entry =>
                   (timestamp,
                    ((key - entry.1)%Z,
                     avg_precision get_precision_recall_at_iou
                                   bboxes entry.2)))
                (List.filter (either_nonempty bboxes) window).
Proof.
  revert sent. induction window as [|[t b] window IH]; intros sent; simpl.
  - by rewrite app_nil_r.
  - rewrite IH. rewrite (compare_guard bboxes b t).
    destruct (either_nonempty bboxes (t, b)); simpl; [|done].
    by rewrite <- app_assoc.
Qed.

Lemma on_data_unfold (st : State) (timestamp : Timestamp) (key : Z)
    (obstacles : list Obstacle) :
  coordinates timestamp = [key] ->
  let entity_set := map bounding_box (List.filter is_person obstacles) in
  let window := evicted_window key (ground_bboxes st) in
  on_data st timestamp obstacles
  = Ok (mkState (window ++ [(key, entity_set)]),
        map (fun entry : Entry =>
               (timestamp,
                ((key - entry.1)%Z,
                 avg_precision get_precision_recall_at_iou
                               entity_set entry.2)))
            (List.filter (either_nonempty entity_set) window)).
Proof.
  intros Hkey. unfold DetectionDecay.on_data. rewrite Hkey.
  rewrite select_person_bboxes_filter, remove_old_evicted, compare_loop.
  done.
Qed.

(** *** One call keeps the window sorted and within the bound *)

Lemma on_data_step (st : State) (key : Z) (obstacles : list Obstacle)
    (rest : list Z) :
  StronglySorted Z.le (keys (ground_bboxes st) ++ key :: rest) ->
  exists st' sent retained,
    on_data st (timestamp_of key) obstacles = Ok (st', sent)
    /\ StronglySorted Z.le (keys (ground_bboxes st') ++ rest)
    /\ ground_bboxes st' = retained ++ [(key, select_person_bboxes obstacles)]
    /\ within_bound key retained
    /\ Forall latency_in_bound sent.
Proof.
  intros Hsorted.
  rewrite (on_data_unfold st (timestamp_of key) key obstacles eq_refl).
  do 3 eexists. split; [reflexivity|]. simpl.
  rewrite <- remove_old_evicted, select_person_bboxes_filter.
  destruct (remove_old_suffix key (ground_bboxes st)) as [old Hold].
  pose proof Hsorted as Hall. rewrite Hold in Hall. unfold keys in Hall.
  rewrite map_app, <- app_assoc in Hall.
  apply StronglySorted_app in Hall as (_ & _ & Hkept).
  assert (Hbound : within_bound key (remove_old key (ground_bboxes st))).
  { apply remove_old_within_bound.
    by apply StronglySorted_app_1_l in Hsorted. }
  split_and!; [|reflexivity|exact Hbound|].
  - unfold keys. rewrite map_app, <- app_assoc. exact Hkept.
  - apply Forall_map, Forall_forall. intros [t b] Hin.
    apply list_elem_of_In, filter_In in Hin as [Hin _].
    apply list_elem_of_In in Hin.
    unfold DetectionDecay.latency_in_bound. simpl. split.
    + apply StronglySorted_app in Hkept as (Hle & _ & _).
      specialize (Hle t key). cut (t <= key)%Z; [lia|]. apply Hle.
      * apply (list_elem_of_fmap_2 fst _ (t, b)), Hin.
      * left.
    + unfold DetectionDecay.within_bound in Hbound.
      rewrite Forall_forall in Hbound. apply (Hbound (t, b) Hin).
Qed.

Lemma run_cons (st : State) (key : Z) (obstacles : list Obstacle)
    (msgs : list (Z * list Obstacle)) :
  run st ((key, obstacles) :: msgs)
  = '(st', sent) ← on_data st (timestamp_of key) obstacles;
    '(st'', sents) ← run st' msgs;
    Ok (st'', sent :: sents).
Proof. reflexivity. Qed.

Lemma run_invariant (msgs : list (Z * list Obstacle)) :
  forall (st : State) (rest : list Z),
    StronglySorted Z.le (keys (ground_bboxes st) ++ map fst msgs ++ rest) ->
    exists st' sents,
      run st msgs = Ok (st', sents)
      /\ StronglySorted Z.le (keys (ground_bboxes st') ++ rest)
      /\ (forall key obstacles,
            last msgs = Some (key, obstacles) ->
            exists retained,
              ground_bboxes st'
                = retained ++ [(key, select_person_bboxes obstacles)]
              /\ within_bound key retained)
      /\ Forall (Forall latency_in_bound) sents.
Proof.
  induction msgs as [|[key obstacles] msgs IH]; intros st rest Hsorted.
  - exists st, []. simpl in *. by split_and!.
  - simpl in Hsorted.
    destruct (on_data_step st key obstacles (map fst msgs ++ rest) Hsorted)
      as (st1 & sent & retained & Hstep & Hsorted1 & Hwin1 & Hbound1 & Hlat1).
    destruct (IH st1 rest Hsorted1)
      as (st2 & sents & Hrun & Hsorted2 & Hbound2 & Hlat2).
    exists st2, (sent :: sents). rewrite run_cons, Hstep. simpl.
    rewrite Hrun. simpl. split_and!; [done|done| |by constructor].
    intros key' obstacles' Hlast. destruct msgs as [|m msgs].
    + simpl in *. injection Hrun as <- _. injection Hlast as <- <-.
      by exists retained.
    + apply Hbound2. exact Hlast.
Qed.

(** C7.  A call with key [key] evicts the old entries, then sends one
    message per remaining entry with a non-empty side, carrying the latency
    [key - age_key] and the precision averaged over the nine ascending
    thresholds, and last appends [(key, entity_set)] at the tail.  The
    messages are made from the entries buffered before the call only, so the
    new entry is not compared with itself, and an entry yields no message
    when both sets are empty. *)
Theorem observe_evicts_compares_appends (st : State) (timestamp : Timestamp)
    (key : Z) (obstacles : list Obstacle) :
  coordinates timestamp = [key] ->
  let entity_set := select_person_bboxes obstacles in
  let window := evicted_window key (ground_bboxes st) in
  exists sent,
    on_data st timestamp obstacles
      = Ok (mkState (window ++ [(key, entity_set)]), sent)
    /\ Forall2 (carries timestamp) sent (observations key entity_set window)
    /\ length sent
       = length (List.filter (either_nonempty entity_set) window)
    /\ (length sent <= length (ground_bboxes st))%nat
    /\ StronglySorted Qlt iou_thresholds.
Proof.
  intros Hkey entity_set window. subst entity_set window.
  rewrite select_person_bboxes_filter.
  rewrite (on_data_unfold st timestamp key obstacles Hkey).
  eexists. split; [reflexivity|].
  set (es := map bounding_box (List.filter is_person obstacles)).
  set (w := evicted_window key (ground_bboxes st)).
  split_and!.
  - unfold DetectionDecay.observations.
    induction (List.filter (either_nonempty es) w) as [|e l IH]; simpl;
      constructor; [|exact IH].
    unfold carries; simpl. split_and!; [done|done|].
    apply avg_precision_averaged.
  - by rewrite length_map.
  - rewrite length_map. etrans; [apply filter_length_le|].
    subst w. rewrite <- remove_old_evicted.
    apply suffix_length, remove_old_suffix.
  - unfold iou_thresholds. simpl.
    repeat (apply SSorted_cons; [|repeat constructor; reflexivity]).
    constructor.
Qed.

Lemma on_data_persons_only (st : State) (timestamp : Timestamp)
    (obstacles : list Obstacle) :
  on_data st timestamp obstacles
  = on_data st timestamp (List.filter is_person obstacles).
Proof.
  unfold DetectionDecay.on_data.
  by rewrite !select_person_bboxes_filter, filter_is_person_idemp.
Qed.

(** Every call of a run buffers the persons' boxes of its message. *)
Lemma run_buffers_persons (msgs : list (Z * list Obstacle)) :
  forall st : State,
    exists st' sents,
      run st msgs = Ok (st', sents)
      /\ length sents = length msgs
      /\ forall key obstacles,
           last msgs = Some (key, obstacles) ->
           last (ground_bboxes st')
           = Some (key, map bounding_box (List.filter is_person obstacles)).
Proof.
  induction msgs as [|[key obstacles] msgs IH]; intros st.
  - exists st, []. by split_and!.
  - rewrite run_cons.
    rewrite (on_data_unfold st (timestamp_of key) key obstacles eq_refl).
    cbn [mbind result_bind].
    destruct (IH (mkState (evicted_window key (ground_bboxes st)
                           ++ [(key, map bounding_box
                                         (List.filter is_person obstacles))])))
      as (st' & sents & Hrun & Hlen & Hlast).
    rewrite Hrun. cbn [mbind result_bind].
    eexists _, _. split; [reflexivity|]. split; [simpl; by rewrite Hlen|].
    intros key' obstacles' Hlast'. destruct msgs as [|msg msgs].
    + injection Hrun as <- _. simpl in Hlast'. injection Hlast' as <- <-.
      simpl. by rewrite last_snoc.
    + by apply Hlast.
Qed.

(** C10.  The entity set of a call holds the bounding boxes of the
    obstacles that are persons, in order, and nothing else.  A call with a
    one-coordinate timestamp succeeds and buffers that set, under the game
    time, at the tail of the window, and every message it sends compares
    that set with a buffered one; every call of a run does so.  A call, and
    so a whole run, does the same on an input as on that input with every
    other obstacle left out. *)
Theorem only_persons_enter_the_window (st : State) (timestamp : Timestamp)
    (obstacles : list Obstacle) (msgs : list (Z * list Obstacle)) :
  select_person_bboxes obstacles
    = map bounding_box (List.filter is_person obstacles)
  /\ on_data st timestamp obstacles
     = on_data st timestamp (List.filter is_person obstacles)
  /\ (forall st' sent,
        on_data st timestamp obstacles = Ok (st', sent) ->
        exists key,
          coordinates timestamp = [key]
          /\ last (ground_bboxes st')
             = Some (key, map bounding_box (List.filter is_person obstacles)))
  /\ run st msgs = run st (map persons_only msgs)
  /\ (forall key,
        coordinates timestamp = [key] ->
        let persons := map bounding_box (List.filter is_person obstacles) in
        let window := remove_old key (ground_bboxes st) in
        on_data st timestamp obstacles
        = Ok (mkState (window ++ [(key, persons)]),
              map (fun entry : Entry =>
                     (timestamp,
                      ((key - entry.1)%Z,
                       avg_precision get_precision_recall_at_iou
                                     persons entry.2)))
                  (List.filter (either_nonempty persons) window)))
  /\ (exists st' sents,
        run st msgs = Ok (st', sents)
        /\ length sents = length msgs
        /\ forall key obstacles',
             last msgs = Some (key, obstacles') ->
             last (ground_bboxes st')
             = Some (key,
                     map bounding_box (List.filter is_person obstacles'))).
Proof.
  split_and!.
  - apply select_person_bboxes_filter.
  - apply on_data_persons_only.
  - intros st' sent. unfold DetectionDecay.on_data.
    destruct (coordinates timestamp) as [|key [|]]; try discriminate.
    intros [= <- _]. exists key. split; [done|]. simpl.
    by rewrite last_snoc, select_person_bboxes_filter.
  - revert st. induction msgs as [|[key obs] msgs IH]; intros st; [done|].
    change (map persons_only ((key, obs) :: msgs))
      with ((key, List.filter is_person obs) :: map persons_only msgs).
    rewrite !run_cons, <- on_data_persons_only.
    destruct (on_data st (timestamp_of key) obs) as [[st' sent]|e]; simpl;
      [by rewrite IH|done].
  - intros key Hkey persons window. subst persons window.
    rewrite (on_data_unfold st timestamp key obstacles Hkey).
    by rewrite <- remove_old_evicted.
  - apply run_buffers_persons.
Qed.

(** C6.  With keys that never decrease, every call of a run from the empty
    window succeeds.  After the last call, with key [key], the window is the
    entries retained from earlier calls followed by the entry just appended;
    every retained entry has [key - age_key] at most the bound (the entry
    just appended has age zero, so the whole window is within any
    non-negative bound); the keys of the window are in order; and every
    message any call sent has a latency between zero and the bound, the
    older entries having been popped from the front before the
    comparisons. *)
Theorem decay_window_bounded_and_sorted (msgs : list (Z * list Obstacle))
    (key : Z) (obstacles : list Obstacle) :
  StronglySorted Z.le (map fst (msgs ++ [(key, obstacles)])) ->
  exists st sents retained,
    run init (msgs ++ [(key, obstacles)]) = Ok (st, sents)
    /\ ground_bboxes st = retained ++ [(key, select_person_bboxes obstacles)]
    /\ within_bound key retained
    /\ ((0 <= decay_max_latency)%Z -> within_bound key (ground_bboxes st))
    /\ StronglySorted Z.le (keys (ground_bboxes st))
    /\ Forall (Forall latency_in_bound) sents.
Proof.
  intros Hsorted.
  destruct (run_invariant (msgs ++ [(key, obstacles)]) init [])
    as (st & sents & Hrun & Hsorted' & Hbound & Hlat).
  { simpl. by rewrite app_nil_r. }
  destruct (Hbound key obstacles (last_snoc _ _)) as (retained & Hwin & Hret).
  exists st, sents, retained. rewrite app_nil_r in Hsorted'.
  split_and!; [done|done|done| |done|done].
  intros Hmax. rewrite Hwin. apply Forall_app. split; [exact Hret|].
  constructor; [simpl; lia|constructor].
Qed.

End DetectionDecayFacts.

Lemma decay_window_bounded_and_sorted_witness :
  let msgs := [(0%Z, [(true, 1%Z)]); (50%Z, [(true, 1%Z); (false, 2%Z)]);
               (120%Z, [(true, 3%Z)])] in
  let last_msg := (260%Z, [(true, 1%Z)]) in
  StronglySorted Z.le (map fst (msgs ++ [last_msg]))
  /\ exists st sents retained,
       DetectionDecay.Example.run DetectionDecay.Example.init
                                  (msgs ++ [last_msg]) = Ok (st, sents)
       /\ DetectionDecay.ground_bboxes st = retained ++ [(260%Z, [1%Z])]
       /\ DetectionDecay.within_bound 100 260 retained
       /\ ((0 <= 100)%Z ->
           DetectionDecay.within_bound 100 260 (DetectionDecay.ground_bboxes st))
       /\ StronglySorted Z.le
            (DetectionDecay.keys (DetectionDecay.ground_bboxes st))
       /\ Forall (Forall (DetectionDecay.latency_in_bound 100)) sents.
Proof.
  assert (Hsorted : StronglySorted Z.le [0; 50; 120; 260]%Z)
    by (repeat constructor; lia).
  split; [exact Hsorted|].
  exact (decay_window_bounded_and_sorted
           DetectionDecay.Example.is_person
           DetectionDecay.Example.bounding_box
           DetectionDecay.Example.get_precision_recall_at_iou
           DetectionDecay.Example.decay_max_latency
           [(0%Z, [(true, 1%Z)]); (50%Z, [(true, 1%Z); (false, 2%Z)]);
            (120%Z, [(true, 3%Z)])]
           260%Z [(true, 1%Z)] Hsorted).
Defined.

Lemma observe_evicts_compares_appends_witness :
  let st := DetectionDecay.mkState [(0%Z, [1%Z]); (50%Z, []); (120%Z, [1%Z])] in
  let obstacles := [(true, 1%Z); (false, 2%Z)] in
  let entity_set :=
    DetectionDecay.select_person_bboxes DetectionDecay.Example.is_person
      DetectionDecay.Example.bounding_box obstacles in
  let window :=
    DetectionDecay.evicted_window DetectionDecay.Example.decay_max_latency
      130 (DetectionDecay.ground_bboxes st) in
  coordinates (timestamp_of 130) = [130%Z]
  /\ exists sent,
       DetectionDecay.Example.on_data st (timestamp_of 130) obstacles
         = Ok (DetectionDecay.mkState (window ++ [(130%Z, entity_set)]), sent)
       /\ Forall2 (DetectionDecay.carries (timestamp_of 130)) sent
            (DetectionDecay.observations
               DetectionDecay.Example.get_precision_recall_at_iou
               130 entity_set window)
       /\ length sent
          = length (List.filter (DetectionDecay.either_nonempty entity_set)
                                window)
       /\ (length sent <= length (DetectionDecay.ground_bboxes st))%nat
       /\ StronglySorted Qlt DetectionDecay.iou_thresholds.
Proof.
  split; [reflexivity|].
  exact (observe_evicts_compares_appends
           DetectionDecay.Example.is_person
           DetectionDecay.Example.bounding_box
           DetectionDecay.Example.get_precision_recall_at_iou
           DetectionDecay.Example.decay_max_latency
           (DetectionDecay.mkState
              [(0%Z, [1%Z]); (50%Z, []); (120%Z, [1%Z])])
           (timestamp_of 130) 130%Z [(true, 1%Z); (false, 2%Z)] eq_refl).
Defined.

Lemma only_persons_enter_the_window_witness :
  let st := DetectionDecay.mkState [(0%Z, [1%Z]); (50%Z, []); (120%Z, [1%Z])] in
  let obstacles := [(true, 1%Z); (false, 2%Z); (true, 3%Z)] in
  coordinates (timestamp_of 130) = [130%Z]
  /\ DetectionDecay.Example.on_data st (timestamp_of 130) obstacles
     = Ok (DetectionDecay.mkState
             [(50%Z, []); (120%Z, [1%Z]); (130%Z, [1%Z; 3%Z])],
           [(timestamp_of 130,
             (80%Z,
              DetectionDecay.avg_precision
                DetectionDecay.Example.get_precision_recall_at_iou
                [1%Z; 3%Z] []));
            (timestamp_of 130,
             (10%Z,
              DetectionDecay.avg_precision
                DetectionDecay.Example.get_precision_recall_at_iou
                [1%Z; 3%Z] [1%Z]))]).
Proof.
  split; [reflexivity|].
  destruct (only_persons_enter_the_window
              DetectionDecay.Example.is_person
              DetectionDecay.Example.bounding_box
              DetectionDecay.Example.get_precision_recall_at_iou
              DetectionDecay.Example.decay_max_latency
              (DetectionDecay.mkState
                 [(0%Z, [1%Z]); (50%Z, []); (120%Z, [1%Z])])
              (timestamp_of 130) [(true, 1%Z); (false, 2%Z); (true, 3%Z)] [])
    as (_ & _ & _ & _ & Hcall & _).
  exact (Hcall 130%Z eq_refl).
Defined.

(** The example window at key 130: the entry of key 0 is evicted, the
    entries of keys 50 and 120 are compared, and the new entry goes last. *)
Example observe_at_130 :
  DetectionDecay.Example.on_data
    (DetectionDecay.mkState [(0%Z, [1%Z]); (50%Z, []); (120%Z, [1%Z])])
    (timestamp_of 130) [(true, 1%Z); (false, 2%Z)]
  = Ok (DetectionDecay.mkState [(50%Z, []); (120%Z, [1%Z]); (130%Z, [1%Z])],
        [(timestamp_of 130, (80%Z, (0 # 9)%Q));
         (timestamp_of 130, (10%Z, (9 # 9)%Q))]).
Proof. vm_compute. reflexivity. Qed.

(** ** The prediction evaluator: the errors of one obstacle *)

Section TrajectoryErrors.

Import PredictionEval.

Lemma index_from_end_reverse {A : Type} (l : list A) (i : nat) :
  index_from_end (reverse l) (S i) = index_from_start l i.
Proof.
  unfold index_from_end, index_from_start. rewrite length_reverse.
  destruct (Nat.leb_spec (S i) (length l)) as [Hin|Hout].
  - rewrite reverse_lookup by lia.
    replace (length l - S (length l - S i))%nat with i by lia. done.
  - by rewrite (lookup_ge_None_2 l i) by lia.
Qed.

(** The loop of [sum_distances] from index [S (length pre_p)] on. *)
Lemma sum_distances_from (rest_p : list Vector2D) :
  forall (rest_g pre_p pre_g : list Vector2D) (acc : Q * Q),
    length pre_p = length pre_g ->
    for_each
      (fun '(l2, l1) idx =>
         p ← index_from_end (reverse (pre_p ++ rest_p)) idx;
         g ← index_from_end (reverse (pre_g ++ rest_g)) idx;
         Ok ((l2 + l2_distance p g)%Q, (l1 + l1_distance p g)%Q))
      (seq (S (length pre_p)) (length rest_p)) acc
    = if (length rest_g <? length rest_p)%nat then Raise IndexError
      else Ok (fold_left add_pair (zip rest_p rest_g) acc).
Proof.
  induction rest_p as [|a rest_p IH]; intros rest_g pre_p pre_g [l2 l1] Hlen.
  - simpl. by destruct rest_g.
  - cbn [length seq for_each].
    rewrite !index_from_end_reverse. unfold index_from_start.
    rewrite list_lookup_middle by done. cbn [mbind result_bind].
    destruct rest_g as [|b rest_g].
    + rewrite app_nil_r, (lookup_ge_None_2 pre_g) by lia. done.
    + rewrite list_lookup_middle by done. cbn [mbind result_bind].
      specialize (IH rest_g (pre_p ++ [a]) (pre_g ++ [b])
                     ((l2 + l2_distance a b)%Q, (l1 + l1_distance a b)%Q)).
      rewrite <- !app_assoc, !length_app in IH. simpl in IH.
      replace (length pre_p + 1)%nat with (S (length pre_p)) in IH by lia.
      rewrite IH by lia. simpl. done.
Qed.

Lemma sum_distances_zip (predicted ground : list Vector2D) :
  sum_distances predicted ground
  = if (length ground <? length predicted)%nat then Raise IndexError
    else Ok (fold_left add_pair (zip (reverse predicted) (reverse ground))
                       (0%Q, 0%Q)).
Proof.
  unfold sum_distances.
  pose proof (sum_distances_from (reverse predicted) (reverse ground) [] []
                                 (0%Q, 0%Q) eq_refl) as H.
  simpl in H. rewrite !reverse_involutive, !length_reverse in H. exact H.
Qed.

Lemma zip_reverse {A B : Type} (l : list A) :
  forall k : list B,
    length l = length k -> zip (reverse l) (reverse k) = reverse (zip l k).
Proof.
  induction l as [|a l IH]; intros [|b k] Hlen; try discriminate; [done|].
  simpl. rewrite !reverse_cons.
  rewrite zip_with_app by (rewrite !length_reverse; simpl in Hlen; lia).
  rewrite IH by (simpl in Hlen; lia). done.
Qed.

Lemma most_recent_length {A : Type} (n : nat) (l : list A) :
  (n <= length l)%nat -> length (most_recent n l) = n.
Proof. intros Hn. unfold most_recent. rewrite length_drop. lia. Qed.

(** Read from the end, a list and its most recent part agree as far as the
    shorter one goes. *)
Lemma zip_reverse_recent {A B : Type} (l : list A) (k : list B) :
  (length l <= length k)%nat ->
  zip (reverse l) (reverse k)
  = zip (reverse l) (reverse (most_recent (length l) k)).
Proof.
  intros Hlen. unfold most_recent.
  rewrite <- (take_drop (length k - length l) k) at 1.
  rewrite reverse_app, zip_with_app_r.
  rewrite length_reverse, length_drop.
  replace (length k - (length k - length l))%nat with (length l) by lia.
  rewrite <- (length_reverse l) at 1 3.
  rewrite firstn_all, drop_all. simpl. by rewrite app_nil_r.
Qed.

Lemma add_pair_sums (l : list (Vector2D * Vector2D)) (acc : Q * Q) :
  ((fold_left add_pair l acc).1
   == acc.1 + Qsum (map (fun pg => l2_distance pg.1 pg.2) l))%Q
  /\ ((fold_left add_pair l acc).2
      == acc.2 + Qsum (map (fun pg => l1_distance pg.1 pg.2) l))%Q.
Proof.
  revert acc. induction l as [|pg l IH]; intros acc; simpl.
  - split; ring.
  - destruct (IH (add_pair acc pg)) as [IH1 IH2]. rewrite IH1, IH2.
    simpl. split; ring.
Qed.

Lemma Qsum_app (l k : list Q) : (Qsum (l ++ k) == Qsum l + Qsum k)%Q.
Proof.
  induction l as [|q l IH]; simpl; [ring|]. rewrite IH. ring.
Qed.

Lemma Qsum_reverse (l : list Q) : (Qsum (reverse l) == Qsum l)%Q.
Proof.
  induction l as [|q l IH]; [done|].
  rewrite reverse_cons, Qsum_app, IH. simpl. ring.
Qed.

Lemma Qsum_pointwise {A : Type} (f g : A -> Q) (l : list A) :
  (forall a, a ∈ l -> (f a == g a)%Q) ->
  (Qsum (map f l) == Qsum (map g l))%Q.
Proof.
  induction l as [|a l IH]; intros Hfg; simpl; [reflexivity|].
  rewrite (Hfg a) by left. rewrite IH; [reflexivity|].
  intros b Hb. apply Hfg. by right.
Qed.

Lemma Qsum_constant {A : Type} (f : A -> Q) (c : Q) (l : list A) :
  (forall a, a ∈ l -> (f a == c)%Q) ->
  (Qsum (map f l) == inject_Z (Z.of_nat (length l)) * c)%Q.
Proof.
  induction l as [|a l IH]; intros Hc.
  - simpl. ring.
  - cbn [map Qsum fold_right length]. fold (Qsum (map f l)).
    rewrite (Hc a) by left. rewrite IH by (intros b Hb; apply Hc; by right).
    rewrite Nat2Z.inj_succ, <- Z.add_1_r, inject_Z_plus. simpl. ring.
Qed.

Lemma squared_euclidean_l2 (p g : Vector2D) :
  (l2_distance p g == squared_euclidean p g)%Q.
Proof. unfold l2_distance, squared_euclidean. ring. Qed.

Lemma index_from_end_last {A : Type} (l : list A) :
  index_from_end l 1 = match last l with
                       | Some a => Ok a
                       | None => Raise IndexError
                       end.
Proof.
  unfold index_from_end. rewrite last_lookup.
  destruct l as [|a l]; [done|]. simpl.
  by replace (length l - 0)%nat with (length l) by lia.
Qed.

Lemma last_most_recent {A : Type} (n : nat) (l : list A) :
  (0 < n)%nat -> last (most_recent n l) = last l.
Proof.
  intros Hn. unfold most_recent.
  destruct l as [|a l _] using rev_ind; [done|].
  rewrite length_app. simpl.
  rewrite drop_app_le by lia. by rewrite !last_snoc.
Qed.

(** The three errors when the ground trajectory is long enough. *)
Lemma displacement_errors_unfold (predicted ground : list Vector2D) :
  predicted <> [] ->
  (length predicted <= length ground)%nat ->
  exists p g,
    last predicted = Some p /\ last ground = Some g
    /\ displacement_errors predicted ground
       = let sums := fold_left add_pair
                       (zip (reverse predicted) (reverse ground))
                       (0%Q, 0%Q) in
         let n := inject_Z (Z.of_nat (length predicted)) in
         Ok ((sums.1 / n)%Q, (sums.2 / n)%Q, l1_distance p g).
Proof.
  intros Hne Hlen.
  destruct (last predicted) as [p|] eqn:Hp;
    [|apply last_None in Hp; done].
  destruct (last ground) as [g|] eqn:Hg.
  2:{ apply last_None in Hg. subst ground. destruct predicted; [done|].
      simpl in Hlen. lia. }
  exists p, g. split_and!; [done|done|].
  unfold displacement_errors. rewrite sum_distances_zip.
  destruct (Nat.ltb_spec (length ground) (length predicted)) as [|_]; [lia|].
  cbn [mbind result_bind].
  destruct (fold_left add_pair _ _) as [l2 l1]. cbn [mbind result_bind].
  rewrite !index_from_end_last, Hp, Hg.
  destruct predicted as [|p0 predicted]; [done|]. done.
Qed.

Lemma displacement_errors_ok (predicted ground : list Vector2D) :
  predicted <> [] ->
  (length predicted <= length ground)%nat ->
  let recent := most_recent (length predicted) ground in
  exists msd ade fde,
    displacement_errors predicted ground = Ok (msd, ade, fde)
    /\ (msd == average_over_pairs squared_euclidean predicted recent)%Q
    /\ (ade == average_over_pairs manhattan predicted recent)%Q
    /\ (fde == at_final_pair manhattan predicted ground)%Q.
Proof.
  intros Hne Hlen recent.
  destruct (displacement_errors_unfold predicted ground Hne Hlen)
    as (p & g & Hp & Hg & ->).
  do 3 eexists. split; [reflexivity|].
  rewrite zip_reverse_recent by done.
  rewrite zip_reverse by (by rewrite most_recent_length).
  fold recent. set (pairs := zip predicted recent).
  destruct (add_pair_sums (reverse pairs) (0%Q, 0%Q)) as [Hl2 Hl1].
  assert (Hrev : forall f : Vector2D * Vector2D -> Q,
             (Qsum (map f (reverse pairs)) == Qsum (map f pairs))%Q).
  { intros f. change (map f (reverse pairs)) with (f <$> reverse pairs).
    rewrite fmap_reverse. apply Qsum_reverse. }
  unfold average_over_pairs. rewrite (zip_with_zip squared_euclidean), (zip_with_zip manhattan).
  fold pairs.
  split_and!.
  - apply Qdiv_comp; [|reflexivity].
    eapply Qeq_trans; [exact Hl2|]. cbn [fst].
    eapply Qeq_trans; [apply Qplus_0_l|].
    eapply Qeq_trans; [apply Hrev|].
    apply Qsum_pointwise. intros [a b] _. apply squared_euclidean_l2.
  - apply Qdiv_comp; [|reflexivity].
    eapply Qeq_trans; [exact Hl1|]. cbn [snd].
    eapply Qeq_trans; [apply Qplus_0_l|].
    eapply Qeq_trans; [apply Hrev|].
    apply Qsum_pointwise. intros [a b] _. reflexivity.
  - unfold at_final_pair. rewrite Hp, Hg. reflexivity.
Qed.

Lemma displacement_errors_recent (predicted ground : list Vector2D) :
  predicted <> [] ->
  (length predicted <= length ground)%nat ->
  displacement_errors predicted ground
  = displacement_errors predicted (most_recent (length predicted) ground).
Proof.
  intros Hne Hlen.
  assert (0 < length predicted)%nat by (destruct predicted; [done|simpl; lia]).
  destruct (displacement_errors_unfold predicted ground Hne Hlen)
    as (p & g & Hp & Hg & ->).
  destruct (displacement_errors_unfold
              predicted (most_recent (length predicted) ground) Hne)
    as (p' & g' & Hp' & Hg' & ->).
  { by rewrite most_recent_length. }
  rewrite last_most_recent in Hg' by done.
  replace p' with p by congruence. replace g' with g by congruence.
  by rewrite (zip_reverse_recent predicted ground).
Qed.

Lemma displacement_errors_empty (ground : list Vector2D) :
  displacement_errors [] ground = Raise ZeroDivisionError.
Proof. reflexivity. Qed.

Lemma displacement_errors_short (predicted ground : list Vector2D) :
  (length ground < length predicted)%nat ->
  displacement_errors predicted ground = Raise IndexError.
Proof.
  intros Hlen. unfold displacement_errors. rewrite sum_distances_zip.
  by destruct (Nat.ltb_spec (length ground) (length predicted)); [|lia].
Qed.

Lemma Forall2_zip_elem {A B : Type} (R : A -> B -> Prop) (l : list A)
    (k : list B) :
  Forall2 R l k -> forall ab, ab ∈ zip l k -> R ab.1 ab.2.
Proof.
  induction 1 as [|a b l k Hab _ IH]; intros ab Hin; simpl in Hin.
  - by apply elem_of_nil in Hin.
  - apply elem_of_cons in Hin as [->|Hin]; [done|by apply IH].
Qed.

Lemma Forall2_last_related {A B : Type} (R : A -> B -> Prop) (l : list A)
    (k : list B) (a : A) (b : B) :
  Forall2 R l k -> last l = Some a -> last k = Some b -> R a b.
Proof.
  induction 1 as [|a' b' l k Hab Hlk IH]; intros Ha Hb; [done|].
  destruct Hlk as [|a'' b'' l k].
  - simpl in *. congruence.
  - apply IH; [exact Ha|exact Hb].
Qed.

Lemma offset_squared (dx dy : Q) (p g : Vector2D) :
  offset_by dx dy p g -> (squared_euclidean p g == dx ^ 2 + dy ^ 2)%Q.
Proof.
  intros [Hx Hy]. unfold squared_euclidean. rewrite Hx, Hy. ring.
Qed.

Lemma offset_manhattan (dx dy : Q) (p g : Vector2D) :
  offset_by dx dy p g -> (manhattan p g == Qabs dx + Qabs dy)%Q.
Proof.
  intros [Hx Hy]. unfold manhattan.
  assert (Hdx : (vx p - vx g == dx)%Q) by (rewrite Hx; ring).
  assert (Hdy : (vy p - vy g == dy)%Q) by (rewrite Hy; ring).
  by rewrite Hdx, Hdy.
Qed.

Lemma average_of_constant (d : Vector2D -> Vector2D -> Q) (c : Q)
    (predicted ground : list Vector2D) :
  predicted <> [] ->
  length predicted = length ground ->
  (forall pg, pg ∈ zip predicted ground -> (d pg.1 pg.2 == c)%Q) ->
  (average_over_pairs d predicted ground == c)%Q.
Proof.
  intros Hne Hlen Hc. unfold average_over_pairs.
  rewrite (zip_with_zip d).
  assert (Hsum : (Qsum (map (uncurry d) (zip predicted ground))
                  == inject_Z (Z.of_nat (length predicted)) * c)%Q).
  { eapply Qeq_trans; [apply Qsum_constant|].
    - intros [a b] Hin. apply (Hc (a, b) Hin).
    - rewrite length_zip_with, <- Hlen, Nat.min_id. reflexivity. }
  eapply Qeq_trans; [apply Qdiv_comp; [exact Hsum|reflexivity]|].
  field. destruct predicted; [done|].
  intros H. unfold Qeq in H. simpl in H. lia.
Qed.

(** C1.  For aligned trajectories of equal, non-zero length the scorer
    returns the average over all pairs of the squared Euclidean distance,
    the average of the Manhattan distance and the Manhattan distance of the
    most recent pair.  If the predicted trajectory is the ground trajectory
    shifted by [(dx, dy)], these are [dx² + dy²], [|dx| + |dy|] and
    [|dx| + |dy|]. *)
Theorem msd_is_mean_squared_distance (predicted ground : list Vector2D) :
  predicted <> [] ->
  length predicted = length ground ->
  exists msd ade fde,
    displacement_errors predicted ground = Ok (msd, ade, fde)
    /\ (msd == average_over_pairs squared_euclidean predicted ground)%Q
    /\ (ade == average_over_pairs manhattan predicted ground)%Q
    /\ (fde == at_final_pair manhattan predicted ground)%Q
    /\ forall dx dy,
         Forall2 (offset_by dx dy) predicted ground ->
         (msd == dx ^ 2 + dy ^ 2)%Q
         /\ (ade == Qabs dx + Qabs dy)%Q
         /\ (fde == Qabs dx + Qabs dy)%Q.
Proof.
  intros Hne Hlen.
  destruct (displacement_errors_ok predicted ground Hne)
    as (msd & ade & fde & Hcall & Hmsd & Hade & Hfde); [lia|].
  unfold most_recent in Hmsd, Hade.
  rewrite Hlen, Nat.sub_diag in Hmsd, Hade. simpl in Hmsd, Hade.
  exists msd, ade, fde. split_and!; [done|done|done|done|].
  intros dx dy Hoff. split_and!.
  - eapply Qeq_trans; [exact Hmsd|].
    apply average_of_constant; [done|done|].
    intros pg Hin. apply offset_squared.
    by apply (Forall2_zip_elem _ _ _ Hoff).
  - eapply Qeq_trans; [exact Hade|].
    apply average_of_constant; [done|done|].
    intros pg Hin. apply offset_manhattan.
    by apply (Forall2_zip_elem _ _ _ Hoff).
  - eapply Qeq_trans; [exact Hfde|]. unfold at_final_pair.
    destruct (last predicted) as [p|] eqn:Hp; [|by apply last_None in Hp].
    destruct (last ground) as [g|] eqn:Hg.
    2:{ apply last_None in Hg. subst ground. by destruct predicted. }
    apply offset_manhattan. by apply (Forall2_last_related _ _ _ _ _ Hoff).
Qed.

(** C4, as amended.  The scorer compares lengths nowhere.  On an empty
    predicted trajectory it raises [ZeroDivisionError]; on a ground
    trajectory shorter than the predicted one it raises [IndexError]; on a
    ground trajectory at least as long it succeeds, with the errors of the
    predicted trajectory against the most recent points of the ground
    trajectory, as many as were predicted: the older ground points are not
    read. *)
Theorem displacement_errors_by_length (predicted ground : list Vector2D) :
  displacement_errors predicted ground
  = (if (length predicted =? 0)%nat then Raise ZeroDivisionError
     else if (length ground <? length predicted)%nat then Raise IndexError
     else displacement_errors predicted
            (most_recent (length predicted) ground))
  /\ is_ok (displacement_errors predicted ground)
     = negb (length predicted =? 0)%nat
       && (length predicted <=? length ground)%nat.
Proof.
  destruct predicted as [|p predicted]; [by rewrite displacement_errors_empty|].
  set (pred := p :: predicted).
  assert (Hne : pred <> []) by done.
  change (length pred =? 0)%nat with false. cbn [negb andb].
  destruct (Nat.ltb_spec (length ground) (length pred)),
           (Nat.leb_spec (length pred) (length ground)); try lia.
  - by rewrite displacement_errors_short.
  - split; [by apply displacement_errors_recent|].
    by destruct (displacement_errors_ok pred ground Hne)
      as (msd & ade & fde & -> & _).
Qed.

End TrajectoryErrors.

(** ** The prediction evaluator: classes and the warm-up buffer *)

Section PredictionEvalFacts.

Import PredictionEval.

Variables is_vehicle is_person : ObstaclePrediction -> bool.
Variable trajectory_to_world :
  Transform -> ObstacleTrajectory -> ObstacleTrajectory.
Variable prediction_to_world :
  Transform -> ObstaclePrediction -> ObstaclePrediction.
Variable prediction_num_future_steps : nat.

Local Abbreviation count_obstacle := (count_obstacle is_vehicle is_person).
Local Abbreviation add_errors := (add_errors is_vehicle is_person).
Local Abbreviation score_obstacle := (score_obstacle is_vehicle is_person).
Local Abbreviation score_predictions :=
  (score_predictions is_vehicle is_person).
Local Abbreviation _calculate_metrics :=
  (_calculate_metrics is_vehicle is_person).
Local Abbreviation scorable := (scorable is_vehicle is_person).
Local Abbreviation unknown_class := (unknown_class is_vehicle is_person).
Local Abbreviation counted_as_person :=
  (counted_as_person is_vehicle is_person).
Local Abbreviation on_watermark :=
  (on_watermark is_vehicle is_person trajectory_to_world prediction_to_world
                prediction_num_future_steps).
Local Abbreviation step :=
  (step is_vehicle is_person trajectory_to_world prediction_to_world
        prediction_num_future_steps).
Local Abbreviation run :=
  (run is_vehicle is_person trajectory_to_world prediction_to_world
       prediction_num_future_steps).
Local Abbreviation is_scoring := (is_scoring prediction_num_future_steps).
Local Abbreviation scored_oldest :=
  (scored_oldest prediction_num_future_steps).

(** *** Classification *)

Lemma score_obstacle_unknown (ground : gmap Z ObstacleTrajectory)
    (m : Metrics) (o : ObstaclePrediction) (g : ObstacleTrajectory) :
  unknown_class o = true ->
  ground !! prediction_id o = Some g ->
  score_obstacle ground m o = Raise ValueError.
Proof.
  unfold PredictionEval.unknown_class, PredictionEval.score_obstacle,
    PredictionEval.count_obstacle.
  intros Hunknown ->.
  by destruct (is_vehicle o), (is_person o).
Qed.

(** A scored obstacle raised one counter by one and left the other. *)
Lemma score_obstacle_counts (ground : gmap Z ObstacleTrajectory)
    (m m' : Metrics) (o : ObstaclePrediction) :
  score_obstacle ground m o = Ok m' ->
  unknown_class o = false
  /\ vehicle_cnt m'
     = (vehicle_cnt m + if is_vehicle o then 1 else 0)%nat
  /\ person_cnt m'
     = (person_cnt m + if counted_as_person o then 1 else 0)%nat.
Proof.
  unfold PredictionEval.unknown_class, PredictionEval.counted_as_person,
    PredictionEval.score_obstacle, PredictionEval.count_obstacle,
    PredictionEval.add_errors.
  destruct (ground !! prediction_id o) as [g|]; [|discriminate].
  destruct (displacement_errors _ _) as [[[l2 l1] fde]|e];
    destruct (is_vehicle o), (is_person o); simpl; try discriminate;
    intros [= <-]; simpl; split_and!; try done; lia.
Qed.

Lemma score_predictions_from (ground : gmap Z ObstacleTrajectory)
    (predictions : list ObstaclePrediction) :
  forall m m',
    for_each (score_obstacle ground) predictions m = Ok m' ->
    Forall (fun o => unknown_class o = false) predictions
    /\ vehicle_cnt m'
       = (vehicle_cnt m + length (List.filter is_vehicle predictions))%nat
    /\ person_cnt m'
       = (person_cnt m
          + length (List.filter counted_as_person predictions))%nat.
Proof.
  induction predictions as [|o predictions IH]; intros m m' Hrun.
  - injection Hrun as <-. split_and!; [constructor|simpl; lia|simpl; lia].
  - cbn [for_each] in Hrun. apply bind_ok_inv in Hrun as (m1 & Hone & Hrest).
    apply score_obstacle_counts in Hone as (Hknown & Hveh & Hper).
    apply IH in Hrest as (Hall & Hveh' & Hper').
    split_and!; [by constructor| |].
    + rewrite Hveh', Hveh. simpl. destruct (is_vehicle o); simpl; lia.
    + rewrite Hper', Hper. simpl. destruct (counted_as_person o); simpl; lia.
Qed.

Lemma for_each_app {A B : Type} (body : A -> B -> result A)
    (l1 l2 : list B) :
  forall a,
    for_each body (l1 ++ l2) a = a' ← for_each body l1 a; for_each body l2 a'.
Proof.
  induction l1 as [|b l1 IH]; intros a; [done|].
  cbn [app for_each]. destruct (body a b) as [a1|e]; [|done].
  cbn [mbind result_bind]. apply IH.
Qed.

(** A scorable obstacle is scored. *)
Lemma score_obstacle_scorable (ground : gmap Z ObstacleTrajectory)
    (m : Metrics) (o : ObstaclePrediction) :
  scorable ground o -> exists m', score_obstacle ground m o = Ok m'.
Proof.
  intros (Hknown & g & Hg & Hpos & Hlen).
  unfold PredictionEval.score_obstacle, PredictionEval.count_obstacle,
    PredictionEval.add_errors. rewrite Hg.
  destruct (displacement_errors_ok
              (map to_vector2D (predicted_trajectory o))
              (map to_vector2D (trajectory g)))
    as (msd & ade & fde & -> & _).
  { destruct (predicted_trajectory o); [simpl in Hpos; lia|done]. }
  { by rewrite !length_map. }
  unfold PredictionEval.unknown_class in Hknown.
  destruct (is_vehicle o), (is_person o); try discriminate;
    cbn [mbind result_bind]; by eexists.
Qed.

Lemma score_predictions_scorable (ground : gmap Z ObstacleTrajectory)
    (predictions : list ObstaclePrediction) :
  Forall (scorable ground) predictions ->
  forall m, exists m', for_each (score_obstacle ground) predictions m = Ok m'.
Proof.
  induction 1 as [|o predictions Ho _ IH]; intros m; [by eexists|].
  destruct (score_obstacle_scorable ground m o Ho) as [m1 Hm1].
  destruct (IH m1) as [m' Hm']. exists m'.
  cbn [for_each]. rewrite Hm1. exact Hm'.
Qed.

(** C9.  An obstacle that is neither a vehicle nor a person and has a ground
    trajectory makes its scoring raise [ValueError], and so does the batch
    when the obstacles before it were scored; a batch that holds such an
    obstacle is never scored to the end, whatever else it holds; when a
    batch is scored to the end every obstacle of it was counted once, as a
    vehicle or else as a person.  An obstacle that is a vehicle or a person
    and has its points is scored, and raises the counter of its class by one
    and no other; a batch of such obstacles is scored to the end, with as
    many vehicles and persons counted as it holds. *)
Theorem unknown_class_is_raised (timestamp : Timestamp)
    (ground : gmap Z ObstacleTrajectory)
    (predictions : list ObstaclePrediction) :
  (forall m o g,
     unknown_class o = true ->
     ground !! prediction_id o = Some g ->
     score_obstacle ground m o = Raise ValueError)
  /\ (forall before o after m g,
        predictions = before ++ o :: after ->
        score_predictions ground before = Ok m ->
        unknown_class o = true ->
        ground !! prediction_id o = Some g ->
        score_predictions ground predictions = Raise ValueError
        /\ _calculate_metrics timestamp ground predictions
           = Raise ValueError)
  /\ (Exists (fun o => unknown_class o = true) predictions ->
      is_ok (score_predictions ground predictions) = false
      /\ is_ok (_calculate_metrics timestamp ground predictions) = false)
  /\ (forall m,
        score_predictions ground predictions = Ok m ->
        vehicle_cnt m = length (List.filter is_vehicle predictions)
        /\ person_cnt m = length (List.filter counted_as_person predictions)
        /\ (vehicle_cnt m + person_cnt m)%nat = length predictions)
  /\ (forall m o,
        scorable ground o ->
        exists m',
          score_obstacle ground m o = Ok m'
          /\ vehicle_cnt m'
             = (vehicle_cnt m + if is_vehicle o then 1 else 0)%nat
          /\ person_cnt m'
             = (person_cnt m + if counted_as_person o then 1 else 0)%nat
          /\ (vehicle_cnt m' + person_cnt m')%nat
             = (vehicle_cnt m + person_cnt m + 1)%nat)
  /\ (Forall (scorable ground) predictions ->
      exists m,
        score_predictions ground predictions = Ok m
        /\ vehicle_cnt m = length (List.filter is_vehicle predictions)
        /\ person_cnt m = length (List.filter counted_as_person predictions)
        /\ (vehicle_cnt m + person_cnt m)%nat = length predictions
        /\ (coordinates timestamp <> [] ->
            is_ok (_calculate_metrics timestamp ground predictions) = true)).
Proof.
  assert (Hcounts : forall m,
            score_predictions ground predictions = Ok m ->
            vehicle_cnt m = length (List.filter is_vehicle predictions)
            /\ person_cnt m
               = length (List.filter counted_as_person predictions)
            /\ (vehicle_cnt m + person_cnt m)%nat = length predictions).
  { intros m Hrun.
    apply score_predictions_from in Hrun as (Hall & Hveh & Hper).
    simpl in Hveh, Hper. split_and!; [done|done|].
    rewrite Hveh, Hper. clear Hveh Hper.
    induction Hall as [|o l Ho _ IH]; [done|]. simpl.
    unfold PredictionEval.unknown_class in Ho.
    unfold PredictionEval.counted_as_person at 1.
    destruct (is_vehicle o), (is_person o); simpl in *; try discriminate;
      lia. }
  split_and!.
  - intros m o g. apply score_obstacle_unknown.
  - intros before o after m g -> Hbefore Hunknown Hg.
    assert (Hraise : score_predictions ground (before ++ o :: after)
                     = Raise ValueError).
    { unfold PredictionEval.score_predictions in *.
      rewrite for_each_app, Hbefore. cbn [mbind result_bind for_each].
      by rewrite (score_obstacle_unknown ground m o g). }
    split; [done|]. unfold PredictionEval._calculate_metrics.
    by rewrite Hraise.
  - intros Hex.
    assert (Hfail : is_ok (score_predictions ground predictions) = false).
    { destruct (score_predictions ground predictions) as [m|e] eqn:Hrun;
        [|done].
      apply score_predictions_from in Hrun as (Hall & _).
      apply Exists_exists in Hex as (o & Hin & Ho).
      rewrite Forall_forall in Hall. specialize (Hall o Hin). congruence. }
    split; [done|]. unfold PredictionEval._calculate_metrics.
    by destruct (score_predictions ground predictions).
  - exact Hcounts.
  - intros m o Ho.
    destruct (score_obstacle_scorable ground m o Ho) as [m' Hm'].
    exists m'. split; [done|].
    destruct (score_obstacle_counts ground m m' o Hm') as (Hknown & Hv & Hp).
    split_and!; [done|done|]. rewrite Hv, Hp.
    unfold PredictionEval.unknown_class in Hknown.
    unfold PredictionEval.counted_as_person.
    destruct (is_vehicle o), (is_person o); simpl in *; try discriminate;
      lia.
  - intros Hall.
    destruct (score_predictions_scorable ground predictions Hall no_metrics)
      as [m Hm].
    fold (score_predictions ground predictions) in Hm.
    exists m. destruct (Hcounts m Hm) as (Hv & Hp & Hsum).
    split_and!; [done|done|done|done|].
    intros Hcoord. unfold PredictionEval._calculate_metrics. rewrite Hm.
    cbn [mbind result_bind]. by destruct (coordinates timestamp).
Qed.

(** *** The warm-up buffer *)

Lemma run_app (evs1 evs2 : list Event) :
  forall st,
    run st (evs1 ++ evs2)
    = '(st1, log1) ← run st evs1;
      '(st2, log2) ← run st1 evs2;
      Ok (st2, log1 ++ log2).
Proof.
  induction evs1 as [|ev evs1 IH]; intros st.
  - simpl. destruct (run st evs2) as [[st2 log2]|e]; done.
  - cbn [app PredictionEval.run].
    destruct (step st ev) as [[st' log]|e]; [|done]. cbn [mbind result_bind].
    rewrite IH.
    destruct (run st' evs1) as [[st1 log1]|e]; [|done].
    cbn [mbind result_bind].
    destruct (run st1 evs2) as [[st2 log2]|e]; [|done].
    cbn [mbind result_bind]. by rewrite app_assoc.
Qed.

Lemma on_data_predictions (st st' : State) (d : Data) :
  on_data st d = Ok st' -> predictions st' = predictions st.
Proof. destruct d; simpl; intros [= <-]; done. Qed.

(** What a processed watermark did to the buffer and when it scored. *)
Lemma on_watermark_processed (st st' : State) (t : Timestamp)
    (p : Processed) :
  on_watermark st t = Ok (st', Some p) ->
  is_top t = false
  /\ predictions st'
     = append_bounded prediction_num_future_steps (predictions st)
                      (appended p)
  /\ match scored p with
     | Some call =>
         length (predictions st) = prediction_num_future_steps
         /\ predictions st !! 0%nat = Some (call_predictions call)
         /\ call_timestamp call = t
     | None => length (predictions st) <> prediction_num_future_steps
     end.
Proof.
  unfold PredictionEval.on_watermark.
  destruct (is_top t); [discriminate|].
  destruct (tracking_msgs st) as [|tm tms]; [discriminate|].
  destruct (prediction_msgs st) as [|pm pms]; [discriminate|].
  destruct (pose_msgs st) as [|pose poses]; [discriminate|].
  cbn [popleft mbind result_bind].
  destruct (Nat.eqb_spec (length (predictions st))
                         prediction_num_future_steps) as [Hfull|Hnot].
  - unfold index_from_start.
    destruct (predictions st !! 0%nat) as [oldest|] eqn:Hold; [|discriminate].
    cbn [mbind result_bind].
    destruct (PredictionEval._calculate_metrics _ _ _ _ _) as [rows|e];
      [|discriminate].
    cbn [mbind result_bind]. intros [= <- <-]. simpl. by split_and!.
  - cbn [mbind result_bind]. intros [= <- <-]. simpl. by split_and!.
Qed.

Lemma on_watermark_top (st st' : State) (t : Timestamp) :
  on_watermark st t = Ok (st', None) -> is_top t = true /\ st' = st.
Proof.
  unfold PredictionEval.on_watermark.
  destruct (is_top t); [by intros [= <-]|].
  destruct (tracking_msgs st) as [|tm tms]; [discriminate|].
  destruct (prediction_msgs st) as [|pm pms]; [discriminate|].
  destruct (pose_msgs st) as [|pose poses]; [discriminate|].
  cbn [popleft mbind result_bind].
  destruct (_ =? _)%nat; cbn [mbind result_bind].
  - destruct (index_from_start _ _); [|discriminate]. cbn [mbind result_bind].
    destruct (PredictionEval._calculate_metrics _ _ _ _ _); discriminate.
  - discriminate.
Qed.

(** Appending to the bounded deque keeps the most recent batches. *)
Lemma append_bounded_drop {A : Type} (maxlen : nat) (l : list A) (a : A) :
  append_bounded maxlen (drop (length l - maxlen) l) a
  = drop (length (l ++ [a]) - maxlen) (l ++ [a]).
Proof.
  unfold append_bounded.
  rewrite <- (drop_app_le l [a]) by lia. rewrite drop_drop.
  f_equal. rewrite length_drop, !length_app. simpl. lia.
Qed.

Lemma watermarks_processed_snoc (evs : list Event) (ev : Event) :
  watermarks_processed (evs ++ [ev])
  = (watermarks_processed evs + if is_nontop_watermark ev then 1 else 0)%nat.
Proof.
  unfold watermarks_processed. rewrite List.filter_app, length_app. simpl.
  by destruct (is_nontop_watermark ev).
Qed.

Lemma scoring_passes_snoc (log : list Processed) (p : Processed) :
  scoring_passes (log ++ [p])
  = (scoring_passes log + if made_pass p then 1 else 0)%nat.
Proof.
  unfold scoring_passes. rewrite List.filter_app, length_app. simpl.
  by destruct (made_pass p).
Qed.

Lemma run_buffer_invariant (evs : list Event) :
  forall st log,
    run init evs = Ok (st, log) ->
    length log = watermarks_processed evs
    /\ predictions st
       = drop (length log - prediction_num_future_steps) (map appended log)
    /\ scoring_passes log
       = (length log - prediction_num_future_steps)%nat
    /\ scored_oldest log.
Proof.
  induction evs as [|ev evs IH] using rev_ind; intros st log Hrun.
  - injection Hrun as <- <-. by split_and!.
  - rewrite run_app in Hrun.
    apply bind_ok_inv in Hrun as ([st1 log1] & Hrun1 & Hrun).
    destruct (IH st1 log1 Hrun1) as (Hlen & Hbuf & Hpass & Hold).
    cbn [PredictionEval.run] in Hrun.
    apply bind_ok_inv in Hrun as ([st2 log2] & Hrun2 & Hrun).
    apply bind_ok_inv in Hrun2 as ([st3 entry] & Hstep & Hrun2).
    injection Hrun2 as <- <-. injection Hrun as <- <-.
    rewrite watermarks_processed_snoc, <- Hlen. clear Hlen IH Hrun1.
    rewrite app_nil_r.
    destruct ev as [d|t]; cbn [PredictionEval.step] in Hstep.
    + apply bind_ok_inv in Hstep as (st' & Hdata & [= <- <-]).
      apply on_data_predictions in Hdata.
      change (option_list None) with (@nil Processed).
      cbn [is_nontop_watermark].
      rewrite app_nil_r, Nat.add_0_r, Hdata. by split_and!.
    + destruct entry as [p|].
      2:{ apply on_watermark_top in Hstep as [Htop ->].
          change (option_list None) with (@nil Processed).
          cbn [is_nontop_watermark]. rewrite Htop.
          cbn [negb]. rewrite app_nil_r, Nat.add_0_r. by split_and!. }
      apply on_watermark_processed in Hstep as (Htop & Hnew & Hscored).
      change (option_list (Some p)) with [p].
      cbn [is_nontop_watermark]. rewrite Htop. cbn [negb].
      rewrite length_app. cbn [length].
      split_and!.
      * done.
      * rewrite Hnew, Hbuf, map_app. cbn [map].
        rewrite <- (length_map appended log1), append_bounded_drop.
        by rewrite length_app, !length_map.
      * rewrite scoring_passes_snoc, Hpass. unfold made_pass.
        assert (Hfull : length (predictions st1)
                        = Nat.min (length log1) prediction_num_future_steps).
        { rewrite Hbuf, length_drop, length_map. lia. }
        destruct (scored p) as [call|]; [|lia].
        destruct Hscored as (Hlen & _). lia.
      * intros k q Hk. apply lookup_app_Some in Hk as [Hk|[Hge Hk]].
        { specialize (Hold k q Hk). destruct (scored q) as [call|]; [|done].
          destruct Hold as (Hle & q' & Hq' & Hcall). split; [done|].
          exists q'. split; [|done]. by apply lookup_app_l_Some. }
        apply list_lookup_singleton_Some in Hk as [Hk <-].
        assert (k = length log1) as -> by lia.
        assert (Hfull : length (predictions st1)
                        = Nat.min (length log1) prediction_num_future_steps).
        { rewrite Hbuf, length_drop, length_map. lia. }
        destruct (scored p) as [call|]; [|lia].
        destruct Hscored as (Hlen & Hhead & _). split; [lia|].
        rewrite Hbuf, lookup_drop, Nat.add_0_r in Hhead.
        apply list_lookup_fmap_Some in Hhead as (q' & Hcall & Hq').
        exists q'. split; [by apply lookup_app_l_Some|done].
Qed.

(** C2, as amended.  In a run of the operator from its initial state that
    processed [n] non-top watermarks, with warm-up horizon [W]: the buffer
    holds [min n W] batches, so the operator is scoring exactly when
    [W <= n], from the moment the [W]-th batch is appended and ever after;
    the buffer is checked before the batch of the current watermark is
    appended, so the watermarks that make a scoring pass are those after the
    [W]-th and the passes number [max 0 (n - W)]; and each pass scores the
    oldest batch of the buffer, the one appended [W] watermarks before. *)
Theorem scoring_starts_after_warmup (evs : list Event) (st : State)
    (log : list Processed) :
  run init evs = Ok (st, log) ->
  let n := watermarks_processed evs in
  let W := prediction_num_future_steps in
  length log = n
  /\ length (predictions st) = Nat.min n W
  /\ (is_scoring st = true <-> (W <= n)%nat)
  /\ Z.of_nat (scoring_passes log) = Z.max 0 (Z.of_nat n - Z.of_nat W)
  /\ forall k p,
       log !! k = Some p ->
       match scored p with
       | Some call =>
           (W <= k)%nat
           /\ exists q,
                log !! (k - W)%nat = Some q
                /\ call_predictions call = appended q
       | None => (k < W)%nat
       end.
Proof.
  intros Hrun n W.
  destruct (run_buffer_invariant evs st log Hrun)
    as (Hlen & Hbuf & Hpass & Hold).
  fold n in Hlen. fold W in Hbuf, Hpass.
  assert (Hsize : length (predictions st) = Nat.min n W).
  { rewrite Hbuf, length_drop, length_map. lia. }
  split_and!; [done|done| |lia|exact Hold].
  unfold PredictionEval.is_scoring. fold W. rewrite Hsize.
  rewrite Nat.eqb_eq. lia.
Qed.

End PredictionEvalFacts.

(** ** Examples and instances at concrete inputs *)

(** C4, the claim as stated fails: a ground trajectory of two points and a
    predicted trajectory of one point differ in length, and the scorer
    returns the errors of the predicted point against the last ground
    point. *)
Lemma longer_ground_is_scored :
  let predicted := [PredictionEval.Example.vector 0 0] in
  let ground := [PredictionEval.Example.vector 9 9;
                 PredictionEval.Example.vector 0 0] in
  length predicted <> length ground
  /\ PredictionEval.displacement_errors predicted ground
     = Ok (0%Q, 0%Q, 0%Q).
Proof. split; [simpl; lia|reflexivity]. Qed.

(** C2, the claim as stated fails: with a horizon of one batch, the first
    processed watermark appends the first batch and makes no scoring pass,
    where [max 0 (n - W + 1)] is one. *)
Lemma first_watermark_makes_no_pass :
  let evs := PredictionEval.Example.round 0 in
  let W := 1%nat in
  exists st log,
    PredictionEval.Example.run W PredictionEval.init evs = Ok (st, log)
    /\ PredictionEval.watermarks_processed evs = 1%nat
    /\ PredictionEval.is_scoring W st = true
    /\ PredictionEval.scoring_passes log = 0%nat
    /\ Z.of_nat (PredictionEval.scoring_passes log)
       <> Z.max 0 (Z.of_nat (PredictionEval.watermarks_processed evs)
                   - Z.of_nat W + 1).
Proof.
  do 2 eexists. split; [vm_compute; reflexivity|].
  split_and!; [reflexivity|reflexivity|reflexivity|vm_compute; discriminate].
Qed.

Lemma msd_is_mean_squared_distance_witness :
  let predicted := [PredictionEval.Example.vector 4 6;
                    PredictionEval.Example.vector 5 7] in
  let ground := [PredictionEval.Example.vector 1 2;
                 PredictionEval.Example.vector 2 3] in
  predicted <> []
  /\ length predicted = length ground
  /\ exists msd ade fde,
       PredictionEval.displacement_errors predicted ground
         = Ok (msd, ade, fde)
       /\ (msd == PredictionEval.average_over_pairs
                    PredictionEval.squared_euclidean predicted ground)%Q
       /\ (ade == PredictionEval.average_over_pairs
                    PredictionEval.manhattan predicted ground)%Q
       /\ (fde == PredictionEval.at_final_pair
                    PredictionEval.manhattan predicted ground)%Q
       /\ forall dx dy,
            Forall2 (PredictionEval.offset_by dx dy) predicted ground ->
            (msd == dx ^ 2 + dy ^ 2)%Q
            /\ (ade == Qabs dx + Qabs dy)%Q
            /\ (fde == Qabs dx + Qabs dy)%Q.
Proof.
  assert (H1 : [PredictionEval.Example.vector 4 6;
                PredictionEval.Example.vector 5 7] <> []) by discriminate.
  split; [exact H1|]. split; [reflexivity|].
  exact (msd_is_mean_squared_distance
           [PredictionEval.Example.vector 4 6;
            PredictionEval.Example.vector 5 7]
           [PredictionEval.Example.vector 1 2;
            PredictionEval.Example.vector 2 3] H1 eq_refl).
Defined.

(** The shift by [(3, 4)]: mean squared distance 25, both displacement
    errors 7. *)
Example shifted_by_3_4 :
  PredictionEval.displacement_errors
    [PredictionEval.Example.vector 4 6; PredictionEval.Example.vector 5 7]
    [PredictionEval.Example.vector 1 2; PredictionEval.Example.vector 2 3]
  = Ok ((50 # 2)%Q, (14 # 2)%Q, 7%Q).
Proof. reflexivity. Qed.

Lemma unknown_class_is_raised_witness :
  let ground := PredictionEval.Example.tracks in
  let car := PredictionEval.Example.car in
  let tree := PredictionEval.Example.tree in
  let walker :=
    PredictionEval.mkObstaclePrediction 2 "person"
      [PredictionEval.Example.point 4 5] in
  PredictionEval.score_obstacle
    PredictionEval.Example.is_vehicle PredictionEval.Example.is_person
    ground PredictionEval.no_metrics tree = Raise ValueError
  /\ is_ok (PredictionEval._calculate_metrics
              PredictionEval.Example.is_vehicle
              PredictionEval.Example.is_person
              (timestamp_of 0) ground [car; tree]) = false
  /\ (exists m',
        PredictionEval.score_obstacle
          PredictionEval.Example.is_vehicle PredictionEval.Example.is_person
          ground PredictionEval.no_metrics car = Ok m'
        /\ PredictionEval.vehicle_cnt m' = 1%nat
        /\ PredictionEval.person_cnt m' = 0%nat)
  /\ (exists m,
        PredictionEval.score_predictions
          PredictionEval.Example.is_vehicle PredictionEval.Example.is_person
          ground [car; walker] = Ok m
        /\ PredictionEval.vehicle_cnt m = 1%nat
        /\ PredictionEval.person_cnt m = 1%nat
        /\ is_ok (PredictionEval._calculate_metrics
                    PredictionEval.Example.is_vehicle
                    PredictionEval.Example.is_person
                    (timestamp_of 0) ground [car; walker]) = true).
Proof.
  set (walker := PredictionEval.mkObstaclePrediction 2 "person"
                   [PredictionEval.Example.point 4 5]).
  assert (Hcar : PredictionEval.scorable
                   PredictionEval.Example.is_vehicle
                   PredictionEval.Example.is_person
                   PredictionEval.Example.tracks PredictionEval.Example.car).
  { split; [reflexivity|]. exists PredictionEval.Example.car_track.
    split; [reflexivity|]. simpl. lia. }
  assert (Hwalker : PredictionEval.scorable
                      PredictionEval.Example.is_vehicle
                      PredictionEval.Example.is_person
                      PredictionEval.Example.tracks walker).
  { split; [reflexivity|]. exists PredictionEval.Example.tree_track.
    split; [reflexivity|]. simpl. lia. }
  destruct (unknown_class_is_raised
              PredictionEval.Example.is_vehicle
              PredictionEval.Example.is_person
              (timestamp_of 0) PredictionEval.Example.tracks
              [PredictionEval.Example.car; PredictionEval.Example.tree])
    as (Hone & _ & Hbatch & _ & Hscored & _).
  destruct (unknown_class_is_raised
              PredictionEval.Example.is_vehicle
              PredictionEval.Example.is_person
              (timestamp_of 0) PredictionEval.Example.tracks
              [PredictionEval.Example.car; walker])
    as (_ & _ & _ & _ & _ & Hall).
  split_and!.
  - apply (Hone _ _ PredictionEval.Example.tree_track); reflexivity.
  - apply Hbatch. apply Exists_cons_tl, Exists_cons_hd. reflexivity.
  - destruct (Hscored PredictionEval.no_metrics PredictionEval.Example.car
                      Hcar) as (m' & Hm' & Hv & Hp & _).
    exists m'. split_and!; [exact Hm'|exact Hv|exact Hp].
  - assert (Hboth : Forall (PredictionEval.scorable
                              PredictionEval.Example.is_vehicle
                              PredictionEval.Example.is_person
                              PredictionEval.Example.tracks)
                           [PredictionEval.Example.car; walker])
      by (constructor; [exact Hcar|]; constructor; [exact Hwalker|];
          constructor).
    destruct (Hall Hboth) as (m & Hm & Hv & Hp & _ & Hlog).
    exists m. split_and!; [exact Hm|exact Hv|exact Hp|].
    apply Hlog. discriminate.
Defined.

Lemma scoring_starts_after_warmup_witness :
  let evs := PredictionEval.Example.round 0 ++ PredictionEval.Example.round 1 in
  exists st log,
    PredictionEval.Example.run 1 PredictionEval.init evs = Ok (st, log)
    /\ length log = 2%nat
    /\ length (PredictionEval.predictions st) = 1%nat
    /\ Z.of_nat (PredictionEval.scoring_passes log) = 1%Z.
Proof.
  assert (Hrun : { r | PredictionEval.Example.run 1 PredictionEval.init
                         (PredictionEval.Example.round 0
                          ++ PredictionEval.Example.round 1) = Ok r }).
  { eexists. vm_compute. reflexivity. }
  destruct Hrun as [[st log] Hrun]. exists st, log.
  destruct (scoring_starts_after_warmup
              PredictionEval.Example.is_vehicle
              PredictionEval.Example.is_person
              PredictionEval.Example.trajectory_to_world
              PredictionEval.Example.prediction_to_world 1%nat
              _ st log Hrun) as (Hlen & Hsize & _ & Hpass & _).
  split_and!; [exact Hrun|exact Hlen|exact Hsize|exact Hpass].
Defined.

(** A batch with a car and a tree: the car is scored against the most
    recent two points of its three-point track, the tree is of no known
    class. *)
Example tree_in_batch :
  PredictionEval._calculate_metrics
    PredictionEval.Example.is_vehicle PredictionEval.Example.is_person
    (timestamp_of 0) PredictionEval.Example.tracks
    [PredictionEval.Example.car; PredictionEval.Example.tree]
  = Raise ValueError.
Proof. vm_compute. reflexivity. Qed.

Example car_alone :
  PredictionEval._calculate_metrics
    PredictionEval.Example.is_vehicle PredictionEval.Example.is_person
    (timestamp_of 0) PredictionEval.Example.tracks
    [PredictionEval.Example.car]
  = Ok [(0%Z, "MSD", (0 # 2)%Q); (0%Z, "ADE", (0 # 2)%Q);
        (0%Z, "FDE", 0%Q);
        (0%Z, "vehicle-MSD", (0 # 2)%Q); (0%Z, "vehicle-ADE", (0 # 2)%Q);
        (0%Z, "vehicle-FDE", 0%Q)].
Proof. vm_compute. reflexivity. Qed.

(** ** The lidar driver: further properties of the gate *)

Section LidarDriverGate.

Import LidarDriver.

Context {SimulatorPC PointCloud Pickled : Type}.
Variable game_time_of : SimulatorPC -> Z.
Variable raw_data_len : SimulatorPC -> nat.
Variable from_simulator_point_cloud : SimulatorPC -> PointCloud.
Variable pickle_dumps : PointCloud -> Pickled.

Local Abbreviation process_point_clouds :=
  (process_point_clouds game_time_of raw_data_len
                        from_simulator_point_cloud pickle_dumps).
Local Abbreviation step :=
  (step game_time_of raw_data_len from_simulator_point_cloud pickle_dumps).
Local Abbreviation run :=
  (run game_time_of raw_data_len from_simulator_point_cloud pickle_dumps).
Local Abbreviation offered_in :=
  (offered_in game_time_of from_simulator_point_cloud pickle_dumps).
Local Abbreviation same_game_time :=
  (same_game_time (SimulatorPC := SimulatorPC) game_time_of).
Local Abbreviation key_of pc := (timestamp_of (game_time_of pc)).
Local Abbreviation snapshot_of pc :=
  (pickle_dumps (from_simulator_point_cloud pc)).

Lemma run_step (st : State) (ev : Event) (evs : list Event) :
  run st (ev :: evs)
  = match step st ev with
    | Ok (st', sent) => ((run st' evs).1, Ok sent :: (run st' evs).2)
    | Raise e => ((run st evs).1, Raise e :: (run st evs).2)
    end.
Proof.
  cbn [LidarDriver.run].
  destruct (step st ev) as [[st' sent]|e].
  - by destruct (LidarDriver.run _ _ _ _ st' evs).
  - by destruct (LidarDriver.run _ _ _ _ st evs).
Qed.

(** What one callback does to the mode. *)
Lemma step_mode (st : State) (ev : Event) :
  match step st ev with
  | Ok (st', _) => release_data st' = release_data st || is_top_watermark ev
  | Raise _ => is_top_watermark ev = false
  end.
Proof.
  destruct ev as [pc|t]; simpl.
  - unfold LidarDriver.process_point_clouds.
    destruct (0 <? raw_data_len pc)%nat; [|done].
    destruct (release_data st) eqn:Hmode; simpl; by rewrite ?Hmode.
  - unfold on_watermark. destruct (is_top t); simpl.
    + by rewrite orb_true_r.
    + destruct (pickled_messages st !! t); simpl; [|done].
      by rewrite orb_false_r.
Qed.

(** X1.  After any sequence of callbacks the gate is in immediate mode
    exactly when it was so before or one of the callbacks was a watermark
    with the top timestamp: nothing else sets the flag and nothing clears
    it. *)
Theorem mode_after_run (evs : list Event) (st : State) :
  release_data (run st evs).1
  = release_data st || existsb is_top_watermark evs.
Proof.
  revert st. induction evs as [|ev evs IH]; intros st.
  - simpl. by rewrite orb_false_r.
  - rewrite run_step. pose proof (step_mode st ev) as Hstep.
    destruct (step st ev) as [[st' sent]|e]; cbn [fst existsb].
    + rewrite IH, Hstep. by rewrite orb_assoc.
    + rewrite IH, Hstep. done.
Qed.

(** What one callback does to the cache and what it sends pickled. *)
Lemma step_provenance (evs0 : list Event) (st : State) (ev : Event) :
  (forall t bytes, pickled_messages st !! t = Some bytes ->
                   offered_in evs0 t bytes) ->
  match step st ev with
  | Ok (st', sent) =>
      (forall t bytes, pickled_messages st' !! t = Some bytes ->
                       offered_in (evs0 ++ [ev]) t bytes)
      /\ (forall s t bytes, In (s, PickledMessage t bytes) sent ->
                            offered_in (evs0 ++ [ev]) t bytes)
  | Raise _ => True
  end.
Proof.
  intros Hcache.
  assert (Hmono : forall t bytes, offered_in evs0 t bytes ->
                                  offered_in (evs0 ++ [ev]) t bytes).
  { intros t bytes (pc & Hin & Ht & Hb). exists pc.
    split; [apply in_or_app; by left|done]. }
  destruct ev as [pc|t]; simpl.
  - unfold LidarDriver.process_point_clouds.
    destruct (0 <? raw_data_len pc)%nat; [|done].
    destruct (release_data st); simpl.
    + split; [by eauto|]. intros s t bytes [Hin|[Hin|[]]]; discriminate.
    + split.
      * intros t bytes Hlook.
        destruct (decide (key_of pc = t)) as [<-|Hne].
        -- rewrite lookup_insert_eq in Hlook. injection Hlook as <-.
           exists pc. split; [apply in_or_app; right; by left|done].
        -- rewrite lookup_insert_ne in Hlook by done. by eauto.
      * intros s t bytes [Hin|[]]. discriminate.
  - unfold on_watermark. destruct (is_top t); simpl.
    + split; [by eauto|]. by intros s t' bytes [].
    + destruct (pickled_messages st !! t) as [stored|] eqn:Hstored; [|done].
      simpl. split.
      * intros t' bytes Hlook. apply lookup_delete_Some in Hlook as [_ Hlook].
        by eauto.
      * intros s t' bytes [Hin|[Hin|[]]]; [|discriminate].
        injection Hin as _ <- <-. by eauto.
Qed.

Lemma run_provenance (evs : list Event) :
  forall (evs0 : list Event) (st : State),
    (forall t bytes, pickled_messages st !! t = Some bytes ->
                     offered_in evs0 t bytes) ->
    (forall t bytes, pickled_messages (run st evs).1 !! t = Some bytes ->
                     offered_in (evs0 ++ evs) t bytes)
    /\ (forall sent s t bytes,
          In (Ok sent) (run st evs).2 ->
          In (s, PickledMessage t bytes) sent ->
          offered_in (evs0 ++ evs) t bytes).
Proof.
  induction evs as [|ev evs IH]; intros evs0 st Hcache.
  - simpl. rewrite app_nil_r. split; [done|]. by intros sent s t bytes [].
  - rewrite run_step. pose proof (step_provenance evs0 st ev Hcache) as Hstep.
    replace (evs0 ++ ev :: evs) with ((evs0 ++ [ev]) ++ evs)
      by (by rewrite <- app_assoc).
    assert (Hmono : forall t bytes, offered_in (evs0 ++ [ev]) t bytes ->
                                    offered_in ((evs0 ++ [ev]) ++ evs) t bytes).
    { intros t bytes (pc & Hin & Ht & Hb). exists pc.
      split; [apply in_or_app; by left|done]. }
    destruct (step st ev) as [[st' sent]|e]; cbn [fst snd].
    + destruct Hstep as [Hcache' Hsent].
      destruct (IH (evs0 ++ [ev]) st' Hcache') as [IH1 IH2].
      split; [done|].
      intros sent' s t bytes [Hhere|Hlater] Hin.
      * injection Hhere as <-. by eauto.
      * by eauto.
    + assert (Hcache' : forall t bytes,
                 pickled_messages st !! t = Some bytes ->
                 offered_in (evs0 ++ [ev]) t bytes).
      { intros t bytes Hlook. destruct (Hcache t bytes Hlook)
          as (pc & Hin & Ht & Hb). exists pc.
        split; [apply in_or_app; by left|done]. }
      destruct (IH (evs0 ++ [ev]) st Hcache') as [IH1 IH2].
      split; [done|].
      intros sent' s t bytes [Hhere|Hlater] Hin; [discriminate|by eauto].
Qed.

(** X2.  In a run from the initial state, every snapshot in the cache and
    every pickled message sent is the pickled point cloud of one of the
    simulator callbacks of the run, under the timestamp of that point
    cloud: the gate sends no payload it was not given. *)
Theorem pickled_payloads_come_from_offers (evs : list Event) :
  (forall t bytes,
     pickled_messages (run init evs).1 !! t = Some bytes ->
     offered_in evs t bytes)
  /\ (forall sent s t bytes,
        In (Ok sent) (run init evs).2 ->
        In (s, PickledMessage t bytes) sent ->
        offered_in evs t bytes).
Proof.
  apply (run_provenance evs [] init). intros t bytes Hlook.
  simpl in Hlook. by rewrite lookup_empty in Hlook.
Qed.

(** The cache after a series of gated offers. *)
Lemma gated_offers_cache (pcs : list SimulatorPC) :
  forall st : State,
    release_data st = false ->
    Forall (fun pc => (0 < raw_data_len pc)%nat) pcs ->
    (run st (map PointCloudCallback pcs)).1
    = mkState (fold_left (fun cache pc =>
                            <[key_of pc := snapshot_of pc]> cache)
                         pcs (pickled_messages st))
              false.
Proof.
  induction pcs as [|pc pcs IH]; intros st Hgated Hlen.
  - simpl. destruct st; simpl in *; by subst.
  - apply Forall_cons in Hlen as [Hpc Hlen].
    cbn [map]. rewrite run_step. cbn [LidarDriver.step].
    unfold LidarDriver.process_point_clouds.
    destruct (Nat.ltb_spec 0 (raw_data_len pc)) as [_|]; [|lia].
    rewrite Hgated. cbn [fst]. by rewrite IH.
Qed.

Lemma latest_offer_lookup (pcs : list SimulatorPC) :
  forall (cache : gmap Timestamp Pickled) (pc : SimulatorPC),
    last (List.filter (same_game_time pc) pcs) = Some pc ->
    fold_left (fun cache pc' => <[key_of pc' := snapshot_of pc']> cache)
              pcs cache !! key_of pc
    = Some (snapshot_of pc).
Proof.
  induction pcs as [|pc' pcs IH] using rev_ind; intros cache pc Hlast;
    [done|].
  rewrite fold_left_app. cbn [fold_left].
  rewrite List.filter_app in Hlast. cbn [List.filter] in Hlast.
  unfold LidarDriver.same_game_time at 2 in Hlast.
  destruct (decide (game_time_of pc' = game_time_of pc)) as [Heq|Hne].
  - rewrite bool_decide_eq_true_2 in Hlast by done.
    rewrite last_snoc in Hlast. injection Hlast as ->.
    by rewrite lookup_insert_eq.
  - rewrite bool_decide_eq_false_2 in Hlast by done.
    rewrite app_nil_r in Hlast.
    rewrite lookup_insert_ne; [by apply IH|].
    intros Hkey. injection Hkey as Hkey. done.
Qed.

(** X3.  When several point clouds are offered under one game time while
    the gate is gated, the release of that timestamp sends the pickled form
    of the one offered last: each offer replaces the snapshot of the one
    before it. *)
Theorem release_sends_latest_offer (st : State) (pcs : list SimulatorPC)
    (pc : SimulatorPC) :
  release_data st = false ->
  Forall (fun pc' => (0 < raw_data_len pc')%nat) pcs ->
  last (List.filter (same_game_time pc) pcs) = Some pc ->
  exists st',
    on_watermark (run st (map PointCloudCallback pcs)).1 (key_of pc)
    = Ok (st', [(LeftStream, PickledMessage (key_of pc) (snapshot_of pc));
                (LeftStream,
                 WatermarkMessage (PointCloud := PointCloud) (key_of pc))]).
Proof.
  intros Hgated Hlen Hlast. rewrite gated_offers_cache by done.
  eexists. unfold on_watermark. cbn [is_top timestamp_of pickled_messages].
  by rewrite (latest_offer_lookup pcs _ pc Hlast).
Qed.

(** X4.  A point cloud offered in immediate mode is sent at once and never
    stored; if no snapshot was left under its timestamp, a later release of
    that timestamp raises [KeyError]. *)
Theorem immediate_offer_cannot_be_released (st : State) (pc : SimulatorPC) :
  release_data st = true ->
  (0 < raw_data_len pc)%nat ->
  pickled_messages st !! key_of pc = None ->
  exists sent,
    process_point_clouds st pc = Ok (st, sent)
    /\ payload_count sent = 1%nat
    /\ on_watermark (PointCloud := PointCloud) st (key_of pc)
       = Raise KeyError.
Proof.
  intros Himm Hlen Hnone. unfold LidarDriver.process_point_clouds.
  destruct (Nat.ltb_spec 0 (raw_data_len pc)) as [_|]; [|lia].
  rewrite Himm. eexists. split; [reflexivity|]. split; [reflexivity|].
  unfold on_watermark. cbn [is_top timestamp_of]. by rewrite Hnone.
Qed.

End LidarDriverGate.

(** ** The detection-decay evaluator: further properties of the window *)

Section DetectionDecayWindow.

Import DetectionDecay.

Context {Obstacle BoundingBox : Type}.
Variable is_person : Obstacle -> bool.
Variable bounding_box : Obstacle -> BoundingBox.
Variable get_precision_recall_at_iou :
  list BoundingBox -> list BoundingBox -> Q -> Q * Q.
Variable decay_max_latency : Z.

Local Abbreviation select_person_bboxes :=
  (select_person_bboxes is_person bounding_box).
Local Abbreviation remove_old := (remove_old (BoundingBox := BoundingBox)
                                             decay_max_latency).
Local Abbreviation on_data :=
  (on_data is_person bounding_box get_precision_recall_at_iou
           decay_max_latency).
Local Abbreviation run :=
  (run is_person bounding_box get_precision_recall_at_iou decay_max_latency).
Local Abbreviation evicted_window :=
  (evicted_window (BoundingBox := BoundingBox) decay_max_latency).
Local Abbreviation within_latency :=
  (within_latency (BoundingBox := BoundingBox) decay_max_latency).
Local Abbreviation within_bound :=
  (within_bound (BoundingBox := BoundingBox) decay_max_latency).
Local Abbreviation entry_of := (entry_of is_person bounding_box).
Local Abbreviation no_person := (no_person (Obstacle := Obstacle) is_person).
Local Abbreviation precision_is_a_ratio :=
  (precision_is_a_ratio get_precision_recall_at_iou).
Local Abbreviation avg_precision :=
  (avg_precision get_precision_recall_at_iou).

Lemma filter_all {A : Type} (f : A -> bool) (l : list A) :
  Forall (fun a => f a = true) l -> List.filter f l = l.
Proof.
  induction 1 as [|a l Ha _ IH]; [done|]. simpl. by rewrite Ha, IH.
Qed.

(** X5.  On a window whose keys are in non-decreasing order the eviction
    loop keeps exactly the entries within the latency bound: none of them
    is lost and none older is kept. *)
Theorem eviction_keeps_the_entries_in_bound (key : Z) (window : list Entry) :
  StronglySorted Z.le (keys window) ->
  remove_old key window = List.filter (within_latency key) window.
Proof.
  induction window as [|[t b] window IH]; intros Hsorted; [done|].
  simpl in Hsorted.
  apply StronglySorted_cons in Hsorted as [Hle Hsorted].
  cbn [DetectionDecay.remove_old List.filter].
  unfold DetectionDecay.within_latency at 1. cbn [fst].
  destruct (Z.gtb_spec (key - t) decay_max_latency) as [Hold|Hnew],
           (Z.leb_spec (key - t) decay_max_latency) as [Hin|Hout];
    try lia.
  - by apply IH.
  - f_equal. symmetry. apply filter_all.
    unfold keys in Hle. rewrite Forall_map in Hle.
    eapply Forall_impl; [exact Hle|]. intros [t' b'] Ht'.
    unfold DetectionDecay.within_latency. simpl in *.
    apply Z.leb_le. lia.
Qed.

Lemma run_snoc (msgs : list (Z * list Obstacle)) :
  forall (st : State) (msg : Z * list Obstacle),
    run st (msgs ++ [msg])
    = '(st1, sents) ← run st msgs;
      '(st2, sent) ← on_data st1 (timestamp_of msg.1) msg.2;
      Ok (st2, sents ++ [sent]).
Proof.
  induction msgs as [|[key obstacles] msgs IH]; intros st [key' obstacles'].
  - cbn [app DetectionDecay.run mbind result_bind fst snd].
    by destruct (on_data st (timestamp_of key') obstacles') as [[st2 sent]|e].
  - cbn [app]. rewrite !run_cons.
    destruct (on_data st (timestamp_of key) obstacles) as [[st1 sent]|e];
      [|done].
    cbn [mbind result_bind]. rewrite IH.
    destruct (run st1 msgs) as [[st2 sents]|e]; [|done].
    cbn [mbind result_bind fst snd].
    by destruct (on_data st2 (timestamp_of key') obstacles')
      as [[st3 sent']|e].
Qed.

(** A call on a message with a one-coordinate timestamp. *)
Lemma on_data_window (st : State) (msg : Z * list Obstacle) :
  exists sent,
    on_data st (timestamp_of msg.1) msg.2
    = Ok (mkState (remove_old msg.1 (ground_bboxes st) ++ [entry_of msg]),
          sent)
    /\ sent
       = map (fun entry : Entry =>
                (timestamp_of msg.1,
                 ((msg.1 - entry.1)%Z,
                  avg_precision (select_person_bboxes msg.2) entry.2)))
             (List.filter (either_nonempty (select_person_bboxes msg.2))
                          (remove_old msg.1 (ground_bboxes st))).
Proof.
  eexists. split; [|reflexivity].
  rewrite (on_data_unfold is_person bounding_box get_precision_recall_at_iou
             decay_max_latency st (timestamp_of msg.1) msg.1 msg.2 eq_refl).
  rewrite <- (remove_old_evicted decay_max_latency).
  unfold DetectionDecay.entry_of.
  by rewrite (select_person_bboxes_filter is_person bounding_box).
Qed.

Lemma run_keeps_suffix (msgs : list (Z * list Obstacle)) (st : State) :
  exists st' sents,
    run st msgs = Ok (st', sents)
    /\ ground_bboxes st' `suffix_of` (ground_bboxes st ++ map entry_of msgs).
Proof.
  induction msgs as [|msg msgs IH] using rev_ind.
  - exists st, []. simpl. by rewrite app_nil_r.
  - destruct IH as (st1 & sents & Hrun & Hsuffix).
    destruct (on_data_window st1 msg) as (sent & Hcall & _).
    eexists _, (sents ++ [sent]). rewrite run_snoc, Hrun.
    cbn [mbind result_bind]. rewrite Hcall. cbn [mbind result_bind].
    split; [done|].
    cbn [ground_bboxes]. rewrite map_app, app_assoc. cbn [map].
    apply suffix_app. etrans; [|exact Hsuffix].
    apply (remove_old_suffix decay_max_latency).
Qed.

(** X6.  A run never fails on one-coordinate timestamps, sends one list of
    messages per call, and leaves in the window a suffix of what was there
    followed by the entries of the messages, in arrival order: entries are
    dropped from the front only and none is changed or moved.  The entry of
    the last message is always there, at the tail. *)
Theorem window_is_a_suffix_of_the_history (msgs : list (Z * list Obstacle))
    (st : State) :
  exists st' sents,
    run st msgs = Ok (st', sents)
    /\ length sents = length msgs
    /\ ground_bboxes st' `suffix_of` (ground_bboxes st ++ map entry_of msgs)
    /\ forall msg, last msgs = Some msg ->
                   last (ground_bboxes st') = Some (entry_of msg).
Proof.
  induction msgs as [|msg msgs IH] using rev_ind.
  - exists st, []. simpl. rewrite app_nil_r. by split_and!.
  - destruct IH as (st1 & sents & Hrun & Hlen & Hsuffix & _).
    destruct (on_data_window st1 msg) as (sent & Hcall & _).
    eexists _, (sents ++ [sent]). rewrite run_snoc, Hrun.
    cbn [mbind result_bind]. rewrite Hcall. cbn [mbind result_bind].
    split_and!; [done| | |].
    + rewrite !length_app. simpl. lia.
    + cbn [ground_bboxes]. rewrite map_app, app_assoc. cbn [map].
      apply suffix_app. etrans; [|exact Hsuffix].
      apply (remove_old_suffix decay_max_latency).
    + intros msg' Hlast. rewrite last_snoc in Hlast. injection Hlast as <-.
      cbn [ground_bboxes]. by rewrite last_snoc.
Qed.

(** Strictly increasing integers between two bounds. *)
Lemma strictly_sorted_length (l : list Z) :
  forall lo hi : Z,
    StronglySorted Z.lt l ->
    Forall (fun k => (lo <= k <= hi)%Z) l ->
    (Z.of_nat (length l) <= Z.max 0 (hi - lo + 1))%Z.
Proof.
  induction l as [|k l IH]; intros lo hi Hsorted Hin; [simpl; lia|].
  apply StronglySorted_cons in Hsorted as [Hlt Hsorted].
  apply Forall_cons in Hin as [Hk Hin].
  specialize (IH (k + 1)%Z hi Hsorted).
  cbn [length]. rewrite Nat2Z.inj_succ.
  assert (Hin' : Forall (fun k' => (k + 1 <= k' <= hi)%Z) l).
  { rewrite Forall_forall in Hlt, Hin. apply Forall_forall.
    intros k' Hk'. specialize (Hlt k' Hk'). specialize (Hin k' Hk'). lia. }
  specialize (IH Hin'). lia.
Qed.

Lemma suffix_strongly_sorted {A : Type} (R : A -> A -> Prop) (l k : list A) :
  l `suffix_of` k -> StronglySorted R k -> StronglySorted R l.
Proof.
  intros [pre ->] Hsorted. by apply StronglySorted_app in Hsorted as (_&_&?).
Qed.

Lemma strongly_sorted_weaken {A : Type} (R S : A -> A -> Prop) (l : list A) :
  (forall a b, R a b -> S a b) -> StronglySorted R l -> StronglySorted S l.
Proof.
  intros HRS. induction 1 as [|a l _ IH Hall]; constructor; [done|].
  eapply Forall_impl; [exact Hall|]. by auto.
Qed.

Lemma keys_entry_of (msgs : list (Z * list Obstacle)) :
  map fst (map entry_of msgs) = map fst msgs.
Proof. induction msgs as [|msg msgs IH]; [done|]. simpl. by rewrite IH. Qed.

(** X7.  When the game times strictly increase and the latency bound is not
    negative, the window never holds more than [decay_max_latency + 1]
    entries. *)
Theorem window_size_is_bounded (msgs : list (Z * list Obstacle)) :
  (0 <= decay_max_latency)%Z ->
  StronglySorted Z.lt (map fst msgs) ->
  exists st sents,
    run init msgs = Ok (st, sents)
    /\ (Z.of_nat (length (ground_bboxes st)) <= decay_max_latency + 1)%Z.
Proof.
  intros Hmax Hstrict.
  destruct (run_keeps_suffix msgs init) as (st & sents & Hrun & Hsuffix).
  exists st, sents. split; [done|].
  destruct msgs as [|m msgs _] using rev_ind.
  { injection Hrun as <- _. simpl. lia. }
  destruct m as [key obstacles].
  assert (Hle : StronglySorted Z.le (map fst (msgs ++ [(key, obstacles)]))).
  { revert Hstrict. apply strongly_sorted_weaken. intros. lia. }
  destruct (run_invariant is_person bounding_box get_precision_recall_at_iou
              decay_max_latency (msgs ++ [(key, obstacles)]) init [])
    as (st' & sents' & Hrun' & Hsorted & Hbound & _).
  { simpl. by rewrite app_nil_r. }
  rewrite Hrun in Hrun'. injection Hrun' as <- <-.
  destruct (Hbound key obstacles (last_snoc _ _)) as (retained & Hwin & Hret).
  rewrite app_nil_r in Hsorted.
  (* keys of the window: strictly increasing, between [key - max] and [key] *)
  assert (Hkeys : StronglySorted Z.lt (keys (ground_bboxes st))).
  { unfold keys. destruct Hsuffix as [pre Hpre]. simpl in Hpre.
    assert (Hall : StronglySorted Z.lt
                     (map fst (pre ++ ground_bboxes st))).
    { rewrite <- Hpre, keys_entry_of. exact Hstrict. }
    rewrite map_app in Hall. by apply StronglySorted_app in Hall as (_&_&?). }
  pose proof (strictly_sorted_length (keys (ground_bboxes st))
                (key - decay_max_latency) key Hkeys) as Hlen.
  unfold keys in Hlen. rewrite length_map in Hlen.
  etrans; [apply Hlen|lia].
  rewrite Hwin. unfold keys. rewrite map_app, Forall_app. split.
  - rewrite Forall_map. unfold DetectionDecay.within_bound in Hret.
    rewrite Hwin in Hsorted. unfold keys in Hsorted.
    rewrite map_app in Hsorted.
    apply StronglySorted_app in Hsorted as (Hbefore & _ & _).
    rewrite Forall_forall in Hret. apply Forall_forall.
    intros [t b] Hin. specialize (Hret (t, b) Hin). simpl in *.
    split; [lia|]. apply Hbefore.
    + apply (list_elem_of_fmap_2 fst _ (t, b)), Hin.
    + left.
  - constructor; [simpl; lia|constructor].
Qed.

Lemma no_person_selects_nothing (obstacles : list Obstacle) :
  Forall (fun obstacle => is_person obstacle = false) obstacles ->
  select_person_bboxes obstacles = [].
Proof.
  intros Hnone.
  rewrite (select_person_bboxes_filter is_person bounding_box).
  induction Hnone as [|o obstacles Ho _ IH]; [done|]. simpl. by rewrite Ho.
Qed.

Lemma run_without_persons (msgs : list (Z * list Obstacle)) :
  forall st : State,
    Forall (fun entry : Entry => entry.2 = []) (ground_bboxes st) ->
    Forall no_person msgs ->
    exists st' sents,
      run st msgs = Ok (st', sents)
      /\ Forall (fun sent => sent = []) sents
      /\ Forall (fun entry : Entry => entry.2 = []) (ground_bboxes st').
Proof.
  induction msgs as [|msg msgs IH]; intros st Hempty Hnone.
  - exists st, []. by split_and!.
  - apply Forall_cons in Hnone as [Hmsg Hnone].
    destruct msg as [key obstacles].
    destruct (on_data_window st (key, obstacles)) as (sent & Hcall & Hsent).
    cbn [fst snd] in Hcall, Hsent.
    rewrite (no_person_selects_nothing obstacles Hmsg) in Hsent.
    assert (Hkept : Forall (fun entry : Entry => entry.2 = [])
                           (remove_old key (ground_bboxes st))).
    { destruct (remove_old_suffix decay_max_latency key (ground_bboxes st))
        as [pre Hpre].
      rewrite Hpre in Hempty. by apply Forall_app in Hempty as [_ ?]. }
    assert (Hnothing : sent = []).
    { rewrite Hsent. clear Hsent Hcall.
      induction Hkept as [|[t b] window Hb _ IHw]; [done|].
      simpl in Hb. subst b. cbn [List.filter]. exact IHw. }
    destruct (IH (mkState (remove_old key (ground_bboxes st)
                           ++ [entry_of (key, obstacles)])))
      as (st' & sents & Hrun & Hsents & Hwindow); [|done|].
    { cbn [ground_bboxes]. apply Forall_app. split; [done|].
      constructor; [|constructor]. unfold DetectionDecay.entry_of.
      by apply no_person_selects_nothing. }
    exists st', (sent :: sents). rewrite run_cons, Hcall.
    cbn [mbind result_bind]. rewrite Hrun. cbn [mbind result_bind].
    split_and!; [done|by constructor|done].
Qed.

(** X8.  As long as no obstacle of the input is a person, the operator
    sends nothing: every call compares empty sets with empty sets. *)
Theorem nothing_is_sent_without_persons (msgs : list (Z * list Obstacle)) :
  Forall no_person msgs ->
  exists st sents,
    run init msgs = Ok (st, sents)
    /\ Forall (fun sent => sent = []) sents.
Proof.
  intros Hnone.
  destruct (run_without_persons msgs init) as (st & sents & Hrun & Hsents & _);
    [by constructor|done|].
  by exists st, sents.
Qed.

Lemma filter_strongly_sorted {A : Type} (R : A -> A -> Prop) (f : A -> bool)
    (l : list A) :
  StronglySorted R l -> StronglySorted R (List.filter f l).
Proof.
  induction 1 as [|a l _ IH Hall]; [constructor|]. simpl.
  destruct (f a); [|done]. constructor; [done|].
  apply Forall_forall. intros b Hb.
  apply list_elem_of_In, filter_In in Hb as [Hb _].
  rewrite Forall_forall in Hall. apply Hall. by apply list_elem_of_In.
Qed.

Lemma entries_in_key_order
    (window : list (Entry (BoundingBox := BoundingBox))) :
  StronglySorted Z.le (keys window) ->
  StronglySorted (fun a b : Entry => (a.1 <= b.1)%Z) window.
Proof.
  unfold keys.
  induction window as [|e window IH]; intros Hkeys; [constructor|].
  simpl in Hkeys. apply StronglySorted_cons in Hkeys as [Hle Hkeys].
  constructor; [by apply IH|]. by rewrite Forall_map in Hle.
Qed.

(** X9.  On a window whose keys are in non-decreasing order, the latencies
    a call reports go from the oldest retained entry to the newest: they
    never increase along the messages sent. *)
Theorem latencies_never_increase (st st' : State) (key : Z)
    (obstacles : list Obstacle) (sent : list Msg) :
  StronglySorted Z.le (keys (ground_bboxes st)) ->
  on_data st (timestamp_of key) obstacles = Ok (st', sent) ->
  StronglySorted Z.ge (latencies sent).
Proof.
  intros Hsorted Hcall.
  destruct (on_data_window st (key, obstacles)) as (sent' & Hcall' & Hsent).
  cbn [fst snd] in Hcall', Hsent. rewrite Hcall in Hcall'.
  injection Hcall' as _ <-. subst sent.
  unfold latencies. rewrite map_map. cbn [fst snd].
  assert (Hkept : StronglySorted Z.le
                    (keys (remove_old key (ground_bboxes st)))).
  { destruct (remove_old_suffix decay_max_latency key (ground_bboxes st))
      as [pre Hpre].
    rewrite Hpre in Hsorted. unfold keys in *. rewrite map_app in Hsorted.
    by apply StronglySorted_app in Hsorted as (_ & _ & ?). }
  set (window := remove_old key (ground_bboxes st)) in *.
  assert (Hfiltered :
            StronglySorted (fun a b : Entry => (a.1 <= b.1)%Z)
              (List.filter (either_nonempty (select_person_bboxes obstacles))
                           window)).
  { by apply filter_strongly_sorted, entries_in_key_order. }
  clear Hcall. induction Hfiltered as [|e l _ IH Hall]; [constructor|].
  cbn [map]. constructor; [exact IH|].
  rewrite Forall_map. eapply Forall_impl; [exact Hall|].
  intros e' He'. simpl in *. lia.
Qed.

Lemma Qsum_of_ratios (l : list Q) :
  Forall (fun q => (0 <= q <= 1)%Q) l ->
  (0 <= fold_right Qplus 0 l <= inject_Z (Z.of_nat (length l)))%Q.
Proof.
  induction 1 as [|q l Hq _ IH]; [simpl; split; apply Qle_refl|].
  cbn [fold_right length]. rewrite Nat2Z.inj_succ, <- Z.add_1_l, inject_Z_plus.
  change (inject_Z 1) with 1%Q. destruct Hq, IH. split.
  - replace 0%Q with (0 + 0)%Q by reflexivity. by apply Qplus_le_compat.
  - by apply Qplus_le_compat.
Qed.

Lemma avg_precision_is_a_ratio (bboxes old_bboxes : list BoundingBox) :
  precision_is_a_ratio ->
  (0 <= avg_precision bboxes old_bboxes <= 1)%Q.
Proof.
  intros Hratio.
  rewrite (avg_precision_averaged get_precision_recall_at_iou).
  unfold averaged_metric.
  set (l := map _ iou_thresholds).
  assert (Hl : Forall (fun q => (0 <= q <= 1)%Q) l).
  { subst l. rewrite Forall_map. apply Forall_forall. intros iou _.
    apply Hratio. }
  apply Qsum_of_ratios in Hl as [Hlo Hhi].
  assert (length l = 9%nat) as Hlen by (subst l; by rewrite length_map).
  rewrite Hlen in Hhi. change (inject_Z (Z.of_nat 9)) with 9%Q in Hhi.
  split.
  - apply Qle_shift_div_l; [reflexivity|]. by rewrite Qmult_0_l.
  - apply Qle_shift_div_r; [reflexivity|]. by rewrite Qmult_1_l.
Qed.

(** X10.  If the precision the primitive returns is always between zero and
    one, so is the averaged precision of every message a call sends. *)
Theorem sent_precision_is_a_ratio (st st' : State) (timestamp : Timestamp)
    (obstacles : list Obstacle) (sent : list Msg) :
  precision_is_a_ratio ->
  on_data st timestamp obstacles = Ok (st', sent) ->
  Forall (fun m : Msg => (0 <= m.2.2 <= 1)%Q) sent.
Proof.
  intros Hratio Hcall.
  destruct (coordinates timestamp) as [|key [|]] eqn:Hkey;
    try (unfold DetectionDecay.on_data in Hcall; by rewrite Hkey in Hcall).
  rewrite (on_data_unfold is_person bounding_box get_precision_recall_at_iou
             decay_max_latency st timestamp key obstacles Hkey) in Hcall.
  injection Hcall as _ <-. rewrite Forall_map. apply Forall_forall.
  intros entry _. cbn [snd]. by apply avg_precision_is_a_ratio.
Qed.

End DetectionDecayWindow.

(** ** The prediction evaluator: further properties *)

Section PredictionEvalAlignment.

Import PredictionEval.

Variables is_vehicle is_person : ObstaclePrediction -> bool.
Variable trajectory_to_world :
  Transform -> ObstacleTrajectory -> ObstacleTrajectory.
Variable prediction_to_world :
  Transform -> ObstaclePrediction -> ObstaclePrediction.
Variable prediction_num_future_steps : nat.

Local Abbreviation score_obstacle := (score_obstacle is_vehicle is_person).
Local Abbreviation score_predictions :=
  (score_predictions is_vehicle is_person).
Local Abbreviation _calculate_metrics :=
  (_calculate_metrics is_vehicle is_person).
Local Abbreviation unknown_class := (unknown_class is_vehicle is_person).
Local Abbreviation counted_as_person :=
  (counted_as_person is_vehicle is_person).
Local Abbreviation ground_dict := (ground_dict trajectory_to_world).
Local Abbreviation world_trajectories :=
  (world_trajectories trajectory_to_world).
Local Abbreviation on_watermark :=
  (on_watermark is_vehicle is_person trajectory_to_world prediction_to_world
                prediction_num_future_steps).
Local Abbreviation step :=
  (step is_vehicle is_person trajectory_to_world prediction_to_world
        prediction_num_future_steps).
Local Abbreviation run :=
  (run is_vehicle is_person trajectory_to_world prediction_to_world
       prediction_num_future_steps).
Local Abbreviation aligned :=
  (aligned trajectory_to_world prediction_to_world).
Local Abbreviation queues_follow :=
  (queues_follow trajectory_to_world prediction_to_world).

(** What a processed watermark took from the queues and made of it. *)
Lemma on_watermark_consumes (st st' : State) (t : Timestamp)
    (p : Processed) :
  on_watermark st t = Ok (st', Some p) ->
  exists tracking_msg prediction_msg pose,
    is_top t = false
    /\ tracking_msgs st = tracking_msg :: tracking_msgs st'
    /\ prediction_msgs st = prediction_msg :: prediction_msgs st'
    /\ pose_msgs st = pose :: pose_msgs st'
    /\ appended p
       = map (prediction_to_world (transform pose)) prediction_msg
    /\ forall call,
         scored p = Some call ->
         call_timestamp call = t
         /\ call_ground call = ground_dict (transform pose) tracking_msg.
Proof.
  unfold PredictionEval.on_watermark.
  destruct (is_top t); [discriminate|].
  destruct (tracking_msgs st) as [|tm tms]; [discriminate|].
  destruct (prediction_msgs st) as [|pm pms]; [discriminate|].
  destruct (pose_msgs st) as [|pose poses]; [discriminate|].
  cbn [popleft mbind result_bind].
  destruct (_ =? _)%nat.
  - destruct (index_from_start _ _) as [oldest|]; [|discriminate].
    cbn [mbind result_bind].
    destruct (PredictionEval._calculate_metrics _ _ _ _ _) as [rows|e];
      [|discriminate].
    cbn [mbind result_bind]. intros [= <- <-]. exists tm, pm, pose.
    split_and!; try done. by intros call [= <-].
  - cbn [mbind result_bind]. intros [= <- <-]. exists tm, pm, pose.
    split_and!; try done.
Qed.

(** X11.  A watermark that is not top takes one message from the head of
    each of the three queues; when one of them is empty it raises
    [IndexError]. *)
Theorem watermark_takes_one_of_each (st : State) (t : Timestamp) :
  is_top t = false ->
  (tracking_msgs st = [] \/ prediction_msgs st = [] \/ pose_msgs st = [] ->
   on_watermark st t = Raise IndexError)
  /\ (forall st' p,
        on_watermark st t = Ok (st', p) ->
        exists tracking_msg prediction_msg pose,
          tracking_msgs st = tracking_msg :: tracking_msgs st'
          /\ prediction_msgs st = prediction_msg :: prediction_msgs st'
          /\ pose_msgs st = pose :: pose_msgs st').
Proof.
  intros Htop. split.
  - unfold PredictionEval.on_watermark. rewrite Htop.
    destruct (tracking_msgs st) as [|tm tms]; [done|].
    destruct (prediction_msgs st) as [|pm pms]; [done|].
    destruct (pose_msgs st) as [|pose poses]; [done|].
    intros [|[|]]; discriminate.
  - intros st' [p|] Hcall.
    + apply on_watermark_consumes in Hcall
        as (tm & pm & pose & _ & ? & ? & ? & _).
      by exists tm, pm, pose.
    + apply (on_watermark_top is_vehicle is_person trajectory_to_world
               prediction_to_world prediction_num_future_steps)
        in Hcall as [Htop' _]. congruence.
Qed.

Lemma aligned_later (evs : list Event) (ev : Event) (k : nat)
    (p : Processed) :
  aligned evs k p -> aligned (evs ++ [ev]) k p.
Proof.
  intros (pose & pm & tm & t & Hpose & Hpm & Htm & Ht & Happ & Hcall).
  exists pose, pm, tm, t.
  unfold pose_data, prediction_data, tracking_data, watermark_timestamps.
  rewrite !flat_map_app.
  split_and!; try (by apply lookup_app_l_Some); done.
Qed.

Lemma drop_snoc_le {A : Type} (n : nat) (l : list A) (a : A) :
  (n <= length l)%nat -> drop n (l ++ [a]) = drop n l ++ [a].
Proof. intros Hn. by rewrite drop_app_le. Qed.

Lemma drop_head {A : Type} (n : nat) (l rest : list A) (a : A) :
  a :: rest = drop n l ->
  l !! n = Some a /\ rest = drop (S n) l /\ (S n <= length l)%nat.
Proof.
  intros Hdrop.
  assert (Hlook : l !! n = Some a).
  { rewrite <- (Nat.add_0_r n), <- lookup_drop, <- Hdrop. done. }
  split_and!; [done| |by apply lookup_lt_Some in Hlook].
  rewrite <- (Nat.add_1_r n), <- drop_drop, <- Hdrop. done.
Qed.

Lemma run_queues (evs : list Event) :
  forall st log,
    run init evs = Ok (st, log) -> queues_follow evs st log.
Proof.
  induction evs as [|ev evs IH] using rev_ind; intros st log Hrun.
  { injection Hrun as <- <-. unfold queues_follow. simpl.
    split_and!; try done. }
  rewrite (run_app is_vehicle is_person trajectory_to_world
             prediction_to_world prediction_num_future_steps) in Hrun.
  apply bind_ok_inv in Hrun as ([st1 log1] & Hrun1 & Hrun).
  destruct (IH st1 log1 Hrun1)
    as (Hpn & Hpose & Hqn & Hpred & Htn & Htrack & Hwn & Hold).
  clear IH Hrun1. cbn [PredictionEval.run] in Hrun.
  apply bind_ok_inv in Hrun as ([st2 log2] & Hrun2 & Hrun).
  apply bind_ok_inv in Hrun2 as ([st3 entry] & Hstep & Hrun2).
  injection Hrun2 as <- <-. injection Hrun as <- <-. rewrite app_nil_r.
  unfold queues_follow.
  unfold pose_data, prediction_data, tracking_data, watermark_timestamps.
  rewrite !flat_map_app. cbn [flat_map]. rewrite !app_nil_r.
  fold (pose_data evs) (prediction_data evs) (tracking_data evs)
       (watermark_timestamps evs).
  assert (Haligned : forall k p, log1 !! k = Some p ->
                                 aligned (evs ++ [ev]) k p).
  { intros k p Hk. by apply aligned_later, Hold. }
  destruct ev as [d|t]; cbn [PredictionEval.step] in Hstep.
  - apply bind_ok_inv in Hstep as (st' & Hdata & [= <- <-]).
    change (option_list None) with (@nil Processed). rewrite app_nil_r.
    destruct d as [d|d|d|]; simpl in Hdata; [| | |discriminate];
      injection Hdata as <-; cbn [pose_msgs prediction_msgs tracking_msgs];
      rewrite ?app_nil_r, ?length_app; cbn [length];
      rewrite ?drop_snoc_le by done;
      rewrite Hpose, Hpred, Htrack; split_and!; try done; lia.
  - destruct entry as [p|].
    + apply on_watermark_consumes in Hstep
        as (tm & pm & pose & Htop & Htm & Hpm & Hposem & Happ & Hcall).
      change (option_list (Some p)) with [p]. rewrite Htop.
      rewrite !app_nil_r, !length_app. cbn [length].
      rewrite Hpose in Hposem. rewrite Hpred in Hpm. rewrite Htrack in Htm.
      symmetry in Hposem, Hpm, Htm.
      apply drop_head in Hposem as (Hpose_k & Hpose' & Hpn').
      apply drop_head in Hpm as (Hpred_k & Hpred' & Hqn').
      apply drop_head in Htm as (Htrack_k & Htrack' & Htn').
      replace (length log1 + 1)%nat with (S (length log1)) by lia.
      split_and!; try done; [lia|].
      intros k q Hk. apply lookup_app_Some in Hk as [Hk|[Hge Hk]];
        [by apply Haligned|].
      apply list_lookup_singleton_Some in Hk as [Hk <-].
      assert (k = length log1) as -> by lia.
      exists pose, pm, tm, t.
      unfold pose_data, prediction_data, tracking_data, watermark_timestamps.
      rewrite !flat_map_app. cbn [flat_map]. rewrite Htop, !app_nil_r.
      fold (pose_data evs) (prediction_data evs) (tracking_data evs)
           (watermark_timestamps evs).
      split_and!; try done.
      rewrite <- Hwn. by rewrite list_lookup_middle.
    + apply (on_watermark_top is_vehicle is_person trajectory_to_world
               prediction_to_world prediction_num_future_steps)
        in Hstep as [Htop ->].
      change (option_list None) with (@nil Processed).
      rewrite Htop, !app_nil_r. by split_and!.
Qed.

(** X12.  The queues are first in, first out and one message of each is
    taken per watermark: in a run from the initial state the [k]-th
    processed watermark appends the [k]-th prediction batch delivered,
    converted with the [k]-th pose delivered, and a scoring pass it makes
    uses the [k]-th tracking message delivered and that pose; what the
    queues hold at the end are the messages delivered after those. *)
Theorem watermarks_align_the_streams (evs : list Event) (st : State)
    (log : list Processed) :
  run init evs = Ok (st, log) ->
  (forall k p, log !! k = Some p -> aligned evs k p)
  /\ pose_msgs st = drop (length log) (pose_data evs)
  /\ prediction_msgs st = drop (length log) (prediction_data evs)
  /\ tracking_msgs st = drop (length log) (tracking_data evs).
Proof.
  intros Hrun.
  destruct (run_queues evs st log Hrun)
    as (_ & Hpose & _ & Hpred & _ & Htrack & _ & Haligned).
  by split_and!.
Qed.

(** X13.  The order in which the scoring of one obstacle fails: a missing
    ground trajectory raises [KeyError] before the class is looked at; an
    unknown class raises [ValueError] before any point is read; then an
    empty predicted trajectory raises [ZeroDivisionError] and a ground
    trajectory shorter than the predicted one raises [IndexError]; in every
    other case the obstacle is scored. *)
Theorem score_obstacle_failure_order (ground : gmap Z ObstacleTrajectory)
    (m : Metrics) (o : ObstaclePrediction) :
  match ground !! prediction_id o with
  | None => score_obstacle ground m o = Raise KeyError
  | Some g =>
      if unknown_class o then score_obstacle ground m o = Raise ValueError
      else if (length (predicted_trajectory o) =? 0)%nat
      then score_obstacle ground m o = Raise ZeroDivisionError
      else if (length (trajectory g) <? length (predicted_trajectory o))%nat
      then score_obstacle ground m o = Raise IndexError
      else is_ok (score_obstacle ground m o) = true
  end.
Proof.
  unfold PredictionEval.score_obstacle, PredictionEval.unknown_class,
    PredictionEval.count_obstacle, PredictionEval.add_errors.
  destruct (ground !! prediction_id o) as [g|]; [|done].
  set (predicted := map to_vector2D (predicted_trajectory o)).
  set (track := map to_vector2D (trajectory g)).
  assert (Hp : length predicted = length (predicted_trajectory o))
    by apply length_map.
  assert (Hg : length track = length (trajectory g)) by apply length_map.
  rewrite <- Hp, <- Hg.
  destruct (is_vehicle o) eqn:Hv, (is_person o) eqn:Hperson;
    cbn [negb andb mbind result_bind]; try done;
    (destruct (Nat.eqb_spec (length predicted) 0) as [Hzero|Hpos];
     [ apply length_zero_iff_nil in Hzero; rewrite Hzero;
       by rewrite displacement_errors_empty
     | destruct (Nat.ltb_spec (length track) (length predicted))
         as [Hshort|Hlong];
       [ by rewrite displacement_errors_short
       | assert (Hne : predicted <> [])
           by (intros Hnil; apply Hpos; by rewrite Hnil);
         destruct (displacement_errors_ok predicted track Hne Hlong)
           as (msd & ade & fde & -> & _); done ] ]).
Qed.

(** X14.  The dictionary of ground trajectories maps an identifier to the
    last trajectory of the tracking message that carries it, in world
    coordinates, and holds nothing under an identifier no trajectory
    carries. *)
Theorem ground_dict_holds_the_last_trajectory (vehicle_transform : Transform)
    (tracking_msg : ObstacleTrajectoriesMessageTuple) (i : Z) :
  ground_dict vehicle_transform tracking_msg !! i
  = last (world_trajectories vehicle_transform tracking_msg i).
Proof.
  unfold PredictionEval.ground_dict, PredictionEval.world_trajectories.
  induction (obstacle_trajectories tracking_msg) as [|ot ots IH]
    using rev_ind; [done|].
  rewrite fold_left_app, map_app, List.filter_app. cbn [fold_left map].
  cbn [List.filter].
  destruct (decide (trajectory_id (trajectory_to_world vehicle_transform ot)
                    = i)) as [Heq|Hne].
  - rewrite bool_decide_eq_true_2 by done. rewrite last_snoc.
    by rewrite Heq, lookup_insert_eq.
  - rewrite bool_decide_eq_false_2 by done.
    rewrite app_nil_r, lookup_insert_ne by done. exact IH.
Qed.

Lemma count_is_positive (n : nat) :
  (0 < n)%nat -> (0 < inject_Z (Z.of_nat n))%Q.
Proof.
  intros Hn. change 0%Q with (inject_Z 0). rewrite <- Zlt_Qlt. lia.
Qed.

Lemma exists_filter_length {A : Type} (f : A -> bool) (l : list A) :
  Exists (fun a => f a = true) l -> (0 < length (List.filter f l))%nat.
Proof.
  induction 1 as [a l Ha|a l _ IH]; simpl.
  - rewrite Ha. simpl. lia.
  - destruct (f a); simpl; lia.
Qed.

Lemma log_metrics_weighted (sim_time : Z) (m : Metrics) :
  (0 < person_cnt m)%nat ->
  (0 < vehicle_cnt m)%nat ->
  let rows := log_metrics sim_time m in
  weighted_mean rows "MSD" (person_cnt m) (vehicle_cnt m)
  /\ weighted_mean rows "ADE" (person_cnt m) (vehicle_cnt m)
  /\ weighted_mean rows "FDE" (person_cnt m) (vehicle_cnt m).
Proof.
  intros Hp Hv rows. subst rows. unfold log_metrics, class_rows.
  destruct (Nat.ltb_spec 0 (person_cnt m + vehicle_cnt m)) as [_|]; [|lia].
  destruct (Nat.ltb_spec 0 (person_cnt m)) as [_|]; [|lia].
  destruct (Nat.ltb_spec 0 (vehicle_cnt m)) as [_|]; [|lia].
  pose proof (count_is_positive _ Hp) as HP.
  pose proof (count_is_positive _ Hv) as HV.
  assert (Hsum : (inject_Z (Z.of_nat (person_cnt m + vehicle_cnt m))
                  == inject_Z (Z.of_nat (person_cnt m))
                     + inject_Z (Z.of_nat (vehicle_cnt m)))%Q).
  { by rewrite Nat2Z.inj_add, inject_Z_plus. }
  set (P := inject_Z (Z.of_nat (person_cnt m))) in *.
  set (V := inject_Z (Z.of_nat (vehicle_cnt m))) in *.
  set (PV := inject_Z (Z.of_nat (person_cnt m + vehicle_cnt m))) in *.
  assert (HPV : (0 < PV)%Q) by (rewrite Hsum; lra).
  assert (Hpv : forall a : Q, (a / PV * PV == a)%Q)
    by (intros a; field; intros Hz; rewrite Hz in HPV; lra).
  assert (Hp' : forall a : Q, (a / P * P == a)%Q)
    by (intros a; field; intros Hz; rewrite Hz in HP; lra).
  assert (Hv' : forall a : Q, (a / V * V == a)%Q)
    by (intros a; field; intros Hz; rewrite Hz in HV; lra).
  split_and!; do 3 eexists;
    (split_and!; [reflexivity|reflexivity|reflexivity|]);
    cbn [snd]; fold P V PV; by rewrite Hpv, Hp', Hv'.
Qed.

(** X15.  When a scored batch holds vehicles and persons, each overall mean
    logged (MSD, ADE, FDE) is the mean of the two class means weighted by
    the numbers of persons and vehicles. *)
Theorem overall_mean_is_the_weighted_mean (timestamp : Timestamp)
    (ground : gmap Z ObstacleTrajectory)
    (predictions : list ObstaclePrediction) (rows : list CsvRow) :
  _calculate_metrics timestamp ground predictions = Ok rows ->
  Exists (fun o => is_vehicle o = true) predictions ->
  Exists (fun o => counted_as_person o = true) predictions ->
  let persons := length (List.filter counted_as_person predictions) in
  let vehicles := length (List.filter is_vehicle predictions) in
  weighted_mean rows "MSD" persons vehicles
  /\ weighted_mean rows "ADE" persons vehicles
  /\ weighted_mean rows "FDE" persons vehicles.
Proof.
  intros Hcall Hvehicle Hperson persons vehicles.
  unfold PredictionEval._calculate_metrics in Hcall.
  apply bind_ok_inv in Hcall as (m & Hscore & Hrows).
  destruct (coordinates timestamp) as [|sim_time rest]; [discriminate|].
  injection Hrows as <-.
  apply (score_predictions_from is_vehicle is_person) in Hscore
    as (_ & Hv & Hp).
  simpl in Hv, Hp. fold vehicles in Hv. fold persons in Hp.
  rewrite <- Hv, <- Hp. apply log_metrics_weighted.
  - rewrite Hp. by apply exists_filter_length.
  - rewrite Hv. by apply exists_filter_length.
Qed.

End PredictionEvalAlignment.

(** ** The prediction evaluator: signs and sizes of the errors *)

Section TrajectoryErrorBounds.

Import PredictionEval.

Lemma l1_distance_nonneg (p g : Vector2D) : (0 <= l1_distance p g)%Q.
Proof.
  unfold l1_distance.
  pose proof (Qabs_nonneg (vx p - vx g)).
  pose proof (Qabs_nonneg (vy p - vy g)). lra.
Qed.

Lemma square_nonneg (a : Q) : (0 <= a * a)%Q.
Proof.
  destruct (Qlt_le_dec a 0) as [Hneg|Hpos].
  - assert (Heq : (a * a == (- a) * (- a))%Q) by ring.
    rewrite Heq. apply Qmult_le_0_compat; lra.
  - by apply Qmult_le_0_compat.
Qed.

Lemma l2_distance_nonneg (p g : Vector2D) : (0 <= l2_distance p g)%Q.
Proof.
  unfold l2_distance.
  pose proof (square_nonneg (vx p - vx g)).
  pose proof (square_nonneg (vy p - vy g)). lra.
Qed.

Lemma Qsum_nonneg (l : list Q) :
  Forall (fun q => (0 <= q)%Q) l -> (0 <= Qsum l)%Q.
Proof.
  induction 1 as [|q l Hq _ IH]; simpl; [apply Qle_refl|].
  fold (Qsum l). lra.
Qed.

(** X16.  The errors the scorer returns are not negative, and the final
    displacement error is at most the sum of the displacement errors of all
    pairs, that is the average displacement error times the number of
    predicted points. *)
Theorem errors_are_not_negative (predicted ground : list Vector2D)
    (msd ade fde : Q) :
  displacement_errors predicted ground = Ok (msd, ade, fde) ->
  (0 <= msd)%Q /\ (0 <= ade)%Q /\ (0 <= fde)%Q
  /\ (fde <= inject_Z (Z.of_nat (length predicted)) * ade)%Q.
Proof.
  intros Hcall.
  destruct predicted as [|p0 predicted'] eqn:Hpred;
    [by rewrite displacement_errors_empty in Hcall|].
  rewrite <- Hpred in *.
  assert (Hne : predicted <> []) by (by rewrite Hpred).
  destruct (Nat.ltb_spec (length ground) (length predicted)) as [Hshort|Hlong];
    [by rewrite displacement_errors_short in Hcall|].
  destruct (displacement_errors_unfold predicted ground Hne Hlong)
    as (p & g & Hp & Hg & Hunfold).
  rewrite Hunfold in Hcall. cbv zeta in Hcall.
  injection Hcall as <- <- <-.
  set (pairs := zip (reverse predicted) (reverse ground)).
  destruct (add_pair_sums pairs (0%Q, 0%Q)) as [Hl2 Hl1].
  cbn [fst snd] in Hl2, Hl1.
  set (n := inject_Z (Z.of_nat (length predicted))).
  assert (Hn : (0 < n)%Q).
  { subst n. change 0%Q with (inject_Z 0). rewrite <- Zlt_Qlt.
    rewrite Hpred. simpl. lia. }
  assert (Hsq : (0 <= Qsum (map (fun pg => l2_distance pg.1 pg.2) pairs))%Q).
  { apply Qsum_nonneg, Forall_map, Forall_forall. intros pg _.
    apply l2_distance_nonneg. }
  assert (Hfirst : exists rest, pairs = (p, g) :: rest).
  { subst pairs. rewrite <- head_reverse in Hp, Hg.
    destruct (reverse predicted) as [|p' rp]; [done|].
    destruct (reverse ground) as [|g' rg]; [done|].
    simpl in Hp, Hg. injection Hp as ->. injection Hg as ->. by eexists. }
  destruct Hfirst as [rest Hpairs].
  assert (Hrest : (0 <= Qsum (map (fun pg => l1_distance pg.1 pg.2) rest))%Q).
  { apply Qsum_nonneg, Forall_map, Forall_forall. intros pg _.
    apply l1_distance_nonneg. }
  rewrite Hpairs in Hl1. cbn [map Qsum fold_right fst snd] in Hl1.
  fold (Qsum (map (fun pg => l1_distance pg.1 pg.2) rest)) in Hl1.
  rewrite <- Hpairs in Hl1.
  pose proof (l1_distance_nonneg p g) as Hfde.
  set (s2 := (fold_left add_pair pairs (0%Q, 0%Q)).1) in *.
  set (s1 := (fold_left add_pair pairs (0%Q, 0%Q)).2) in *.
  assert (Hs1 : (l1_distance p g <= s1)%Q) by (rewrite Hl1; lra).
  assert (Hs2 : (0 <= s2)%Q) by (rewrite Hl2; lra).
  split_and!.
  - apply Qle_shift_div_l; [done|]. by rewrite Qmult_0_l.
  - apply Qle_shift_div_l; [done|]. rewrite Qmult_0_l. lra.
  - done.
  - assert (Heq : (n * (s1 / n) == s1)%Q) by (field; lra).
    by rewrite Heq.
Qed.

End TrajectoryErrorBounds.

(** ** The detection runner: the camera callbacks *)

Section CameraRunnerFacts.

Import CameraRunner.

Context {SimulatorImage Setup CameraFrame DepthFrame SegmentedFrame : Type}.
Variable game_time_of : SimulatorImage -> Z.
Variable camera_type : Setup -> string.
Variables rgb_camera_setup depth_camera_setup seg_camera_setup
          left_camera_setup right_camera_setup : Setup.
Variable camera_frame : SimulatorImage -> Setup -> CameraFrame.
Variable depth_frame : SimulatorImage -> Setup -> bool -> DepthFrame.
Variable segmented_frame : SimulatorImage -> Setup -> SegmentedFrame.
Variable visualize_depth_camera : bool.

Local Abbreviation callback :=
  (callback game_time_of camera_type rgb_camera_setup depth_camera_setup
            seg_camera_setup left_camera_setup right_camera_setup
            camera_frame depth_frame segmented_frame visualize_depth_camera).
Local Abbreviation run :=
  (run game_time_of camera_type rgb_camera_setup depth_camera_setup
       seg_camera_setup left_camera_setup right_camera_setup
       camera_frame depth_frame segmented_frame visualize_depth_camera).

Lemma sent_on_app (s : IngestStream)
    (l k : Sent (CameraFrame := CameraFrame) (DepthFrame := DepthFrame)
                (SegmentedFrame := SegmentedFrame)) :
  sent_on s (l ++ k) = sent_on s l ++ sent_on s k.
Proof. unfold sent_on. by rewrite List.filter_app, map_app. Qed.

Lemma run_cons_event (ev : CameraEvent) (evs : list CameraEvent) :
  run (ev :: evs) = callback ev ++ run evs.
Proof. reflexivity. Qed.

(** X17.  Both the depth callback and the segmentation callback test the
    camera type of the depth setup, against different names: whatever
    images arrive, frames are never sent on both the depth stream and the
    segmentation stream. *)
Theorem depth_and_segmentation_exclude_each_other
    (evs : list CameraEvent) :
  sent_on depth_camera (run evs) = []
  \/ sent_on seg_camera (run evs) = [].
Proof.
  destruct (String.eqb (camera_type depth_camera_setup)
                       "sensor.camera.depth") eqn:Hdepth.
  - right. apply String.eqb_eq in Hdepth.
    induction evs as [|ev evs IH]; [done|].
    rewrite run_cons_event, sent_on_app, IH, app_nil_r.
    destruct ev; cbn [CameraRunner.callback];
      unfold process_rgb_images, process_depth_images,
        process_seg_images, process_left_images, process_right_images;
      rewrite ?Hdepth;
      destruct (String.eqb (camera_type rgb_camera_setup)
                           "sensor.camera.rgb"); reflexivity.
  - left. induction evs as [|ev evs IH]; [done|].
    rewrite run_cons_event, sent_on_app, IH, app_nil_r.
    destruct ev; cbn [CameraRunner.callback];
      unfold process_rgb_images, process_depth_images,
        process_seg_images, process_left_images, process_right_images;
      rewrite ?Hdepth;
      destruct (String.eqb (camera_type rgb_camera_setup)
                           "sensor.camera.rgb");
      destruct (String.eqb (camera_type depth_camera_setup)
                           "sensor.camera.semantic_segmentation");
      reflexivity.
Qed.

(** X18.  Whatever images arrive, on the left and right streams every
    frame is followed at once by the watermark of its timestamp, and on the
    rgb, depth and segmentation streams no watermark is ever sent; nothing
    is sent on the stream [ttd]. *)
Theorem watermarks_close_stereo_frames_only (evs : list CameraEvent) :
  frames_closed (sent_on left_camera (run evs))
  /\ frames_closed (sent_on right_camera (run evs))
  /\ Forall (fun m => is_watermark m = false)
            (sent_on rgb_camera (run evs)
             ++ sent_on depth_camera (run evs)
             ++ sent_on seg_camera (run evs))
  /\ sent_on ttd (run evs) = [].
Proof.
  induction evs as [|ev evs (Hleft & Hright & Hother & Httd)].
  - split_and!; [by exists []|by exists []|constructor|done].
  - rewrite run_cons_event, !sent_on_app.
    destruct Hleft as [lf Hlf], Hright as [rf Hrf].
    rewrite Hlf, Hrf, Httd.
    apply Forall_app in Hother as [Hrgb Hother].
    apply Forall_app in Hother as [Hdepth Hseg].
    destruct ev as [img|img|img|img|img]; cbn [CameraRunner.callback];
      unfold process_rgb_images, process_depth_images,
        process_seg_images, process_left_images, process_right_images;
      destruct (String.eqb (camera_type rgb_camera_setup)
                           "sensor.camera.rgb");
      destruct (String.eqb (camera_type depth_camera_setup)
                           "sensor.camera.depth");
      destruct (String.eqb (camera_type depth_camera_setup)
                           "sensor.camera.semantic_segmentation");
      cbn [sent_on List.filter map fst snd stream_eqb app];
      (split_and!;
       [ first [ by exists lf
               | by eexists ((_, _) :: lf) ]
       | first [ by exists rf
               | by eexists ((_, _) :: rf) ]
       | repeat first [rewrite Forall_cons | rewrite Forall_app];
         by repeat split
       | done ]).
Qed.

End CameraRunnerFacts.

(** ** Instances of the further properties at concrete inputs *)

Lemma release_sends_latest_offer_witness :
  let pcs : list LidarDriver.Example.SimulatorPC :=
    [(7%Z, [1%Z]); (8%Z, [5%Z]); (7%Z, [2%Z])] in
  let pc : LidarDriver.Example.SimulatorPC := (7%Z, [2%Z]) in
  LidarDriver.release_data LidarDriver.Example.init = false
  /\ Forall (fun pc' => (0 < LidarDriver.Example.raw_data_len pc')%nat) pcs
  /\ last (List.filter
             (LidarDriver.same_game_time LidarDriver.Example.game_time_of pc)
             pcs) = Some pc
  /\ exists st',
       LidarDriver.Example.on_watermark
         (LidarDriver.Example.run LidarDriver.Example.init
            (map LidarDriver.PointCloudCallback pcs)).1
         (timestamp_of 7)
       = Ok (st', [(LidarDriver.LeftStream,
                    LidarDriver.PickledMessage (timestamp_of 7)
                                               [128%Z; 2%Z]);
                   (LidarDriver.LeftStream,
                    LidarDriver.WatermarkMessage (timestamp_of 7))]).
Proof.
  assert (H1 : LidarDriver.release_data LidarDriver.Example.init = false)
    by reflexivity.
  assert (H2 : Forall
                 (fun pc' => (0 < LidarDriver.Example.raw_data_len pc')%nat)
                 [(7%Z, [1%Z]); (8%Z, [5%Z]); (7%Z, [2%Z])]).
  { repeat constructor. }
  assert (H3 : last (List.filter
                       (LidarDriver.same_game_time
                          LidarDriver.Example.game_time_of (7%Z, [2%Z]))
                       [(7%Z, [1%Z]); (8%Z, [5%Z]); (7%Z, [2%Z])])
               = Some (7%Z, [2%Z])) by reflexivity.
  split; [exact H1|]. split; [exact H2|]. split; [exact H3|].
  exact (release_sends_latest_offer
           LidarDriver.Example.game_time_of LidarDriver.Example.raw_data_len
           LidarDriver.Example.from_simulator_point_cloud
           LidarDriver.Example.pickle_dumps
           LidarDriver.Example.init _ (7%Z, [2%Z]) H1 H2 H3).
Defined.

Lemma immediate_offer_cannot_be_released_witness :
  let st := LidarDriver.mkState (∅ : gmap Timestamp (list Z)) true in
  let pc : LidarDriver.Example.SimulatorPC := (7%Z, [1%Z]) in
  LidarDriver.release_data st = true
  /\ (0 < LidarDriver.Example.raw_data_len pc)%nat
  /\ LidarDriver.pickled_messages st !! timestamp_of 7 = None
  /\ exists sent,
       LidarDriver.Example.process_point_clouds st pc = Ok (st, sent)
       /\ LidarDriver.payload_count sent = 1%nat
       /\ LidarDriver.Example.on_watermark st (timestamp_of 7)
          = Raise KeyError.
Proof.
  assert (H2 : (0 < LidarDriver.Example.raw_data_len (7%Z, [1%Z]))%nat)
    by (unfold LidarDriver.Example.raw_data_len; simpl; lia).
  split; [reflexivity|]. split; [exact H2|]. split; [reflexivity|].
  exact (immediate_offer_cannot_be_released
           LidarDriver.Example.game_time_of LidarDriver.Example.raw_data_len
           LidarDriver.Example.from_simulator_point_cloud
           LidarDriver.Example.pickle_dumps
           (LidarDriver.mkState ∅ true) (7%Z, [1%Z]) eq_refl H2 eq_refl).
Defined.

Lemma eviction_keeps_the_entries_in_bound_witness :
  let window : list (Z * list Z) :=
    [(0%Z, [1%Z]); (50%Z, []); (120%Z, [1%Z])] in
  StronglySorted Z.le (DetectionDecay.keys window)
  /\ DetectionDecay.remove_old 100 130 window
     = List.filter (DetectionDecay.within_latency 100 130) window.
Proof.
  assert (H : StronglySorted Z.le
                (DetectionDecay.keys
                   [(0%Z, [1%Z]); (50%Z, @nil Z); (120%Z, [1%Z])]))
    by (unfold DetectionDecay.keys; simpl; repeat constructor; lia).
  split; [exact H|].
  exact (eviction_keeps_the_entries_in_bound 100 130 _ H).
Defined.

Lemma window_size_is_bounded_witness :
  let msgs := [(0%Z, [(true, 1%Z)]); (50%Z, [(true, 1%Z)]);
               (120%Z, [(true, 3%Z)]); (260%Z, [(true, 1%Z)])] in
  (0 <= DetectionDecay.Example.decay_max_latency)%Z
  /\ StronglySorted Z.lt (map fst msgs)
  /\ exists st sents,
       DetectionDecay.Example.run DetectionDecay.Example.init msgs
         = Ok (st, sents)
       /\ (Z.of_nat (length (DetectionDecay.ground_bboxes st))
           <= DetectionDecay.Example.decay_max_latency + 1)%Z.
Proof.
  assert (H1 : (0 <= DetectionDecay.Example.decay_max_latency)%Z)
    by (unfold DetectionDecay.Example.decay_max_latency; lia).
  assert (H2 : StronglySorted Z.lt [0; 50; 120; 260]%Z)
    by (repeat constructor; lia).
  split; [exact H1|]. split; [exact H2|].
  exact (window_size_is_bounded
           DetectionDecay.Example.is_person
           DetectionDecay.Example.bounding_box
           DetectionDecay.Example.get_precision_recall_at_iou
           DetectionDecay.Example.decay_max_latency
           [(0%Z, [(true, 1%Z)]); (50%Z, [(true, 1%Z)]);
            (120%Z, [(true, 3%Z)]); (260%Z, [(true, 1%Z)])] H1 H2).
Defined.

Lemma nothing_is_sent_without_persons_witness :
  let msgs : list (Z * list DetectionDecay.Example.Obstacle) :=
    [(0%Z, [(false, 1%Z)]); (10%Z, []); (20%Z, [(false, 2%Z); (false, 3%Z)])] in
  Forall (DetectionDecay.no_person DetectionDecay.Example.is_person) msgs
  /\ exists st sents,
       DetectionDecay.Example.run DetectionDecay.Example.init msgs
         = Ok (st, sents)
       /\ Forall (fun sent => sent = []) sents.
Proof.
  assert (H : Forall
                (DetectionDecay.no_person DetectionDecay.Example.is_person)
                [(0%Z, [(false, 1%Z)]); (10%Z, []);
                 (20%Z, [(false, 2%Z); (false, 3%Z)])])
    by (repeat constructor).
  split; [exact H|].
  exact (nothing_is_sent_without_persons
           DetectionDecay.Example.is_person
           DetectionDecay.Example.bounding_box
           DetectionDecay.Example.get_precision_recall_at_iou
           DetectionDecay.Example.decay_max_latency _ H).
Defined.

Lemma latencies_never_increase_witness :
  let st := DetectionDecay.mkState [(0%Z, [1%Z]); (50%Z, []); (120%Z, [1%Z])] in
  let st' := DetectionDecay.mkState
               [(50%Z, []); (120%Z, [1%Z]); (130%Z, [1%Z])] in
  let sent := [(timestamp_of 130, (80%Z, (0 # 9)%Q));
               (timestamp_of 130, (10%Z, (9 # 9)%Q))] in
  StronglySorted Z.le (DetectionDecay.keys (DetectionDecay.ground_bboxes st))
  /\ DetectionDecay.Example.on_data st (timestamp_of 130)
       [(true, 1%Z); (false, 2%Z)] = Ok (st', sent)
  /\ StronglySorted Z.ge (DetectionDecay.latencies sent).
Proof.
  assert (H1 : StronglySorted Z.le
                 (DetectionDecay.keys
                    [(0%Z, [1%Z]); (50%Z, @nil Z); (120%Z, [1%Z])]))
    by (unfold DetectionDecay.keys; simpl; repeat constructor; lia).
  assert (H2 : DetectionDecay.Example.on_data
                 (DetectionDecay.mkState
                    [(0%Z, [1%Z]); (50%Z, []); (120%Z, [1%Z])])
                 (timestamp_of 130) [(true, 1%Z); (false, 2%Z)]
               = Ok (DetectionDecay.mkState
                       [(50%Z, []); (120%Z, [1%Z]); (130%Z, [1%Z])],
                     [(timestamp_of 130, (80%Z, (0 # 9)%Q));
                      (timestamp_of 130, (10%Z, (9 # 9)%Q))]))
    by (vm_compute; reflexivity).
  split; [exact H1|]. split; [exact H2|].
  exact (latencies_never_increase
           DetectionDecay.Example.is_person
           DetectionDecay.Example.bounding_box
           DetectionDecay.Example.get_precision_recall_at_iou
           DetectionDecay.Example.decay_max_latency
           (DetectionDecay.mkState
              [(0%Z, [1%Z]); (50%Z, []); (120%Z, [1%Z])])
           _ 130%Z _ _ H1 H2).
Defined.

(** The example primitive returns ratios of a count to a count that is not
    smaller. *)
Lemma example_precision_is_a_ratio :
  DetectionDecay.precision_is_a_ratio
    DetectionDecay.Example.get_precision_recall_at_iou.
Proof.
  intros bboxes old_bboxes iou.
  unfold DetectionDecay.Example.get_precision_recall_at_iou. cbn [fst].
  set (tp := length (List.filter _ bboxes)).
  assert (Htp : (tp <= length bboxes)%nat) by apply filter_length_le.
  unfold DetectionDecay.Example.ratio.
  destruct (length bboxes) as [|n] eqn:Hn; [split; [apply Qle_refl|done]|].
  assert (Hd : (0 < inject_Z (Z.of_nat (S n)))%Q).
  { change 0%Q with (inject_Z 0). rewrite <- Zlt_Qlt. lia. }
  split.
  - apply Qle_shift_div_l; [done|]. rewrite Qmult_0_l.
    change 0%Q with (inject_Z 0). rewrite <- Zle_Qle. lia.
  - apply Qle_shift_div_r; [done|]. rewrite Qmult_1_l.
    rewrite <- Zle_Qle. lia.
Qed.

Lemma sent_precision_is_a_ratio_witness :
  let st := DetectionDecay.mkState [(0%Z, [1%Z]); (50%Z, []); (120%Z, [1%Z])] in
  let st' := DetectionDecay.mkState
               [(50%Z, []); (120%Z, [1%Z]); (130%Z, [1%Z])] in
  let sent := [(timestamp_of 130, (80%Z, (0 # 9)%Q));
               (timestamp_of 130, (10%Z, (9 # 9)%Q))] in
  DetectionDecay.Example.on_data st (timestamp_of 130)
    [(true, 1%Z); (false, 2%Z)] = Ok (st', sent)
  /\ Forall (fun m : DetectionDecay.Msg => (0 <= m.2.2 <= 1)%Q) sent.
Proof.
  assert (H2 : DetectionDecay.Example.on_data
                 (DetectionDecay.mkState
                    [(0%Z, [1%Z]); (50%Z, []); (120%Z, [1%Z])])
                 (timestamp_of 130) [(true, 1%Z); (false, 2%Z)]
               = Ok (DetectionDecay.mkState
                       [(50%Z, []); (120%Z, [1%Z]); (130%Z, [1%Z])],
                     [(timestamp_of 130, (80%Z, (0 # 9)%Q));
                      (timestamp_of 130, (10%Z, (9 # 9)%Q))]))
    by (vm_compute; reflexivity).
  split; [exact H2|].
  exact (sent_precision_is_a_ratio
           DetectionDecay.Example.is_person
           DetectionDecay.Example.bounding_box
           DetectionDecay.Example.get_precision_recall_at_iou
           DetectionDecay.Example.decay_max_latency
           _ _ _ _ _ example_precision_is_a_ratio H2).
Defined.

Lemma watermark_takes_one_of_each_witness :
  let st := PredictionEval.mkState
              [] [PredictionEval.mkTrackingMsg []]
              [PredictionEval.Example.origin] [] in
  is_top (timestamp_of 0) = false
  /\ PredictionEval.on_watermark
       PredictionEval.Example.is_vehicle PredictionEval.Example.is_person
       PredictionEval.Example.trajectory_to_world
       PredictionEval.Example.prediction_to_world 1 st (timestamp_of 0)
     = Raise IndexError.
Proof.
  split; [reflexivity|].
  apply (watermark_takes_one_of_each
           PredictionEval.Example.is_vehicle PredictionEval.Example.is_person
           PredictionEval.Example.trajectory_to_world
           PredictionEval.Example.prediction_to_world 1
           _ (timestamp_of 0) eq_refl).
  right. left. reflexivity.
Defined.

Lemma watermarks_align_the_streams_witness :
  let evs := PredictionEval.Example.round 0 ++ PredictionEval.Example.round 1 in
  exists st log,
    PredictionEval.Example.run 1 PredictionEval.init evs = Ok (st, log)
    /\ (forall k p,
          log !! k = Some p ->
          PredictionEval.aligned PredictionEval.Example.trajectory_to_world
            PredictionEval.Example.prediction_to_world evs k p)
    /\ PredictionEval.pose_msgs st
       = drop (length log) (PredictionEval.pose_data evs)
    /\ PredictionEval.prediction_msgs st
       = drop (length log) (PredictionEval.prediction_data evs)
    /\ PredictionEval.tracking_msgs st
       = drop (length log) (PredictionEval.tracking_data evs).
Proof.
  assert (Hrun : { r | PredictionEval.Example.run 1 PredictionEval.init
                         (PredictionEval.Example.round 0
                          ++ PredictionEval.Example.round 1) = Ok r }).
  { eexists. vm_compute. reflexivity. }
  destruct Hrun as [[st log] Hrun]. exists st, log.
  split; [exact Hrun|].
  exact (watermarks_align_the_streams
           PredictionEval.Example.is_vehicle PredictionEval.Example.is_person
           PredictionEval.Example.trajectory_to_world
           PredictionEval.Example.prediction_to_world 1%nat
           _ st log Hrun).
Defined.

Lemma overall_mean_is_the_weighted_mean_witness :
  let walker :=
    PredictionEval.mkObstaclePrediction 2 "person"
      [PredictionEval.Example.point 4 5] in
  let batch := [PredictionEval.Example.car; walker] in
  exists rows,
    PredictionEval._calculate_metrics
      PredictionEval.Example.is_vehicle PredictionEval.Example.is_person
      (timestamp_of 0) PredictionEval.Example.tracks batch = Ok rows
    /\ PredictionEval.weighted_mean rows "MSD" 1 1
    /\ PredictionEval.weighted_mean rows "ADE" 1 1
    /\ PredictionEval.weighted_mean rows "FDE" 1 1.
Proof.
  set (walker := PredictionEval.mkObstaclePrediction 2 "person"
                   [PredictionEval.Example.point 4 5]).
  assert (Hrows : { rows | PredictionEval._calculate_metrics
                             PredictionEval.Example.is_vehicle
                             PredictionEval.Example.is_person
                             (timestamp_of 0) PredictionEval.Example.tracks
                             [PredictionEval.Example.car; walker]
                           = Ok rows }).
  { eexists. vm_compute. reflexivity. }
  destruct Hrows as [rows Hrows]. exists rows. split; [exact Hrows|].
  apply (overall_mean_is_the_weighted_mean
           PredictionEval.Example.is_vehicle PredictionEval.Example.is_person
           (timestamp_of 0) PredictionEval.Example.tracks
           [PredictionEval.Example.car; walker] rows Hrows).
  - apply Exists_cons_hd. reflexivity.
  - apply Exists_cons_tl, Exists_cons_hd. reflexivity.
Defined.

Lemma errors_are_not_negative_witness :
  let predicted := [PredictionEval.Example.vector 4 6;
                    PredictionEval.Example.vector 5 7] in
  let ground := [PredictionEval.Example.vector 1 2;
                 PredictionEval.Example.vector 2 3] in
  PredictionEval.displacement_errors predicted ground
    = Ok ((50 # 2)%Q, (14 # 2)%Q, 7%Q)
  /\ (0 <= 50 # 2)%Q /\ (0 <= 14 # 2)%Q /\ (0 <= 7)%Q
  /\ (7 <= inject_Z (Z.of_nat 2) * (14 # 2))%Q.
Proof.
  split; [reflexivity|].
  exact (errors_are_not_negative
           [PredictionEval.Example.vector 4 6;
            PredictionEval.Example.vector 5 7]
           [PredictionEval.Example.vector 1 2;
            PredictionEval.Example.vector 2 3] _ _ _ eq_refl).
Defined.

(** The five cameras of the example rig deliver one image each: frames on
    the rgb, depth, left and right streams, watermarks on the left and
    right streams only, and nothing on the segmentation stream. *)
Example one_image_per_camera :
  CameraRunner.Example.run
    [CameraRunner.RgbImage 1%Z; CameraRunner.DepthImage 2%Z;
     CameraRunner.SegImage 3%Z; CameraRunner.LeftImage 4%Z;
     CameraRunner.RightImage 5%Z]
  = [(CameraRunner.rgb_camera,
      CameraRunner.Message (timestamp_of 1)
        (CameraRunner.Camera (1%Z, "sensor.camera.rgb")));
     (CameraRunner.depth_camera,
      CameraRunner.Message (timestamp_of 2)
        (CameraRunner.Depth (2%Z, "sensor.camera.depth")));
     (CameraRunner.left_camera,
      CameraRunner.Message (timestamp_of 4)
        (CameraRunner.Camera (4%Z, "sensor.camera.rgb")));
     (CameraRunner.left_camera,
      CameraRunner.WatermarkMessage (timestamp_of 4));
     (CameraRunner.right_camera,
      CameraRunner.Message (timestamp_of 5)
        (CameraRunner.Camera (5%Z, "sensor.camera.rgb")));
     (CameraRunner.right_camera,
      CameraRunner.WatermarkMessage (timestamp_of 5))].
Proof. reflexivity. Qed.
